(** * Spec_allocation_simulation: the allocation engine and the population sampler

    A shallow embedding of [allocation.py].

    - [allocation_steps] is embedded in a small state-and-exception monad over
      a store that holds the Python objects the function shares and mutates:
      the capacity dictionaries, the assignment dictionaries and the state of
      the process-wide [random] module.
    - The score pipeline of [generate_random_students] is embedded over
      binary64 floating-point numbers.

    - What pandas does to the table before the loop sees it (the float64
      rows of [iterrows], a repeated column label) is embedded around
      [allocation_steps]: [iterrows_view] and [allocation_steps_labels].

    Library behaviour the source relies on but does not define
    ([DataFrame.sort_values], the [random] module, [math.exp],
    [Series.round]) is taken through type classes; reference instances are
    given so that every definition can be evaluated. *)

From Stdlib Require Import ZArith QArith Bool List String Ascii Lia.
From Stdlib Require Import Permutation Sorted Floats.
Import ListNotations.

Local Open Scope string_scope.
Local Open Scope list_scope.
Local Open Scope Z_scope.

Set Implicit Arguments.

(* ================================================================== *)
(** ** Python dictionaries: insertion-ordered association lists *)
(* ================================================================== *)

Section Dict.
Context {K V : Type}.
Variable eqb : K -> K -> bool.

(** A [dict] lists its items in insertion order; the keys of a well-formed
    dictionary are pairwise distinct. *)
Definition dict := list (K * V).

Definition dict_wf (d : dict) : Prop := NoDup (map fst d).

(** [d[k]], [None] standing for [KeyError]. *)
Fixpoint dict_lookup (d : dict) (k : K) : option V :=
  match d with
  | [] => None
  | (k', v) :: d' => if eqb k' k then Some v else dict_lookup d' k
  end.

(** [d.get(k, default)]. *)
Definition dict_get (d : dict) (k : K) (default : V) : V :=
  match dict_lookup d k with
  | Some v => v
  | None => default
  end.

(** [d[k] = v]: an existing key keeps its position, a new key is appended. *)
Fixpoint dict_set (d : dict) (k : K) (v : V) : dict :=
  match d with
  | [] => [(k, v)]
  | (k', v') :: d' =>
      if eqb k' k then (k', v) :: d' else (k', v') :: dict_set d' k v
  end.

Definition dict_keys (d : dict) : list K := map fst d.
End Dict.

Arguments dict : clear implicits.

(* ================================================================== *)
(** ** Strings: [int(...)], [startswith] and slices *)
(* ================================================================== *)

(** A Python [str] is a sequence of code points; a [string] here holds its
    UTF-8 encoding.  [str_of] gives the code points back.  A byte that
    does not start a well-formed sequence is passed on as the code point
    [0xDC00 + byte], which is neither a digit nor white space. *)
Definition continuation (b : N) : bool := ((128 <=? b) && (b <? 192))%N.

Fixpoint utf8_decode (bytes : list N) : list N :=
  match bytes with
  | [] => []
  | b0 :: r0 =>
      if (b0 <? 128)%N then b0 :: utf8_decode r0
      else
        match r0 with
        | b1 :: r1 =>
            if ((194 <=? b0) && (b0 <? 224))%N && continuation b1
            then ((b0 - 192) * 64 + (b1 - 128))%N :: utf8_decode r1
            else
              match r1 with
              | b2 :: r2 =>
                  let v3 := ((b0 - 224) * 4096 + (b1 - 128) * 64 + (b2 - 128))%N in
                  if ((224 <=? b0) && (b0 <? 240))%N && continuation b1
                     && continuation b2 && (2048 <=? v3)%N
                  then v3 :: utf8_decode r2
                  else
                    match r2 with
                    | b3 :: r3 =>
                        let v4 := ((b0 - 240) * 262144 + (b1 - 128) * 4096
                                   + (b2 - 128) * 64 + (b3 - 128))%N in
                        if ((240 <=? b0) && (b0 <? 245))%N && continuation b1
                           && continuation b2 && continuation b3
                           && ((65536 <=? v4) && (v4 <? 1114112))%N
                        then v4 :: utf8_decode r3
                        else (56320 + b0)%N :: utf8_decode r0
                    | [] => (56320 + b0)%N :: utf8_decode r0
                    end
              | [] => (56320 + b0)%N :: utf8_decode r0
              end
        | [] => [(56320 + b0)%N]
        end
  end.

Definition str_of (s : string) : list N :=
  utf8_decode (map N_of_ascii (list_ascii_of_string s)).

(** The code points above 126 for which [str.isspace] holds. *)
Definition unicode_spaces : list N :=
  [133; 160; 5760; 8192; 8193; 8194; 8195; 8196; 8197; 8198; 8199; 8200; 8201;
   8202; 8232; 8233; 8239; 8287; 12288]%N.

(** The digit zero of every script with decimal digits other than ASCII,
    as the Unicode database of CPython 3.11 has them (Unicode 14.0); the
    digits one to nine of a script follow its zero. *)
Definition decimal_zeros : list N :=
  [1632; 1776; 1984; 2406; 2534; 2662; 2790; 2918; 3046; 3174; 3302; 3430;
   3558; 3664; 3792; 3872; 4160; 4240; 6112; 6160; 6470; 6608; 6784; 6800;
   6992; 7088; 7232; 7248; 42528; 43216; 43264; 43472; 43504; 43600; 44016;
   65296; 66720; 68912; 69734; 69872; 69942; 70096; 70384; 70736; 70864;
   71248; 71360; 71472; 71904; 72016; 72784; 73040; 73120; 92768; 92864;
   93008; 120782; 120792; 120802; 120812; 120822; 123200; 123632; 125264;
   130032]%N.

(** What [int] makes of one character of its argument.  Below 127 the
    character is kept: white space is then one of the six characters the
    parser skips, a digit one of [0 .. 9].  From 127 on, white space of
    any kind counts as a space and a decimal digit of any script as the
    ASCII digit of its value. *)
Definition is_space (c : N) : bool :=
  if (c <? 127)%N then (((9 <=? c) && (c <=? 13)) || (c =? 32))%N
  else existsb (N.eqb c) unicode_spaces.

Definition digit_of (c : N) : option Z :=
  if (c <? 127)%N then
    if ((48 <=? c) && (c <=? 57))%N then Some (Z.of_N (c - 48)) else None
  else
    match find (fun z => ((z <=? c) && (c <? z + 10))%N) decimal_zeros with
    | Some z => Some (Z.of_N (c - z))
    | None => None
    end.

Fixpoint lstrip (s : list N) : list N :=
  match s with
  | c :: s' => if is_space c then lstrip s' else s
  | [] => []
  end.

Definition strip (s : list N) : list N :=
  rev (lstrip (rev (lstrip s))).

(** Digits with single underscores between them, read left to right;
    [prev_digit] tells whether the previous character was a digit and [acc] is
    the value read so far. *)
Fixpoint parse_digits (prev_digit : bool) (acc : Z) (s : list N) : option Z :=
  match s with
  | [] => if prev_digit then Some acc else None
  | c :: s' =>
      match digit_of c with
      | Some d => parse_digits true (10 * acc + d) s'
      | None =>
          if ((c =? 95)%N && prev_digit)%bool
          then parse_digits false acc s'
          else None
      end
  end.

(** The default of [sys.get_int_max_str_digits()]. *)
Definition int_max_str_digits : nat := 4300.

(** The digits of a literal, refused when there are more of them than the
    limit allows. *)
Definition parse_limited (s : list N) : option Z :=
  if (List.length
        (filter (fun c => match digit_of c with Some _ => true | None => false end) s)
      <=? int_max_str_digits)%nat
  then parse_digits false 0 s
  else None.

(** [int(s)] for a [str] given by its code points: surrounding white
    space, an optional sign, decimal digits with optional single
    underscores, at most 4300 digits.  [None] stands for [ValueError]. *)
Definition py_int (s : list N) : option Z :=
  match strip s with
  | [] => None
  | c :: rest =>
      if (c =? 45)%N then option_map Z.opp (parse_limited rest)
      else if (c =? 43)%N then parse_limited rest
      else parse_limited (c :: rest)
  end.

(** [_pref_index]: the rank of a column such as ["pref1"], 999 when the
    characters after the fourth do not write a number [int] accepts. *)
Definition _pref_index (col_name : string) : Z :=
  match py_int (skipn 4 (str_of col_name)) with
  | Some z => z
  | None => 999
  end.

Definition startswith (s p : string) : bool := String.prefix p s.

(** [l[:n]] for a Python integer [n]: a negative bound counts from the end. *)
Definition slice_to {A : Type} (n : Z) (l : list A) : list A :=
  if 0 <=? n then firstn (Z.to_nat n) l
  else firstn (List.length l - Z.to_nat (- n))%nat l.

(** [sorted(l, key=key)]: a stable sort, by insertion. *)
Fixpoint insert_by_key {A : Type} (key : A -> Z) (x : A) (l : list A) : list A :=
  match l with
  | [] => [x]
  | y :: l' =>
      if key x <? key y then x :: l else y :: insert_by_key key x l'
  end.

Definition sorted_by_key {A : Type} (key : A -> Z) (l : list A) : list A :=
  fold_left (fun acc x => insert_by_key key x acc) l [].

(* ================================================================== *)
(** ** Data: student tables, snapshots, the store *)
(* ================================================================== *)

(** One record of the student table, as the loop of [allocation_steps]
    reads it ([row["id"]], [row["gpa"]], [row[c]]).  The identifier is an
    integer: the table's own integer, or its conversion to float64 (an
    integer all the same) when [iterrows()] yields float64 rows, which it
    does for a table without a column of dtype object and with one of
    dtype float64 ([iterrows_view] below computes the conversion; it
    changes nothing for identifiers of magnitude at most 2^53).  The score is a finite number
    (so a rational: the engine compares scores and copies them, it never
    computes with them), and every other cell is a category name, [None]
    being a missing value ([NaN]). *)
Record Row := mkRow {
  row_id : Z;
  row_gpa : Q;
  row_cells : list (option string)
}.

(** A [DataFrame]: its column labels, in order, and its records.  The cells
    of a record are those of the columns other than ["id"] and ["gpa"], in
    column order.  A label may occur more than once; the cells under the
    repeated labels ["id"] and ["gpa"] are not kept, since the call raises
    before it reads them ([allocation_steps_labels] below). *)
Record DataFrame := mkDataFrame {
  columns : list string;
  rows : list Row
}.

Definition has_column (df : DataFrame) (c : string) : bool :=
  existsb (String.eqb c) (columns df).

Definition cell_columns (df : DataFrame) : list string :=
  filter (fun c => negb (String.eqb c "id" || String.eqb c "gpa")) (columns df).

(** [row[c]] for a column [c] of [cols], the labels of [cols] being pairwise
    distinct. *)
Fixpoint row_get (cols : list string) (cells : list (option string)) (c : string)
  : option string :=
  match cols, cells with
  | k :: cols', v :: cells' =>
      if String.eqb k c then v else row_get cols' cells' c
  | _, _ => None
  end.

(** Library behaviour of [DataFrame.sort_values("gpa", ascending=False)]: a
    rearrangement of the records in which scores never increase.  The order
    among records of equal score is the library's. *)
Class FrameSort := {
  sort_values_desc : list Row -> list Row;
  sort_values_perm : forall l, Permutation l (sort_values_desc l);
  sort_values_sorted :
    forall l, StronglySorted (fun a b => (row_gpa b <= row_gpa a)%Q)
                (sort_values_desc l)
}.

(** Library behaviour of the [random] module: the generator state,
    [random.seed(n)] for an integer [n], the draw [_randbelow(n)] behind
    [random.choice], and [random.random()]. *)
Class RandomModule := {
  rng : Type;
  seed_int : Z -> rng;
  randbelow : nat -> rng -> nat * rng;
  random_float : rng -> float * rng;
  randbelow_lt : forall n g, (0 < n)%nat -> (fst (randbelow n g) < n)%nat
}.

(** References to dictionaries in the store. *)
Definition ref := nat.

(** One entry of the returned list; ["remaining"] and ["assignments"] hold
    references to the dictionaries made by [.copy()]. *)
Record Snapshot := mkSnapshot {
  student_id : Z;
  gpa : Q;
  prefs : list string;
  chosen : option string;
  remaining : ref;
  assignments : ref
}.

(** The exceptions the embedded code and the library calls it makes can raise. *)
Inductive exn :=
| ValueError
| KeyError
| IndexError
| ZeroDivisionError
| OverflowError
| TypeError.

Section Store.
Context {RM : RandomModule}.

(** The objects a call can reach: capacity dictionaries ([str -> int]),
    assignment dictionaries ([id -> category or None]) and the state of the
    process-wide generator.  A reference is a position in its heap. *)
Record store := mkStore {
  caps_heap : list (dict string Z);
  asg_heap : list (dict Z (option string));
  random_state : rng
}.

Definition M (A : Type) : Type := store -> (exn + A) * store.

Definition ret {A} (a : A) : M A := fun s => (inr a, s).

Definition raise {A} (e : exn) : M A := fun s => (inl e, s).

Definition bind {A B} (m : M A) (k : A -> M B) : M B :=
  fun s =>
    match m s with
    | (inl e, s') => (inl e, s')
    | (inr a, s') => k a s'
    end.

Fixpoint list_set {A} (i : nat) (x : A) (l : list A) : list A :=
  match l, i with
  | [], _ => []
  | _ :: l', O => x :: l'
  | y :: l', S i' => y :: list_set i' x l'
  end.

Definition caps_read (r : ref) : M (dict string Z) :=
  fun s => (inr (nth r (caps_heap s) []), s).

Definition caps_write (r : ref) (d : dict string Z) : M unit :=
  fun s => (inr tt, mkStore (list_set r d (caps_heap s)) (asg_heap s) (random_state s)).

Definition caps_alloc (d : dict string Z) : M ref :=
  fun s => (inr (List.length (caps_heap s)),
            mkStore (caps_heap s ++ [d]) (asg_heap s) (random_state s)).

Definition asg_read (r : ref) : M (dict Z (option string)) :=
  fun s => (inr (nth r (asg_heap s) []), s).

Definition asg_write (r : ref) (d : dict Z (option string)) : M unit :=
  fun s => (inr tt, mkStore (caps_heap s) (list_set r d (asg_heap s)) (random_state s)).

Definition asg_alloc (d : dict Z (option string)) : M ref :=
  fun s => (inr (List.length (asg_heap s)),
            mkStore (caps_heap s) (asg_heap s ++ [d]) (random_state s)).

(** [random.seed(n)]. *)
Definition random_seed (n : Z) : M unit :=
  fun s => (inr tt, mkStore (caps_heap s) (asg_heap s) (seed_int n)).

(** [random.choice(seq)] on a non-empty list. *)
Definition random_choice (seq : list string) : M string :=
  fun s =>
    let (k, g) := randbelow (List.length seq) (random_state s) in
    (inr (nth k seq ""), mkStore (caps_heap s) (asg_heap s) g).


(** [random.random()]. *)
Definition random_random : M float :=
  fun s =>
    let (r, g) := random_float (random_state s) in
    (inr r, mkStore (caps_heap s) (asg_heap s) g).

(** An [Either]-style result lifted into the monad. *)
Definition lift {A} (r : exn + A) : M A :=
  match r with
  | inl e => raise e
  | inr a => ret a
  end.
End Store.

Notation "x <- c1 ;; c2" := (bind c1 (fun x => c2))
  (at level 61, c1 at next level, right associativity).
Notation "c1 ;; c2" := (bind c1 (fun _ => c2))
  (at level 61, right associativity).

(** [for x in l: ...], collecting what each round appends to the result. *)
Fixpoint for_each {RM : RandomModule} {A B} (l : list A) (body : A -> M B)
  : M (list B) :=
  match l with
  | [] => ret []
  | x :: l' =>
      b <- body x ;;
      bs <- for_each l' body ;;
      ret (b :: bs)
  end.

(* ================================================================== *)
(** ** The allocation engine: [allocation_steps] *)
(* ================================================================== *)

Section Engine.
Context {RM : RandomModule} {FS : FrameSort}.

(** [d.copy()]. *)
Definition caps_copy (r : ref) : M ref :=
  d <- caps_read r ;; caps_alloc d.

Definition asg_copy (r : ref) : M ref :=
  d <- asg_read r ;; asg_alloc d.

(** [caps.get(spec, 0)]. *)
Definition caps_get (r : ref) (spec : string) (default : Z) : M Z :=
  d <- caps_read r ;; ret (dict_get String.eqb d spec default).

(** [caps[spec] -= 1]. *)
Definition caps_decr (r : ref) (spec : string) : M unit :=
  d <- caps_read r ;;
  match dict_lookup String.eqb d spec with
  | Some n => caps_write r (dict_set String.eqb d spec (n - 1))
  | None => raise KeyError
  end.

(** [assignments[student_id] = chosen]. *)
Definition asg_setitem (r : ref) (k : Z) (v : option string) : M unit :=
  d <- asg_read r ;; asg_write r (dict_set Z.eqb d k v).

(** The preference columns: those whose label starts with ["pref"], by
    rank, at most [max_prefs] of them. *)
Definition pref_columns (df : DataFrame) (max_prefs : Z) : list string :=
  slice_to max_prefs
    (sorted_by_key _pref_index
       (filter (fun c => startswith c "pref") (columns df))).

(** [[row[c] for c in pref_cols if pd.notna(row[c])]]. *)
Fixpoint notna_values (cells : list (option string)) : list string :=
  match cells with
  | [] => []
  | Some v :: cells' => v :: notna_values cells'
  | None :: cells' => notna_values cells'
  end.

Definition row_prefs (df : DataFrame) (pref_cols : list string) (row : Row)
  : list string :=
  notna_values (map (row_get (cell_columns df) (row_cells row)) pref_cols).

(** The loop over the preferences, with its [break]. *)
Fixpoint try_preferences (caps : ref) (prefs : list string) : M (option string) :=
  match prefs with
  | [] => ret None
  | spec :: rest =>
      n <- caps_get caps spec 0 ;;
      if 0 <? n then
        caps_decr caps spec ;;
        ret (Some spec)
      else try_preferences caps rest
  end.

Definition available_specs (items : dict string Z) (prefs : list string)
  : list string :=
  map fst
    (filter (fun item =>
               (0 <? snd item) && negb (existsb (String.eqb (fst item)) prefs))
       items).

(** The random fallback, entered when no preference had a seat. *)
Definition fallback (caps : ref) (prefs : list string) : M (option string) :=
  items <- caps_read caps ;;
  match available_specs items prefs with
  | [] => ret None
  | avail =>
      c <- random_choice avail ;;
      caps_decr caps c ;;
      ret (Some c)
  end.

(** The body of the loop over the students. *)
Definition process_student (df : DataFrame) (pref_cols : list string)
    (caps assignments_ref : ref) (random_fallback : bool) (row : Row)
  : M Snapshot :=
  let sid := row_id row in
  let g := row_gpa row in
  let ps := row_prefs df pref_cols row in
  first <- try_preferences caps ps ;;
  c <- match first with
       | None => if random_fallback then fallback caps ps else ret None
       | Some _ => ret first
       end ;;
  asg_setitem assignments_ref sid c ;;
  rem <- caps_copy caps ;;
  asg <- asg_copy assignments_ref ;;
  ret (mkSnapshot sid g ps c rem asg).

(** [allocation_steps] on a table whose column labels are pairwise
    distinct, so that [row[c]] is a cell. *)
Definition allocation_steps (df : DataFrame) (capacity_dict : ref)
    (max_prefs : Z) (random_fallback : bool) (seed : option Z)
  : M (list Snapshot) :=
  match seed with Some n => random_seed n | None => ret tt end ;;
  if negb (has_column df "id") || negb (has_column df "gpa") then
    raise ValueError
  else
    let df_sorted := sort_values_desc (rows df) in
    caps <- caps_copy capacity_dict ;;
    assignments_ref <- asg_alloc [] ;;
    let pref_cols := pref_columns df max_prefs in
    for_each df_sorted
      (process_student df pref_cols caps assignments_ref random_fallback).

End Engine.

(** What a caller reads from a snapshot in store [s]: the record with its
    two dictionaries dereferenced. *)
Section Views.
Context {RM : RandomModule}.

Record SnapshotView := mkView {
  v_student_id : Z;
  v_gpa : Q;
  v_prefs : list string;
  v_chosen : option string;
  v_remaining : dict string Z;
  v_assignments : dict Z (option string)
}.

Definition view (s : store) (sn : Snapshot) : SnapshotView :=
  mkView (student_id sn) (gpa sn) (prefs sn) (chosen sn)
    (nth (remaining sn) (caps_heap s) [])
    (nth (assignments sn) (asg_heap s) []).
End Views.

(* ================================================================== *)
(** ** Python floats: [round], [sum], division *)
(* ================================================================== *)

(** The nearest integer to [a / d] for [d > 0], ties to the even one. *)
Definition round_half_even (a d : Z) : Z :=
  let q := a / d in
  let r := a mod d in
  match (2 * r ?= d) with
  | Lt => q
  | Gt => q + 1
  | Eq => if Z.even q then q else q + 1
  end.

(** [round(x, ndigits)] for a float [x] and [ndigits >= 0]: the exact value
    of [x] is rounded, ties to even, to a decimal with [ndigits] digits after
    the point, and the result is the binary64 number nearest to that
    decimal.  Zeros, infinities and NaN round to themselves. *)
Definition py_round (x : float) (ndigits : Z) : float :=
  match Prim2SF x with
  | S754_finite s m e =>
      let scale := 10 ^ ndigits in
      let n := if 0 <=? e then Z.pos m * 2 ^ e * scale
               else round_half_even (Z.pos m * scale) (2 ^ (- e)) in
      match n with
      | Z.pos p =>
          SF2Prim (SFdiv prec emax (S754_finite s p 0)
                     (S754_finite false (Z.to_pos scale) 0))
      | _ => SF2Prim (S754_zero s)
      end
  | _ => x
  end.

(** [float(n)] for a small natural number. *)
Definition float_of_nat (n : nat) : float :=
  PrimFloat.of_uint63 (Uint63.of_Z (Z.of_nat n)).

(** [sum(l)]: additions from the left, starting at zero. *)
Definition py_sum (l : list float) : float :=
  fold_left PrimFloat.add l 0%float.

(** [a / b]. *)
Definition py_div (a b : float) : exn + float :=
  if PrimFloat.eqb b 0 then inl ZeroDivisionError else inr (a / b)%float.

(** [math.pi]. *)
Definition math_pi : float := 0x1.921fb54442d18p+1%float.

(** [itertools.accumulate(l)]: the running sums. *)
Fixpoint accumulate_from (acc : float) (l : list float) : list float :=
  match l with
  | [] => []
  | x :: l' => let a := (acc + x)%float in a :: accumulate_from a l'
  end.

Definition accumulate (l : list float) : list float :=
  match l with
  | [] => []
  | x :: l' => x :: accumulate_from x l'
  end.

(** [bisect.bisect(a, x, lo, hi)], the loop of [bisect_right]; [fuel] bounds
    the number of rounds and [hi - lo] rounds are always enough. *)
Fixpoint bisect_loop (fuel : nat) (a : list float) (x : float) (lo hi : nat) : nat :=
  match fuel with
  | O => lo
  | S fuel' =>
      if (lo <? hi)%nat then
        let mid := ((lo + hi) / 2)%nat in
        if (x <? nth mid a nan)%float then bisect_loop fuel' a x lo mid
        else bisect_loop fuel' a x (mid + 1)%nat hi
      else lo
  end.

Definition bisect (a : list float) (x : float) (lo hi : nat) : nat :=
  bisect_loop (hi - lo) a x lo hi.

(** [l.pop(idx)] for a Python integer index: a negative index counts from
    the end; out of range is [IndexError].  Returns the element and the list
    without it. *)
Definition py_pop {A : Type} (l : list A) (idx : Z) : exn + (A * list A) :=
  let n := Z.of_nat (List.length l) in
  let i := if idx <? 0 then idx + n else idx in
  if (i <? 0) || (n <=? i) then inl IndexError
  else
    match nth_error l (Z.to_nat i) with
    | Some x => inr (x, firstn (Z.to_nat i) l ++ skipn (S (Z.to_nat i)) l)
    | None => inl IndexError
    end.

(* ================================================================== *)
(** ** The table as pandas hands it to the loop *)
(* ================================================================== *)

(** The column labels of a table are pairwise distinct. *)
Definition labels_distinct (df : DataFrame) : Prop := NoDup (columns df).

(** The label [c] occurs more than once among the columns: pandas then
    evaluates [row[c]] to a Series, not to a cell, and
    [sort_values(c)] refuses the label. *)
Definition label_repeated (df : DataFrame) (c : string) : bool :=
  (1 <? List.length (filter (String.eqb c) (columns df)))%nat.

(** [float(n)] for an integer [n]: the binary64 number nearest to [n], ties
    to even; its value is an integer again. *)
Definition float64_of_int (n : Z) : Z :=
  let a := Z.abs n in
  let e := Z.log2 a - 52 in
  if e <=? 0 then n else Z.sgn n * (round_half_even a (2 ^ e) * 2 ^ e).

(** Every identifier of the table is of magnitude at most 2^53: an
    integer that binary64 holds exactly, as it does its neighbours. *)
Definition ids_exact (df : DataFrame) : Prop :=
  forall r, In r (rows df) -> Z.abs (row_id r) <= 2 ^ 53.

(** The records [df_sorted.iterrows()] hands to the loop, for a table whose
    identifiers are integers.  Each row comes as one Series.  When the
    table has no column of dtype object and has a column of dtype float64
    ([float_rows]), that Series has dtype float64 and the identifier
    arrives converted; otherwise every cell keeps its value. *)
Definition iterrows_view (float_rows : bool) (df : DataFrame) : DataFrame :=
  if float_rows then
    mkDataFrame (columns df)
      (map (fun r => mkRow (float64_of_int (row_id r)) (row_gpa r) (row_cells r))
         (rows df))
  else df.

Section EngineLabels.
Context {RM : RandomModule} {FS : FrameSort}.

(** The body of the loop for a table whose labels may repeat.  Line 238
    takes the truth value of [pd.notna(row[c])]: for a repeated label that
    is the truth value of a Series, which raises [ValueError].  With a
    repeated ["id"] label [student_id] is a Series: the seat is looked for
    as usual and line 261 then fails to use the Series as a key
    ([TypeError]). *)
Definition process_student_labels (df : DataFrame) (pref_cols : list string)
    (caps assignments_ref : ref) (random_fallback : bool) (row : Row)
  : M Snapshot :=
  if existsb (label_repeated df) pref_cols then raise ValueError
  else if label_repeated df "id" then
    let ps := row_prefs df pref_cols row in
    first <- try_preferences caps ps ;;
    match first with
    | None => if random_fallback then fallback caps ps else ret None
    | Some _ => ret first
    end ;;
    raise TypeError
  else process_student df pref_cols caps assignments_ref random_fallback row.

(** [allocation_steps] on a table whose labels may repeat: a repeated
    ["gpa"] label makes [sort_values] raise [ValueError] (line 223); the
    other repeated labels show when the first record is processed.  On a
    table with pairwise distinct labels this is [allocation_steps]. *)
Definition allocation_steps_labels (df : DataFrame) (capacity_dict : ref)
    (max_prefs : Z) (random_fallback : bool) (seed : option Z)
  : M (list Snapshot) :=
  match seed with Some n => random_seed n | None => ret tt end ;;
  if negb (has_column df "id") || negb (has_column df "gpa") then
    raise ValueError
  else if label_repeated df "gpa" then
    raise ValueError
  else
    let df_sorted := sort_values_desc (rows df) in
    caps <- caps_copy capacity_dict ;;
    assignments_ref <- asg_alloc [] ;;
    let pref_cols := pref_columns df max_prefs in
    for_each df_sorted
      (process_student_labels df pref_cols caps assignments_ref random_fallback).
End EngineLabels.

(* ================================================================== *)
(** ** The population sampler: the scores of [generate_random_students] *)
(* ================================================================== *)

Section Sampler.
Context {RM : RandomModule}.

(** Library behaviour of [math.exp] and of the C [pow(x, 2.0)] behind
    [x ** 2]. *)
Variable math_exp : float -> float.
Variable libm_pow2 : float -> float.

(** [x ** 2]: an infinite result from a finite operand is
    [OverflowError]. *)
Definition py_pow2 (x : float) : exn + float :=
  let y := libm_pow2 x in
  if PrimFloat.is_finite x && PrimFloat.is_infinity y
  then inl OverflowError else inr y.

(** The 64 levels [round(gpa_min + i * step, 6)]. *)
Definition grid_levels (gpa_min gpa_max : float) : list float :=
  let step := ((gpa_max - gpa_min) / 63)%float in
  map (fun i => py_round (gpa_min + float_of_nat i * step)%float 6) (seq 0 64).

(** The levels kept: those within [gpa_min .. gpa_max]. *)
Definition allowed_gpas (gpa_min gpa_max : float) : list float :=
  filter (fun g => (gpa_min <=? g)%float && (g <=? gpa_max)%float)
    (grid_levels gpa_min gpa_max).

Definition normal_pdf (x mu sigma : float) : exn + float :=
  if (sigma <=? 0)%float then inr 0%float
  else
    match py_div 1 (sigma * PrimFloat.sqrt (2 * math_pi))%float with
    | inl e => inl e
    | inr coef =>
        match py_pow2 ((x - mu) / sigma)%float with
        | inl e => inl e
        | inr sq => inr (coef * math_exp (-0.5 * sq))%float
        end
    end.

(** [[f(x) for x in l]] for an [f] that may raise. *)
Fixpoint map_exn {A B} (f : A -> exn + B) (l : list A) : exn + list B :=
  match l with
  | [] => inr []
  | x :: l' =>
      match f x with
      | inl e => inl e
      | inr y =>
          match map_exn f l' with
          | inl e => inl e
          | inr ys => inr (y :: ys)
          end
      end
  end.

(** Lines 62-70: the density on the grid, made uniform when it sums to
    zero or less, then normalised. *)
Definition level_probs (allowed : list float) (mean std : float)
  : exn + list float :=
  match map_exn (fun g => normal_pdf g mean std) allowed with
  | inl e => inl e
  | inr weights =>
      let total_w := py_sum weights in
      let weights' :=
        if (total_w <=? 0)%float then map (fun _ => 1%float) weights
        else weights in
      let total_w' :=
        if (total_w <=? 0)%float then py_sum weights' else total_w in
      map_exn (fun w => py_div w total_w') weights'
  end.

(** [k] rounds of a draw, for a Python integer [k]. *)
Fixpoint repeat_draw {A} (k : nat) (draw : M A) : M (list A) :=
  match k with
  | O => ret []
  | S k' => x <- draw ;; xs <- repeat_draw k' draw ;; ret (x :: xs)
  end.

(** [random.choices(population, weights=weights, k=k)]. *)
Definition random_choices (population weights : list float) (k : Z)
  : M (list float) :=
  let n := List.length population in
  let cum_weights := accumulate weights in
  if negb (List.length cum_weights =? n)%nat then raise ValueError
  else
    match rev cum_weights with
    | [] => raise IndexError
    | final :: _ =>
        let total := (final + 0)%float in
        if (total <=? 0)%float then raise ValueError
        else if negb (PrimFloat.is_finite total) then raise ValueError
        else
          repeat_draw (Z.to_nat k)
            (r <- random_random ;;
             ret (nth (bisect cum_weights (r * total)%float 0 (n - 1)) population nan))
    end.

(** [random.uniform(a, b)]. *)
Definition random_uniform (a b : float) : M float :=
  r <- random_random ;; ret (a + (b - a) * r)%float.

(** The scan of [weighted_pop]: the first index whose running sum reaches
    [r], the last index when none does. *)
Fixpoint weighted_scan (r cum : float) (idx : Z) (probs_list : list float) : Z :=
  match probs_list with
  | [] => idx - 1
  | p :: rest =>
      let cum' := (cum + p)%float in
      if (r <=? cum')%float then idx else weighted_scan r cum' (idx + 1) rest
  end.

Definition weighted_pop (probs_list : list float) : M Z :=
  r <- random_random ;; ret (weighted_scan r 0%float 0 probs_list).

(** The loop of the mode without replacement, [rounds] rounds. *)
Fixpoint draw_without_replacement (rounds : nat)
    (choices choice_probs gpas : list float) : M (list float) :=
  match rounds with
  | O => ret gpas
  | S rounds' =>
      idx <- weighted_pop choice_probs ;;
      popped <- lift (py_pop choices idx) ;;
      popped_p <- lift (py_pop choice_probs idx) ;;
      let s := py_sum (snd popped_p) in
      let choice_probs' :=
        if (0 <? s)%float then map (fun p => (p / s)%float) (snd popped_p)
        else snd popped_p in
      draw_without_replacement rounds' (snd popped) choice_probs'
        (gpas ++ [fst popped])
  end.

(** [[round(gpas[i], 3) for i in range(n)]]. *)
Definition stored_gpas (gpas : list float) (n : nat) : exn + list float :=
  map_exn (fun i => match nth_error gpas i with
                    | Some g => inr (py_round g 3)
                    | None => inl IndexError
                    end) (seq 0 n).

(** The scores [generate_random_students] stores, in generation order
    (lines 31-116: everything that decides the ["gpa"] column; the
    preferences are drawn afterwards and the table is then sorted by
    score). *)
Definition generate_gpas (n_students : Z) (gpa_min gpa_max : float)
    (seed : option Z) (mean std : option float)
    (sampling_with_replacement : bool) : M (list float) :=
  match seed with Some n => random_seed n | None => ret tt end ;;
  let allowed := allowed_gpas gpa_min gpa_max in
  let mean' := match mean with
               | Some m => m
               | None => ((gpa_min + gpa_max) / 2)%float
               end in
  let std' := match std with
              | Some sd => sd
              | None => ((gpa_max - gpa_min) / 6)%float
              end in
  probs <- lift (level_probs allowed mean' std') ;;
  allowed' <- match allowed with
              | [] =>
                  repeat_draw (Z.to_nat (Z.max 1 n_students))
                    (u <- random_uniform gpa_min gpa_max ;; ret (py_round u 3))
              | _ => ret allowed
              end ;;
  gpas <- (if sampling_with_replacement then
             random_choices allowed' probs n_students
           else
             let rounds := Z.to_nat (Z.min n_students (Z.of_nat (List.length allowed'))) in
             drawn <- draw_without_replacement rounds allowed' probs [] ;;
             if Z.of_nat (List.length drawn) <? n_students then
               extras <- random_choices allowed' probs
                           (n_students - Z.of_nat (List.length drawn)) ;;
               ret (drawn ++ extras)
             else ret drawn) ;;
  lift (stored_gpas gpas (Z.to_nat n_students)).
End Sampler.

(** The total [random.choices] accepts: the last running sum of the
    weights, positive and finite. *)
Definition total_ok (weights : list float) : bool :=
  match rev (accumulate weights) with
  | [] => false
  | final :: _ =>
      negb (final + 0 <=? 0)%float && PrimFloat.is_finite (final + 0)%float
  end.

(** The grid as the repository's test computes it:
    [round(gpa_min + i * step, 3)] for [i] in [range(64)]. *)
Definition test_grid (gpa_min gpa_max : float) : list float :=
  map (fun i => py_round (gpa_min + float_of_nat i * ((gpa_max - gpa_min) / 63))%float 3)
    (seq 0 64).

(** [x in grid]. *)
Definition on_grid (x : float) (grid : list float) : bool :=
  existsb (PrimFloat.eqb x) grid.

(* ================================================================== *)
(** ** A functional reading of the engine's loop *)
(* ================================================================== *)

(** The loop of [allocation_steps] read as a function on dictionary values.
    The properties of [allocation_steps] are obtained by showing that its
    run in the store computes exactly this. *)
Section Model.
Context {RM : RandomModule}.

Definition decrement (caps : dict string Z) (spec : string) : dict string Z :=
  match dict_lookup String.eqb caps spec with
  | Some n => dict_set String.eqb caps spec (n - 1)
  | None => caps
  end.

Fixpoint first_fit (caps : dict string Z) (ps : list string) : option string :=
  match ps with
  | [] => None
  | spec :: rest =>
      if 0 <? dict_get String.eqb caps spec 0 then Some spec
      else first_fit caps rest
  end.

Definition step (fb : bool) (caps : dict string Z) (g : rng) (ps : list string)
  : option string * dict string Z * rng :=
  match first_fit caps ps with
  | Some c => (Some c, decrement caps c, g)
  | None =>
      if fb then
        match available_specs caps ps with
        | [] => (None, caps, g)
        | avail =>
            let c := nth (fst (randbelow (List.length avail) g)) avail "" in
            (Some c, decrement caps c, snd (randbelow (List.length avail) g))
        end
      else (None, caps, g)
  end.

(** A student as the loop sees it: identifier, score, effective
    preferences. *)
Definition student : Type := Z * Q * list string.

Fixpoint run_pure (fb : bool) (students : list student)
    (caps : dict string Z) (asg : dict Z (option string)) (g : rng)
  : list SnapshotView * rng :=
  match students with
  | [] => ([], g)
  | (sid, gp, ps) :: rest =>
      let r := step fb caps g ps in
      let c := fst (fst r) in
      let caps' := snd (fst r) in
      let asg' := dict_set Z.eqb asg sid c in
      let tl := run_pure fb rest caps' asg' (snd r) in
      (mkView sid gp ps c caps' asg' :: fst tl, snd tl)
  end.

(** The snapshots the loop returns when its copies land at positions
    [rc], [rc + 1], ... and [ra], [ra + 1], ... of the two heaps. *)
Fixpoint snapshots_at (rc ra : nat) (vs : list SnapshotView) : list Snapshot :=
  match vs with
  | [] => []
  | v :: vs' =>
      mkSnapshot (v_student_id v) (v_gpa v) (v_prefs v) (v_chosen v) rc ra
        :: snapshots_at (S rc) (S ra) vs'
  end.

Definition students_of (df : DataFrame) (max_prefs : Z) (l : list Row)
  : list student :=
  map (fun r => (row_id r, row_gpa r, row_prefs df (pref_columns df max_prefs) r)) l.

(** The dictionary left by the loop over the preferences. *)
Definition after_fit (caps : dict string Z) (ps : list string) : dict string Z :=
  match first_fit caps ps with
  | Some c => decrement caps c
  | None => caps
  end.

(** The initial state of the generator for a run. *)
Definition seeded (seed : option Z) (s : store) : rng :=
  match seed with
  | Some n => seed_int n
  | None => random_state s
  end.
End Model.

(** The functional trace of a call: the views of the snapshots it returns. *)
Definition trace {RM : RandomModule} {FS : FrameSort} (df : DataFrame)
    (capacity_dict : ref) (max_prefs : Z) (fb : bool) (seed : option Z)
    (s : store) : list SnapshotView :=
  fst (run_pure fb (students_of df max_prefs (sort_values_desc (rows df)))
         (nth capacity_dict (caps_heap s) []) [] (seeded seed s)).

(** The capacities a step starts from, read off the snapshots: the initial
    dictionary for the first student, the ["remaining"] of the previous
    snapshot for the others.  Likewise for the assignment map. *)
Definition capacity_before (caps0 : dict string Z) (vs : list SnapshotView) (k : nat)
  : dict string Z :=
  match k with
  | O => caps0
  | S k' => match nth_error vs k' with
            | Some v => v_remaining v
            | None => caps0
            end
  end.

Definition assignments_before (asg0 : dict Z (option string))
    (vs : list SnapshotView) (k : nat) : dict Z (option string) :=
  match k with
  | O => asg0
  | S k' => match nth_error vs k' with
            | Some v => v_assignments v
            | None => asg0
            end
  end.

(** The last snapshot of a run, when there is one. *)
Definition final_view (vs : list SnapshotView) : option SnapshotView :=
  nth_error vs (List.length vs - 1).

Definition student_ids (l : list (Z * Q * list string)) : list Z :=
  map (fun st => fst (fst st)) l.

(** The assignments recorded by a sequence of snapshots, one per student. *)
Definition entries (vs : list SnapshotView) : dict Z (option string) :=
  map (fun v => (v_student_id v, v_chosen v)) vs.

(** [after] is [before] with one seat of category [c] taken: same keys in
    the same order, the capacity of [c] one lower, every other entry
    untouched. *)
Definition decremented (before after : dict string Z) (c : string) : Prop :=
  dict_keys after = dict_keys before /\
  dict_get String.eqb after c 0 = dict_get String.eqb before c 0 - 1 /\
  forall x, x <> c ->
    dict_lookup String.eqb after x = dict_lookup String.eqb before x.

(** The number of entries of an assignment map whose value is category [c]. *)
Definition count_assigned (asg : dict Z (option string)) (c : string) : nat :=
  List.length
    (filter (fun kv => match snd kv with
                       | Some c' => String.eqb c' c
                       | None => false
                       end) asg).

(** What a caller observes of a call: the exception, or the snapshots as
    read in the store the call leaves. *)
Definition observe {RM : RandomModule} (r : (exn + list Snapshot) * store)
  : exn + list SnapshotView :=
  match fst r with
  | inl e => inl e
  | inr snaps => inr (map (view (snd r)) snaps)
  end.

(* ================================================================== *)
(** ** Reference implementations of the library interfaces *)
(* ================================================================== *)

(** A stable sort by score, highest first. *)
Fixpoint insert_desc (r : Row) (l : list Row) : list Row :=
  match l with
  | [] => [r]
  | x :: l' =>
      if Qle_bool (row_gpa x) (row_gpa r) then r :: l
      else x :: insert_desc r l'
  end.

Definition stable_sort_desc (l : list Row) : list Row :=
  fold_right insert_desc [] l.

(** A linear congruential generator standing for the [random] module. *)
Definition lcg_next (g : Z) : Z := (1103515245 * g + 12345) mod 2147483648.

Definition lcg_randbelow (n : nat) (g : Z) : nat * Z :=
  (Z.to_nat (lcg_next g mod Z.of_nat n), lcg_next g).

Definition lcg_random (g : Z) : float * Z :=
  ((PrimFloat.of_uint63 (Uint63.of_Z (lcg_next g)) / 2147483648)%float, lcg_next g).

(** The reference implementations meet their interfaces. *)

Lemma insert_desc_perm (r : Row) (l : list Row) :
  Permutation (r :: l) (insert_desc r l).
Proof.
  induction l as [|x l IH]; simpl.
  - apply Permutation_refl.
  - destruct (Qle_bool (row_gpa x) (row_gpa r)).
    + apply Permutation_refl.
    + eapply perm_trans; [apply perm_swap|].
      apply perm_skip, IH.
Qed.

Lemma stable_sort_desc_perm (l : list Row) :
  Permutation l (stable_sort_desc l).
Proof.
  induction l as [|r l IH]; simpl.
  - constructor.
  - eapply perm_trans; [apply perm_skip, IH|].
    apply insert_desc_perm.
Qed.

Lemma insert_desc_sorted (r : Row) (l : list Row) :
  StronglySorted (fun a b => (row_gpa b <= row_gpa a)%Q) l ->
  StronglySorted (fun a b => (row_gpa b <= row_gpa a)%Q) (insert_desc r l).
Proof.
  induction 1 as [|x l Hs IH Hx]; simpl.
  - repeat constructor.
  - destruct (Qle_bool (row_gpa x) (row_gpa r)) eqn:E.
    + apply Qle_bool_iff in E.
      constructor; [constructor; assumption|].
      constructor; [exact E|].
      rewrite Forall_forall in *.
      intros y Hy. eapply Qle_trans; [apply Hx, Hy|exact E].
    + assert (Hlt : (row_gpa r < row_gpa x)%Q).
      { apply Qnot_le_lt. intro Hle. apply Qle_bool_iff in Hle. congruence. }
      constructor; [exact IH|].
      rewrite Forall_forall in *.
      intros y Hy.
      apply (Permutation_in y (Permutation_sym (insert_desc_perm r l))) in Hy.
      destruct Hy as [<-|Hy]; [apply Qlt_le_weak, Hlt|auto].
Qed.

Lemma stable_sort_desc_sorted (l : list Row) :
  StronglySorted (fun a b => (row_gpa b <= row_gpa a)%Q) (stable_sort_desc l).
Proof.
  induction l as [|r l IH]; simpl.
  - constructor.
  - apply insert_desc_sorted, IH.
Qed.

Lemma lcg_randbelow_lt (n : nat) (g : Z) :
  (0 < n)%nat -> (fst (lcg_randbelow n g) < n)%nat.
Proof.
  intros Hn. unfold lcg_randbelow; simpl.
  pose proof (Z.mod_pos_bound (lcg_next g) (Z.of_nat n) ltac:(lia)).
  lia.
Qed.

Definition reference_sort : FrameSort := {|
  sort_values_desc := stable_sort_desc;
  sort_values_perm := stable_sort_desc_perm;
  sort_values_sorted := stable_sort_desc_sorted
|}.

Definition reference_random : RandomModule := {|
  rng := Z;
  seed_int := fun n => n mod 2147483648;
  randbelow := lcg_randbelow;
  random_float := lcg_random;
  randbelow_lt := lcg_randbelow_lt
|}.

(** ** The inputs of the repository's tests *)

Definition test_columns : list string := ["id"; "gpa"; "pref1"; "pref2"].

Definition test_prefs : list (option string) := [Some "Software"; Some "Mechanical"].

Definition priority_hi : Row := mkRow 1 9 test_prefs.
Definition priority_lo : Row := mkRow 2 8 test_prefs.

Definition priority_df : DataFrame :=
  mkDataFrame test_columns [priority_hi; priority_lo].

Definition priority_caps : dict string Z := [("Software", 1); ("Mechanical", 1)].

Definition fallback_df : DataFrame :=
  mkDataFrame test_columns
    [mkRow 1 9 test_prefs; mkRow 2 (17 # 2) test_prefs; mkRow 3 7 test_prefs].

Definition fallback_caps : dict string Z :=
  [("Software", 1); ("Mechanical", 1); ("Engineering Science", 1)].

(** Two students with the same identifier. *)
Definition twin_df : DataFrame :=
  mkDataFrame test_columns [mkRow 7 9 test_prefs; mkRow 7 8 test_prefs].

(** Two students whose identifiers are 2^53 and 2^53 + 1, in a table with
    the two required columns only: an int64 and a float64 column. *)
Definition big_ids_df : DataFrame :=
  mkDataFrame ["id"; "gpa"]
    [mkRow 9007199254740992 9 []; mkRow 9007199254740993 8 []].

(** One student in a table where the label ["pref1"] occurs twice. *)
Definition repeated_label_df : DataFrame :=
  mkDataFrame ["id"; "gpa"; "pref1"; "pref1"] [mkRow 1 9 test_prefs].

(** A store holding one capacity dictionary, at reference 0. *)
Definition store_with (caps : dict string Z) : store (RM := reference_random) :=
  mkStore (RM := reference_random) [caps] [] 0.

(** Stand-ins for the two library functions, for runs that do not call
    them ([std <= 0]): no exponential, and the square by multiplication. *)
Definition no_exp : float -> float := fun _ => nan.
Definition square : float -> float := fun x => (x * x)%float.

(** The scores of one reference run: ten students on the range
    [0.0 .. 9.0] of the repository's test, with a zero standard deviation. *)
Definition run_sampler (n_students : Z) (gpa_min gpa_max : float)
    (std : option float) (with_replacement : bool)
  : (exn + list float) * store (RM := reference_random) :=
  generate_gpas (RM := reference_random) no_exp square n_students gpa_min gpa_max
    (Some 123) None std with_replacement (store_with []).

(** 0.0014999996, whose sixth decimal rounds up to 0.0015. *)
Definition odd_min : float := 0x1.893744e76ff92p-10%float.

Definition run_reference (df : DataFrame) (caps : dict string Z) (max_prefs : Z)
    (random_fallback : bool) (seed : option Z) : exn + list SnapshotView :=
  observe (allocation_steps (RM := reference_random) (FS := reference_sort)
             df 0%nat max_prefs random_fallback seed (store_with caps)).

(** A second store: the same capacities at another reference, another
    generator state, other dictionaries around. *)
Definition other_store : store (RM := reference_random) :=
  mkStore (RM := reference_random) [[("Civil", 4)]; fallback_caps] [[(9, None)]] 7.

(** The snapshots of the second test, as the caller reads them. *)
Definition fallback_trace : exn + list SnapshotView :=
  Eval vm_compute in run_reference fallback_df fallback_caps 2 true (Some 42).

Example fallback_trace_eq :
  run_reference fallback_df fallback_caps 2 true (Some 42) = fallback_trace.
Proof. vm_compute. reflexivity. Qed.

(** The scores of a reference run of the sampler. *)
Definition sample_scores : exn + list float :=
  Eval vm_compute in fst (run_sampler 10 0 9 (Some 0%float) true).

Example sample_scores_eq :
  fst (run_sampler 10 0 9 (Some 0%float) true) = sample_scores.
Proof. vm_compute. reflexivity. Qed.

(** [test_gpa_priority_allocation]. *)
Example test_gpa_priority_allocation :
  option_map v_assignments
    (match run_reference priority_df priority_caps 2 false None with
     | inr vs => final_view vs
     | inl _ => None
     end)
  = Some [(1, Some "Software"); (2, Some "Mechanical")].
Proof. vm_compute. reflexivity. Qed.

(** [test_random_fallback_assigns_outside_prefs_with_seed]. *)
Example test_random_fallback_assigns_outside_prefs_with_seed :
  option_map v_assignments
    (match run_reference fallback_df fallback_caps 2 true (Some 42) with
     | inr vs => final_view vs
     | inl _ => None
     end)
  = Some [(1, Some "Software"); (2, Some "Mechanical");
          (3, Some "Engineering Science")].
Proof. vm_compute. reflexivity. Qed.

(** [round] on a tie that binary64 resolves upwards, on an exact tie, and
    on the two roundings of 0.0014999996. *)
Example py_round_examples :
  py_round 0x1.5666666666666p+1 2 = 0x1.55c28f5c28f5cp+1%float /\
  py_round 0.125 2 = 0x1.eb851eb851eb8p-4%float /\
  py_round odd_min 6 = 0x1.89374bc6a7efap-10%float /\
  py_round 0x1.89374bc6a7efap-10 3 = 0x1.0624dd2f1a9fcp-9%float /\
  py_round odd_min 3 = 0x1.0624dd2f1a9fcp-10%float.
Proof. repeat split; vm_compute; reflexivity. Qed.

(** A range whose lowest level rounds below [gpa_min]: the grid keeps 63
    levels, and 63 weights [1.0 / 63] do not add up to 1. *)
Example grid_of_63_levels :
  List.length (allowed_gpas 0x1.ad7f29abcaf48p-22 1) = 63%nat /\
  PrimFloat.eqb (py_sum (repeat (1 / float_of_nat 63)%float 63)) 1 = false.
Proof. split; vm_compute; reflexivity. Qed.

Example pref_index_examples :
  map _pref_index ["pref1"; "pref10"; "pref"; "prefix"; "pref 2 "; "pref-3"; "pref1_0"]
  = [1; 10; 999; 999; 2; -3; 10].
Proof. reflexivity. Qed.

(** The bytes of a name that is not ASCII. *)
Definition string_of_bytes (l : list nat) : string :=
  string_of_list_ascii (map ascii_of_nat l).

(** A full-width digit three; a no-break space before the digit; a name
    whose third character takes two bytes; a control character, which is
    white space for [str.isspace] but not for [int]; 4300 digits and 4301
    digits. *)
Example pref_index_unicode_examples :
  map _pref_index
    [string_of_bytes [112; 114; 101; 102; 239; 188; 147]%nat;
     string_of_bytes [112; 114; 101; 102; 194; 160; 55]%nat;
     string_of_bytes [112; 114; 195; 169; 102; 49; 50]%nat;
     string_of_bytes [112; 114; 101; 102; 28; 49]%nat;
     "pref" ++ string_of_list_ascii (repeat "0"%char 4299) ++ "7";
     "pref" ++ string_of_list_ascii (repeat "0"%char 4300) ++ "7"]%string
  = [3; 7; 12; 999; 7; 999].
Proof. vm_compute. reflexivity. Qed.

Example pref_columns_example :
  pref_columns (mkDataFrame ["pref3"; "id"; "prefb"; "pref1"; "gpa"; "prefa"; "pref2"] []) 2
  = ["pref1"; "pref2"] /\
  slice_to (-1) [1; 2; 3] = [1; 2].
Proof. split; reflexivity. Qed.

(* ================================================================== *)
(** * Properties *)
(* ================================================================== *)

(** ** Dictionaries *)

Section DictFacts.
Context {K V : Type}.
Variable eqb : K -> K -> bool.
Hypothesis eqb_spec : forall a b, eqb a b = true <-> a = b.

Lemma eqb_refl_true (a : K) : eqb a a = true.
Proof. apply eqb_spec; reflexivity. Qed.

Lemma eqb_neq_false (a b : K) : a <> b -> eqb a b = false.
Proof.
  intros Hn. destruct (eqb a b) eqn:E; [|reflexivity].
  apply eqb_spec in E. contradiction.
Qed.

Lemma dict_lookup_in (d : dict K V) (k : K) :
  In k (dict_keys d) -> exists v, dict_lookup eqb d k = Some v.
Proof.
  induction d as [|[k' v'] d IH]; simpl; [tauto|].
  intros [->|Hin].
  - rewrite eqb_refl_true. eauto.
  - destruct (eqb k' k); eauto.
Qed.

Lemma dict_lookup_some_in (d : dict K V) (k : K) (v : V) :
  dict_lookup eqb d k = Some v -> In k (dict_keys d).
Proof.
  induction d as [|[k' v'] d IH]; simpl; [discriminate|].
  destruct (eqb k' k) eqn:E.
  - apply eqb_spec in E. auto.
  - auto.
Qed.

Lemma dict_lookup_none (d : dict K V) (k : K) :
  ~ In k (dict_keys d) -> dict_lookup eqb d k = None.
Proof.
  intros Hn. destruct (dict_lookup eqb d k) eqn:E; [|reflexivity].
  apply dict_lookup_some_in in E. contradiction.
Qed.

Lemma dict_set_lookup_same (d : dict K V) (k : K) (v : V) :
  dict_lookup eqb (dict_set eqb d k v) k = Some v.
Proof.
  induction d as [|[k' v'] d IH]; simpl.
  - now rewrite eqb_refl_true.
  - destruct (eqb k' k) eqn:E; simpl; rewrite E; auto.
Qed.

Lemma dict_set_lookup_other (d : dict K V) (k k2 : K) (v : V) :
  k <> k2 -> dict_lookup eqb (dict_set eqb d k v) k2 = dict_lookup eqb d k2.
Proof.
  intros Hn.
  induction d as [|[k' v'] d IH]; simpl.
  - now rewrite eqb_neq_false.
  - destruct (eqb k' k) eqn:E; simpl.
    + apply eqb_spec in E; subst k'.
      now rewrite eqb_neq_false.
    + now rewrite IH.
Qed.

Lemma dict_set_keys_present (d : dict K V) (k : K) (v : V) :
  In k (dict_keys d) -> dict_keys (dict_set eqb d k v) = dict_keys d.
Proof.
  induction d as [|[k' v'] d IH]; simpl; [tauto|].
  intros Hin. destruct (eqb k' k) eqn:E; simpl; [reflexivity|].
  f_equal. apply IH. destruct Hin as [->|]; [|assumption].
  now rewrite eqb_refl_true in E.
Qed.

Lemma dict_set_keys_absent (d : dict K V) (k : K) (v : V) :
  ~ In k (dict_keys d) -> dict_set eqb d k v = d ++ [(k, v)].
Proof.
  induction d as [|[k' v'] d IH]; simpl; [reflexivity|].
  intros Hn. rewrite eqb_neq_false by tauto.
  f_equal. apply IH. tauto.
Qed.

Lemma dict_set_keys_incl (d : dict K V) (k k2 : K) (v : V) :
  In k2 (dict_keys d) -> In k2 (dict_keys (dict_set eqb d k v)).
Proof.
  induction d as [|[k' v'] d IH]; simpl; [tauto|].
  destruct (eqb k' k); simpl; tauto.
Qed.

Lemma dict_set_wf (d : dict K V) (k : K) (v : V) :
  dict_wf d -> dict_wf (dict_set eqb d k v).
Proof.
  unfold dict_wf. intros Hwf.
  assert (Hdec : In k (dict_keys d) \/ ~ In k (dict_keys d)).
  { destruct (dict_lookup eqb d k) eqn:E.
    - left. eapply dict_lookup_some_in; eauto.
    - right. intros Hin. apply dict_lookup_in in Hin.
      destruct Hin as [x Hx]. congruence. }
  destruct Hdec as [Hin|Hn].
  - change (NoDup (dict_keys (dict_set eqb d k v))).
    now rewrite dict_set_keys_present.
  - rewrite dict_set_keys_absent by assumption.
    rewrite map_app; simpl.
    apply NoDup_app; [assumption|repeat constructor; simpl; tauto|].
    intros x Hx [<-|[]]. contradiction.
Qed.
End DictFacts.

Lemma string_eqb_spec (a b : string) : String.eqb a b = true <-> a = b.
Proof. apply String.eqb_eq. Qed.

Lemma z_eqb_spec (a b : Z) : Z.eqb a b = true <-> a = b.
Proof. apply Z.eqb_eq. Qed.

(** ** The run of the loop in the store *)

Lemma list_set_middle {A} (l : list A) (x y : A) (t : list A) :
  list_set (List.length l) x (l ++ y :: t) = l ++ x :: t.
Proof. induction l as [|a l IH]; simpl; [reflexivity|now rewrite IH]. Qed.

Section EngineRun.
Context {RM : RandomModule} {FS : FrameSort}.

Lemma get_pos_lookup (caps : dict string Z) (spec : string) :
  0 < dict_get String.eqb caps spec 0 ->
  exists n, dict_lookup String.eqb caps spec = Some n /\ 0 < n.
Proof.
  unfold dict_get. destruct (dict_lookup String.eqb caps spec); [eauto|lia].
Qed.

Lemma caps_decr_run (h : list (dict string Z)) (live : dict string Z)
    (t : list (dict string Z)) a g (spec : string) (n : Z) :
  dict_lookup String.eqb live spec = Some n ->
  caps_decr (List.length h) spec (mkStore (h ++ live :: t) a g)
  = (inr tt, mkStore (h ++ decrement live spec :: t) a g).
Proof.
  intros Hl. unfold caps_decr, bind, caps_read, caps_write, decrement; simpl.
  rewrite nth_middle, Hl. simpl. now rewrite list_set_middle.
Qed.

Lemma try_preferences_run (ps : list string) (h : list (dict string Z))
    (live : dict string Z) (t : list (dict string Z)) a g :
  try_preferences (List.length h) ps (mkStore (h ++ live :: t) a g)
  = (inr (first_fit live ps), mkStore (h ++ after_fit live ps :: t) a g).
Proof.
  unfold after_fit.
  induction ps as [|spec rest IH]; simpl; [reflexivity|].
  unfold bind at 1, caps_get, bind at 1, caps_read, ret; simpl.
  rewrite nth_middle.
  destruct (0 <? dict_get String.eqb live spec 0) eqn:E.
  - apply Z.ltb_lt in E. destruct (get_pos_lookup _ _ E) as (n & Hn & _).
    unfold bind. now rewrite (caps_decr_run h live t a g spec Hn).
  - exact IH.
Qed.

Lemma available_specs_in (items : dict string Z) (ps : list string) (c : string) :
  In c (available_specs items ps) <->
  exists n, In (c, n) items /\ 0 < n /\ ~ In c ps.
Proof.
  unfold available_specs. rewrite in_map_iff. split.
  - intros ([k n] & <- & Hin). apply filter_In in Hin. destruct Hin as [Hin Hb].
    simpl in *. apply andb_true_iff in Hb. destruct Hb as [Hp Hn].
    exists n. repeat split; [assumption|now apply Z.ltb_lt|].
    intros Hc. apply negb_true_iff in Hn.
    assert (existsb (String.eqb k) ps = true); [|congruence].
    apply existsb_exists. exists k. split; [assumption|apply String.eqb_refl].
  - intros (n & Hin & Hp & Hn). exists (c, n). split; [reflexivity|].
    apply filter_In. split; [assumption|]. simpl.
    apply andb_true_iff. split; [now apply Z.ltb_lt|].
    apply negb_true_iff. destruct (existsb (String.eqb c) ps) eqn:E; [|reflexivity].
    apply existsb_exists in E. destruct E as (x & Hx & Hxe).
    apply String.eqb_eq in Hxe. subst x. contradiction.
Qed.

Lemma available_specs_keys (items : dict string Z) (ps : list string) (c : string) :
  In c (available_specs items ps) -> In c (dict_keys items).
Proof.
  intros H. apply available_specs_in in H. destruct H as (n & Hin & _).
  unfold dict_keys. apply in_map_iff. now exists (c, n).
Qed.

Lemma random_choice_run (seq : list string) h a g :
  random_choice seq (mkStore h a g)
  = (inr (nth (fst (randbelow (List.length seq) g)) seq ""),
     mkStore h a (snd (randbelow (List.length seq) g))).
Proof.
  unfold random_choice. cbn [random_state caps_heap asg_heap].
  now destruct (randbelow (List.length seq) g).
Qed.

Lemma fallback_run (ps : list string) (h : list (dict string Z))
    (live : dict string Z) (t : list (dict string Z)) a g :
  first_fit live ps = None ->
  fallback (List.length h) ps (mkStore (h ++ live :: t) a g)
  = (inr (fst (fst (step true live g ps))),
     mkStore (h ++ snd (fst (step true live g ps)) :: t) a (snd (step true live g ps))).
Proof.
  intros Hf. unfold step. rewrite Hf.
  unfold fallback, bind at 1, caps_read. cbn [caps_heap]. rewrite nth_middle.
  destruct (available_specs live ps) as [|c0 av] eqn:Eav; [reflexivity|].
  remember (c0 :: av) as avail eqn:Hav.
  assert (Hlen : (0 < List.length avail)%nat) by (subst avail; simpl; lia).
  assert (Hin : In (nth (fst (randbelow (List.length avail) g)) avail "")
                  (dict_keys live)).
  { apply available_specs_keys with (ps := ps). rewrite Eav.
    apply nth_In. now apply randbelow_lt. }
  destruct (dict_lookup_in String.eqb string_eqb_spec live _ Hin) as [n Hn].
  rewrite Hav at 1. cbv iota. rewrite <- Hav.
  unfold bind at 1. rewrite random_choice_run.
  unfold bind. rewrite (caps_decr_run h live t a _ _ Hn).
  subst avail. reflexivity.
Qed.

Lemma process_student_run (df : DataFrame) (pc : list string) (fb : bool)
    (row : Row) h live t ha lasg ta g :
  process_student df pc (List.length h) (List.length ha) fb row
    (mkStore (h ++ live :: t) (ha ++ lasg :: ta) g)
  = (inr (mkSnapshot (row_id row) (row_gpa row) (row_prefs df pc row)
            (fst (fst (step fb live g (row_prefs df pc row))))
            (List.length h + S (List.length t))%nat
            (List.length ha + S (List.length ta))%nat),
     mkStore
       (h ++ snd (fst (step fb live g (row_prefs df pc row)))
          :: t ++ [snd (fst (step fb live g (row_prefs df pc row)))])
       (ha ++ dict_set Z.eqb lasg (row_id row)
                (fst (fst (step fb live g (row_prefs df pc row))))
           :: ta ++ [dict_set Z.eqb lasg (row_id row)
                       (fst (fst (step fb live g (row_prefs df pc row))))])
       (snd (step fb live g (row_prefs df pc row)))).
Proof.
  unfold process_student.
  set (ps := row_prefs df pc row).
  unfold bind at 1. rewrite try_preferences_run. unfold after_fit.
  assert (Hstep :
    forall c' caps' g',
      (fst (fst (step fb live g ps)), snd (fst (step fb live g ps)),
       snd (step fb live g ps)) = (c', caps', g') ->
      (asg_setitem (List.length ha) (row_id row) c' ;;
       rem <- caps_copy (List.length h) ;;
       asg <- asg_copy (List.length ha) ;;
       ret (mkSnapshot (row_id row) (row_gpa row) ps c' rem asg))
        (mkStore (h ++ caps' :: t) (ha ++ lasg :: ta) g')
      = (inr (mkSnapshot (row_id row) (row_gpa row) ps c'
                (List.length h + S (List.length t))%nat
                (List.length ha + S (List.length ta))%nat),
         mkStore (h ++ caps' :: t ++ [caps'])
           (ha ++ dict_set Z.eqb lasg (row_id row) c'
               :: ta ++ [dict_set Z.eqb lasg (row_id row) c']) g')).
  { intros c' caps' g' _.
    unfold bind, asg_setitem, bind, asg_read, asg_write, caps_copy, bind,
      caps_read, caps_alloc, asg_copy, bind, asg_read, asg_alloc, ret.
    cbn [caps_heap asg_heap random_state].
    rewrite !nth_middle, list_set_middle, !nth_middle.
    rewrite !length_app. cbn [List.length].
    rewrite <- !app_assoc. cbn [app].
    reflexivity. }
  destruct (first_fit live ps) as [c|] eqn:Ef.
  - unfold bind at 1, ret at 1.
    rewrite (Hstep (Some c) (decrement live c) g).
    + unfold step. rewrite Ef. reflexivity.
    + unfold step. rewrite Ef. reflexivity.
  - destruct fb.
    + unfold bind at 1. rewrite (fallback_run ps h live t _ g Ef).
      now apply Hstep.
    + unfold bind at 1, ret at 1.
      rewrite (Hstep None live g).
      * unfold step. rewrite Ef. reflexivity.
      * unfold step. rewrite Ef. reflexivity.
Qed.

Lemma last_cons {A} (x d : A) (l : list A) : last (x :: l) d = last l x.
Proof.
  revert x d. induction l as [|y l IH]; intros x d; [reflexivity|].
  change (last (x :: y :: l) d) with (last (y :: l) d).
  now rewrite !IH.
Qed.

Lemma loop_run (df : DataFrame) (mp : Z) (fb : bool) (l : list Row) :
  forall h live t ha lasg ta g,
    for_each l
      (process_student df (pref_columns df mp) (List.length h) (List.length ha) fb)
      (mkStore (h ++ live :: t) (ha ++ lasg :: ta) g)
    = (inr (snapshots_at (List.length h + S (List.length t))%nat
              (List.length ha + S (List.length ta))%nat
              (fst (run_pure fb (students_of df mp l) live lasg g))),
       mkStore
         (h ++ last (map v_remaining
                       (fst (run_pure fb (students_of df mp l) live lasg g))) live
            :: t ++ map v_remaining
                      (fst (run_pure fb (students_of df mp l) live lasg g)))
         (ha ++ last (map v_assignments
                        (fst (run_pure fb (students_of df mp l) live lasg g))) lasg
             :: ta ++ map v_assignments
                        (fst (run_pure fb (students_of df mp l) live lasg g)))
         (snd (run_pure fb (students_of df mp l) live lasg g))).
Proof.
  induction l as [|row l IH]; intros h live t ha lasg ta g.
  - simpl. unfold ret. now rewrite !app_nil_r.
  - cbn [for_each]. unfold bind at 1. rewrite process_student_run.
    unfold bind at 1. rewrite IH.
    unfold ret. cbn [students_of map run_pure fst snd snapshots_at
                       v_remaining v_assignments].
    fold (students_of df mp l).
    rewrite !last_cons, !length_app. cbn [List.length].
    rewrite <- !app_assoc. cbn [app].
    replace (List.length h + S (List.length t + 1))%nat
      with (S (List.length h + S (List.length t))) by lia.
    replace (List.length ha + S (List.length ta + 1))%nat
      with (S (List.length ha + S (List.length ta))) by lia.
    reflexivity.
Qed.

Lemma allocation_steps_run (df : DataFrame) (cd : ref) (mp : Z) (fb : bool)
    (seed : option Z) (s : store) :
  has_column df "id" = true -> has_column df "gpa" = true ->
  allocation_steps df cd mp fb seed s
  = (inr (snapshots_at (S (List.length (caps_heap s)))
            (S (List.length (asg_heap s))) (trace df cd mp fb seed s)),
     mkStore
       (caps_heap s
          ++ last (map v_remaining (trace df cd mp fb seed s))
               (nth cd (caps_heap s) [])
          :: map v_remaining (trace df cd mp fb seed s))
       (asg_heap s
          ++ last (map v_assignments (trace df cd mp fb seed s)) []
          :: map v_assignments (trace df cd mp fb seed s))
       (snd (run_pure fb (students_of df mp (sort_values_desc (rows df)))
               (nth cd (caps_heap s) []) [] (seeded seed s)))).
Proof.
  intros Hid Hgpa. unfold allocation_steps, trace.
  rewrite Hid, Hgpa. cbn [negb orb].
  assert (Hseed :
    (match seed with Some n => random_seed n | None => ret tt end) s
    = (inr tt, mkStore (caps_heap s) (asg_heap s) (seeded seed s))).
  { destruct seed, s; reflexivity. }
  unfold bind at 1. rewrite Hseed.
  unfold bind at 1, caps_copy, bind at 1, caps_read, caps_alloc.
  cbn [caps_heap asg_heap random_state].
  unfold bind at 1, asg_alloc. cbn [caps_heap asg_heap random_state].
  pose proof (loop_run df mp fb (sort_values_desc (rows df))
                (caps_heap s) (nth cd (caps_heap s) []) []
                (asg_heap s) [] [] (seeded seed s)) as Hl.
  cbn [app List.length] in Hl. rewrite !Nat.add_1_r in Hl.
  exact Hl.
Qed.

Lemma allocation_steps_invalid (df : DataFrame) (cd : ref) (mp : Z) (fb : bool)
    (seed : option Z) (s : store) :
  has_column df "id" = false \/ has_column df "gpa" = false ->
  allocation_steps df cd mp fb seed s
  = (inl ValueError, mkStore (caps_heap s) (asg_heap s) (seeded seed s)).
Proof.
  intros H. unfold allocation_steps.
  assert (Hb : negb (has_column df "id") || negb (has_column df "gpa") = true).
  { destruct H as [-> | ->]; [reflexivity|apply orb_true_r]. }
  rewrite Hb. destruct seed, s; reflexivity.
Qed.
End EngineRun.

(** ** One step of the loop *)

Section StepFacts.
Context {RM : RandomModule}.

Lemma first_fit_none (caps : dict string Z) (ps : list string) :
  first_fit caps ps = None <->
  (forall x, In x ps -> dict_get String.eqb caps x 0 <= 0).
Proof.
  induction ps as [|p ps IH]; simpl.
  - split; [intros _ x []|reflexivity].
  - destruct (0 <? dict_get String.eqb caps p 0) eqn:E.
    + apply Z.ltb_lt in E. split; [discriminate|].
      intros H. specialize (H p (or_introl eq_refl)). lia.
    + apply Z.ltb_ge in E. rewrite IH. split.
      * intros H x [<-|Hx]; auto.
      * intros H x Hx. apply H. now right.
Qed.

Lemma first_fit_first (caps : dict string Z) (front back : list string) (c : string) :
  (forall x, In x front -> dict_get String.eqb caps x 0 <= 0) ->
  0 < dict_get String.eqb caps c 0 ->
  first_fit caps (front ++ c :: back) = Some c.
Proof.
  intros Hfront Hc. induction front as [|p front IH]; simpl.
  - apply Z.ltb_lt in Hc. now rewrite Hc.
  - assert (Hp : dict_get String.eqb caps p 0 <= 0) by (apply Hfront; now left).
    apply Z.ltb_ge in Hp. rewrite Hp. apply IH.
    intros x Hx. apply Hfront. now right.
Qed.

Lemma first_fit_some (caps : dict string Z) (ps : list string) (c : string) :
  first_fit caps ps = Some c ->
  exists front back,
    ps = front ++ c :: back /\
    (forall x, In x front -> dict_get String.eqb caps x 0 <= 0) /\
    0 < dict_get String.eqb caps c 0.
Proof.
  induction ps as [|p ps IH]; simpl; [discriminate|].
  destruct (0 <? dict_get String.eqb caps p 0) eqn:E.
  - intros [= <-]. exists [], ps. repeat split.
    + intros x [].
    + now apply Z.ltb_lt.
  - intros H. destruct (IH H) as (front & back & -> & Hf & Hc).
    exists (p :: front), back. repeat split; [|assumption].
    intros x [<-|Hx]; [now apply Z.ltb_ge|auto].
Qed.

Lemma decrement_keys (caps : dict string Z) (c : string) :
  dict_keys (decrement caps c) = dict_keys caps.
Proof.
  unfold decrement. destruct (dict_lookup String.eqb caps c) eqn:E; [|reflexivity].
  apply dict_set_keys_present; [apply string_eqb_spec|].
  eapply dict_lookup_some_in; [apply string_eqb_spec|exact E].
Qed.

Lemma decrement_lookup_same (caps : dict string Z) (c : string) (n : Z) :
  dict_lookup String.eqb caps c = Some n ->
  dict_lookup String.eqb (decrement caps c) c = Some (n - 1).
Proof.
  intros H. unfold decrement. rewrite H.
  apply dict_set_lookup_same, string_eqb_spec.
Qed.

Lemma decrement_lookup_other (caps : dict string Z) (c x : string) :
  x <> c ->
  dict_lookup String.eqb (decrement caps c) x = dict_lookup String.eqb caps x.
Proof.
  intros H. unfold decrement.
  destruct (dict_lookup String.eqb caps c); [|reflexivity].
  apply dict_set_lookup_other; [apply string_eqb_spec|congruence].
Qed.

Lemma decrement_get (caps : dict string Z) (c x : string) :
  In c (dict_keys caps) ->
  dict_get String.eqb (decrement caps c) x 0
  = dict_get String.eqb caps x 0 - (if String.eqb c x then 1 else 0).
Proof.
  intros Hin. unfold dict_get.
  destruct (String.eqb c x) eqn:E.
  - apply String.eqb_eq in E. subst x.
    destruct (dict_lookup_in String.eqb string_eqb_spec caps c Hin) as [n Hn].
    now rewrite (decrement_lookup_same _ _ Hn), Hn.
  - apply String.eqb_neq in E.
    rewrite decrement_lookup_other by congruence.
    destruct (dict_lookup String.eqb caps x); lia.
Qed.

Lemma step_primary (fb : bool) (caps : dict string Z) (g : rng)
    (front back : list string) (c : string) :
  (forall x, In x front -> dict_get String.eqb caps x 0 <= 0) ->
  0 < dict_get String.eqb caps c 0 ->
  step fb caps g (front ++ c :: back) = (Some c, decrement caps c, g).
Proof.
  intros Hf Hc. unfold step. now rewrite (first_fit_first caps front back c Hf Hc).
Qed.

Lemma step_fallback (caps : dict string Z) (g : rng) (ps : list string) :
  (forall x, In x ps -> dict_get String.eqb caps x 0 <= 0) ->
  available_specs caps ps <> [] ->
  step true caps g ps
  = (Some (nth (fst (randbelow (List.length (available_specs caps ps)) g))
             (available_specs caps ps) ""),
     decrement caps
       (nth (fst (randbelow (List.length (available_specs caps ps)) g))
          (available_specs caps ps) ""),
     snd (randbelow (List.length (available_specs caps ps)) g)).
Proof.
  intros Hps Hav. unfold step.
  rewrite (proj2 (first_fit_none caps ps) Hps).
  destruct (available_specs caps ps); [contradiction|reflexivity].
Qed.

Lemma step_unassigned (fb : bool) (caps : dict string Z) (g : rng) (ps : list string) :
  (forall x, In x ps -> dict_get String.eqb caps x 0 <= 0) ->
  fb = false \/ available_specs caps ps = [] ->
  step fb caps g ps = (None, caps, g).
Proof.
  intros Hps H. unfold step.
  rewrite (proj2 (first_fit_none caps ps) Hps).
  destruct H as [->| ->]; [reflexivity|now destruct fb].
Qed.

(** What a step does, by cases on its outcome. *)
Lemma step_some (fb : bool) (caps : dict string Z) (g : rng) (ps : list string)
    (c : string) :
  fst (fst (step fb caps g ps)) = Some c ->
  In c (dict_keys caps) /\ snd (fst (step fb caps g ps)) = decrement caps c.
Proof.
  destruct (first_fit caps ps) as [c'|] eqn:Ef.
  - apply first_fit_some in Ef. destruct Ef as (front & back & -> & Hf & Hc).
    rewrite (@step_primary fb caps g front back c' Hf Hc). cbn [fst snd].
    intros [= ->]. split; [|reflexivity].
    unfold dict_get in Hc.
    destruct (dict_lookup String.eqb caps c) eqn:El; [|lia].
    eapply dict_lookup_some_in; [apply string_eqb_spec|exact El].
  - pose proof (proj1 (first_fit_none caps ps) Ef) as Hps.
    assert (Hd : available_specs caps ps = [] \/ available_specs caps ps <> []).
    { destruct (available_specs caps ps); [left|right]; congruence. }
    destruct fb;
      [|rewrite (@step_unassigned false caps g ps Hps) by auto; discriminate].
    destruct Hd as [He|Hne];
      [rewrite (@step_unassigned true caps g ps Hps) by auto; discriminate|].
    rewrite (@step_fallback caps g ps Hps Hne). cbn [fst snd].
    intros [= <-]. split; [|reflexivity].
    apply available_specs_keys with (ps := ps).
    apply nth_In, randbelow_lt.
    destruct (available_specs caps ps); [contradiction|simpl; lia].
Qed.

Lemma step_none (fb : bool) (caps : dict string Z) (g : rng) (ps : list string) :
  fst (fst (step fb caps g ps)) = None ->
  snd (fst (step fb caps g ps)) = caps /\ snd (step fb caps g ps) = g.
Proof.
  unfold step. destruct (first_fit caps ps) as [c'|]; [discriminate|].
  destruct fb; [|auto].
  destruct (available_specs caps ps); [auto|discriminate].
Qed.

Lemma available_specs_nodup (caps : dict string Z) (ps : list string) :
  dict_wf caps -> NoDup (available_specs caps ps).
Proof.
  unfold dict_wf, available_specs.
  induction caps as [|[k n] caps IH]; simpl; intros Hwf; [constructor|].
  inversion Hwf as [|? ? Hnin Hnd]; subst.
  destruct ((0 <? n) && negb (existsb (String.eqb k) ps)); simpl; [|auto].
  constructor; [|auto].
  intros Hin. apply Hnin. apply in_map_iff in Hin.
  destruct Hin as (x & Hx & Hin). apply filter_In in Hin.
  apply in_map_iff. exists x. tauto.
Qed.
End StepFacts.

(** ** The sequence of steps *)

Section RunFacts.
Context {RM : RandomModule}.

Lemma run_pure_students (fb : bool) (students : list student) :
  forall caps asg g,
    map (fun v => (v_student_id v, v_gpa v, v_prefs v))
      (fst (run_pure fb students caps asg g)) = students.
Proof.
  induction students as [|[[sid gp] ps] rest IH]; intros caps asg g; simpl.
  - reflexivity.
  - now rewrite IH.
Qed.

Lemma run_pure_length (fb : bool) (students : list student) caps asg g :
  List.length (fst (run_pure fb students caps asg g)) = List.length students.
Proof.
  rewrite <- (run_pure_students fb students caps asg g) at 2.
  now rewrite length_map.
Qed.

(** The snapshots after position [i] are a run of the remaining students
    from the state snapshot [i] records. *)
Lemma run_pure_suffix (fb : bool) (students : list student) :
  forall caps asg g i v,
    nth_error (fst (run_pure fb students caps asg g)) i = Some v ->
    exists gi,
      skipn (S i) (fst (run_pure fb students caps asg g))
      = fst (run_pure fb (skipn (S i) students)
               (v_remaining v) (v_assignments v) gi).
Proof.
  induction students as [|[[sid gp] ps] rest IH]; intros caps asg g i v.
  - destruct i; discriminate.
  - destruct i as [|i]; cbn [run_pure fst nth_error].
    + intros [= <-]. cbn [skipn v_remaining v_assignments]. eauto.
    + intros H. destruct (IH _ _ _ _ _ H) as [gi Hgi].
      exists gi. exact Hgi.
Qed.

(** The first step of a run. *)
Lemma run_pure_head (fb : bool) (students : list student) caps asg g v :
  nth_error (fst (run_pure fb students caps asg g)) 0 = Some v ->
  fst (step fb caps g (v_prefs v)) = (v_chosen v, v_remaining v) /\
  v_assignments v = dict_set Z.eqb asg (v_student_id v) (v_chosen v) /\
  nth_error students 0 = Some (v_student_id v, v_gpa v, v_prefs v).
Proof.
  destruct students as [|[[sid gp] ps] rest]; [discriminate|].
  cbn [run_pure fst nth_error]. intros [= <-].
  cbn [v_prefs v_chosen v_remaining v_assignments v_student_id v_gpa].
  repeat split. now destruct (step fb caps g ps) as [[? ?] ?].
Qed.

(** Step [k] of a run starts from what snapshot [k - 1] records. *)
Lemma run_pure_nth (fb : bool) (students : list student) caps asg g k v :
  nth_error (fst (run_pure fb students caps asg g)) k = Some v ->
  exists gk,
    fst (step fb (capacity_before caps (fst (run_pure fb students caps asg g)) k)
           gk (v_prefs v))
    = (v_chosen v, v_remaining v) /\
    v_assignments v
    = dict_set Z.eqb
        (assignments_before asg (fst (run_pure fb students caps asg g)) k)
        (v_student_id v) (v_chosen v) /\
    nth_error students k = Some (v_student_id v, v_gpa v, v_prefs v).
Proof.
  intros H. destruct k as [|k].
  - exists g. cbn [capacity_before assignments_before].
    now apply run_pure_head.
  - assert (Hk : exists u, nth_error (fst (run_pure fb students caps asg g)) k = Some u).
    { destruct (nth_error (fst (run_pure fb students caps asg g)) k) eqn:E; [eauto|].
      apply nth_error_None in E.
      assert (Hs : nth_error (fst (run_pure fb students caps asg g)) (S k) <> None)
        by congruence.
      apply nth_error_Some in Hs. lia. }
    destruct Hk as [u Hu].
    destruct (run_pure_suffix _ _ _ _ _ _ Hu) as [gk Hgk].
    exists gk. cbn [capacity_before assignments_before]. rewrite Hu.
    assert (H0 : nth_error (skipn (S k) (fst (run_pure fb students caps asg g))) 0
                 = Some v).
    { rewrite nth_error_skipn. now rewrite Nat.add_0_r. }
    rewrite Hgk in H0. apply run_pure_head in H0.
    destruct H0 as (H1 & H2 & H3). repeat split; try assumption.
    rewrite nth_error_skipn in H3. now rewrite Nat.add_0_r in H3.
Qed.
End RunFacts.

(** ** Invariants of a run *)

Section Invariants.
Context {RM : RandomModule}.

Lemma count_assigned_app (a b : dict Z (option string)) (c : string) :
  count_assigned (a ++ b) c = (count_assigned a c + count_assigned b c)%nat.
Proof. unfold count_assigned. now rewrite filter_app, length_app. Qed.

Lemma count_assigned_cons (kv : Z * option string) (a : dict Z (option string))
    (c : string) :
  count_assigned (kv :: a) c = (count_assigned [kv] c + count_assigned a c)%nat.
Proof. apply (count_assigned_app [kv] a). Qed.

(** One step moves one seat: the capacity of the chosen category drops by
    one, nothing else changes. *)
Lemma step_conservation (fb : bool) (caps : dict string Z) (g : rng)
    (ps : list string) (sid : Z) (c : string) :
  dict_get String.eqb caps c 0
  - dict_get String.eqb (snd (fst (step fb caps g ps))) c 0
  = Z.of_nat (count_assigned [(sid, fst (fst (step fb caps g ps)))] c).
Proof.
  destruct (fst (fst (step fb caps g ps))) as [c'|] eqn:E.
  - destruct (step_some _ _ _ _ E) as [Hin ->].
    rewrite (@decrement_get caps c' c Hin).
    unfold count_assigned; simpl. destruct (String.eqb c' c); simpl; lia.
  - destruct (step_none _ _ _ _ E) as [-> _].
    unfold count_assigned; simpl. lia.
Qed.

Lemma run_conservation (fb : bool) (students : list student) :
  forall caps asg g k v,
    nth_error (fst (run_pure fb students caps asg g)) k = Some v ->
    forall c,
      dict_get String.eqb caps c 0 - dict_get String.eqb (v_remaining v) c 0
      = Z.of_nat (count_assigned
                    (entries (firstn (S k) (fst (run_pure fb students caps asg g)))) c).
Proof.
  induction students as [|[[sid gp] ps] rest IH]; intros caps asg g k v.
  - destruct k; discriminate.
  - cbn [run_pure fst]. destruct k as [|k]; cbn [nth_error].
    + intros [= <-] c. cbn [firstn entries map v_remaining v_student_id v_chosen].
      apply step_conservation.
    + intros H c. specialize (IH _ _ _ _ _ H c). unfold entries in *.
      change (firstn (S (S k)) (?x :: ?l)) with (x :: firstn (S k) l).
      cbn [map v_student_id v_chosen].
      rewrite count_assigned_cons, Nat2Z.inj_add, <- IH.
      rewrite <- (step_conservation fb caps g ps sid c). lia.
Qed.

Lemma run_assignments (fb : bool) (students : list student) :
  forall caps asg g,
    NoDup (student_ids students) ->
    (forall x, In x (student_ids students) -> ~ In x (dict_keys asg)) ->
    forall k v,
      nth_error (fst (run_pure fb students caps asg g)) k = Some v ->
      v_assignments v
      = asg ++ entries (firstn (S k) (fst (run_pure fb students caps asg g))).
Proof.
  induction students as [|[[sid gp] ps] rest IH]; intros caps asg g Hnd Hfresh k v.
  - destruct k; discriminate.
  - cbn [run_pure fst].
    assert (Hset : dict_set Z.eqb asg sid (fst (fst (step fb caps g ps)))
                   = asg ++ [(sid, fst (fst (step fb caps g ps)))]).
    { apply dict_set_keys_absent; [apply z_eqb_spec|].
      apply Hfresh. now left. }
    destruct k as [|k]; cbn [nth_error].
    + intros [= <-]. cbn [firstn entries map v_assignments v_student_id v_chosen].
      exact Hset.
    + intros H.
      change (firstn (S (S k)) (?x :: ?l)) with (x :: firstn (S k) l).
      inversion Hnd as [|? ? Hnin Hnd']; subst.
      assert (Hfresh' :
        forall x, In x (student_ids rest) ->
          ~ In x (dict_keys (dict_set Z.eqb asg sid (fst (fst (step fb caps g ps)))))).
      { intros x Hx. rewrite Hset. unfold dict_keys. rewrite map_app.
        intros Hin. apply in_app_or in Hin. destruct Hin as [Hin|[<-|[]]].
        - apply (Hfresh x); [now right|exact Hin].
        - contradiction. }
      rewrite (IH _ _ _ Hnd' Hfresh' k v H).
      rewrite Hset, <- app_assoc. reflexivity.
Qed.

Lemma run_keys_incl (fb : bool) (students : list student) :
  forall caps asg g k v,
    nth_error (fst (run_pure fb students caps asg g)) k = Some v ->
    incl (dict_keys asg) (dict_keys (v_assignments v)).
Proof.
  induction students as [|[[sid gp] ps] rest IH]; intros caps asg g k v.
  - destruct k; discriminate.
  - cbn [run_pure fst]. destruct k as [|k]; cbn [nth_error].
    + intros [= <-] x Hx. cbn [v_assignments].
      now apply dict_set_keys_incl.
    + intros H x Hx. apply (IH _ _ _ _ _ H).
      now apply dict_set_keys_incl.
Qed.
End Invariants.

(** ** What the caller reads from the snapshots *)

Section ViewFacts.
Context {RM : RandomModule} {FS : FrameSort}.

Lemma views_at (vs : list SnapshotView) :
  forall hc ha g,
    map (view (mkStore (hc ++ map v_remaining vs) (ha ++ map v_assignments vs) g))
      (snapshots_at (List.length hc) (List.length ha) vs) = vs.
Proof.
  induction vs as [|v vs IH]; intros hc ha g; [reflexivity|].
  cbn [snapshots_at map]. f_equal.
  - unfold view. cbn [student_id gpa prefs chosen remaining assignments
                        caps_heap asg_heap].
    rewrite !nth_middle. now destruct v.
  - specialize (IH (hc ++ [v_remaining v]) (ha ++ [v_assignments v]) g).
    rewrite <- !app_assoc, !length_app in IH. cbn [app List.length] in IH.
    rewrite !Nat.add_1_r in IH. exact IH.
Qed.

(** A call either raises [ValueError], when a required column is missing,
    or returns snapshots that read as the functional trace. *)
Lemma observe_run (df : DataFrame) (cd : ref) (mp : Z) (fb : bool)
    (seed : option Z) (s : store) :
  observe (allocation_steps df cd mp fb seed s)
  = if has_column df "id" && has_column df "gpa"
    then inr (trace df cd mp fb seed s)
    else inl ValueError.
Proof.
  destruct (has_column df "id") eqn:Hid; [destruct (has_column df "gpa") eqn:Hg|].
  - rewrite (allocation_steps_run df cd mp fb seed s Hid Hg).
    unfold observe. cbn [fst snd andb]. f_equal.
    set (vs := trace df cd mp fb seed s).
    pose proof (views_at vs
                  (caps_heap s ++ [last (map v_remaining vs) (nth cd (caps_heap s) [])])
                  (asg_heap s ++ [last (map v_assignments vs) []])) as Hv.
    rewrite !length_app in Hv. cbn [List.length] in Hv.
    rewrite !Nat.add_1_r, <- !app_assoc in Hv. cbn [app] in Hv.
    apply Hv.
  - rewrite allocation_steps_invalid by auto. reflexivity.
  - rewrite allocation_steps_invalid by auto. reflexivity.
Qed.

Lemma returned_views (df : DataFrame) (cd : ref) (mp : Z) (fb : bool)
    (seed : option Z) (s s' : store) (snaps : list Snapshot) :
  allocation_steps df cd mp fb seed s = (inr snaps, s') ->
  has_column df "id" = true /\ has_column df "gpa" = true /\
  map (view s') snaps = trace df cd mp fb seed s.
Proof.
  intros H. pose proof (observe_run df cd mp fb seed s) as Ho.
  rewrite H in Ho. unfold observe in Ho. cbn [fst snd] in Ho.
  destruct (has_column df "id"), (has_column df "gpa");
    cbn [andb] in Ho; try discriminate.
  injection Ho as Ho. auto.
Qed.

Lemma valid_returns (df : DataFrame) (cd : ref) (mp : Z) (fb : bool)
    (seed : option Z) (s : store) :
  has_column df "id" = true -> has_column df "gpa" = true ->
  exists snaps s', allocation_steps df cd mp fb seed s = (inr snaps, s').
Proof.
  intros Hid Hg. rewrite (allocation_steps_run df cd mp fb seed s Hid Hg). eauto.
Qed.

Lemma trace_students (df : DataFrame) (cd : ref) (mp : Z) (fb : bool)
    (seed : option Z) (s : store) :
  map (fun v => (v_student_id v, v_gpa v, v_prefs v)) (trace df cd mp fb seed s)
  = students_of df mp (sort_values_desc (rows df)).
Proof. apply run_pure_students. Qed.

Lemma students_of_ids (df : DataFrame) (mp : Z) (l : list Row) :
  student_ids (students_of df mp l) = map row_id l.
Proof.
  unfold student_ids, students_of. rewrite map_map. reflexivity.
Qed.
End ViewFacts.

(** ** Tables as pandas hands them to the loop *)

Lemma float64_of_int_exact (n : Z) :
  Z.abs n <= 2 ^ 53 -> float64_of_int n = n.
Proof.
  intros H. unfold float64_of_int. cbv zeta.
  destruct (Z.eq_dec (Z.abs n) (2 ^ 53)) as [E|E].
  - destruct (Z.abs_eq_or_opp n) as [Hn|Hn]; rewrite Hn in E.
    + rewrite E. vm_compute. reflexivity.
    + assert (En : n = - 2 ^ 53) by lia. rewrite En. vm_compute. reflexivity.
  - assert (Hlt : Z.abs n < 2 ^ 53) by lia.
    assert (Hlog : Z.log2 (Z.abs n) < 53).
    { destruct (Z.eq_dec (Z.abs n) 0) as [E0|E0]; [rewrite E0; cbn; lia|].
      apply Z.log2_lt_pow2; lia. }
    destruct (Z.leb_spec (Z.log2 (Z.abs n) - 52) 0); [reflexivity|lia].
Qed.

Lemma iterrows_view_columns (float_rows : bool) (df : DataFrame) :
  columns (iterrows_view float_rows df) = columns df.
Proof. now destruct float_rows. Qed.

Lemma iterrows_view_exact (float_rows : bool) (df : DataFrame) :
  (float_rows = true -> ids_exact df) -> iterrows_view float_rows df = df.
Proof.
  intros H. destruct float_rows; [|reflexivity].
  specialize (H eq_refl). unfold iterrows_view. destruct df as [cols rws].
  cbn [columns rows] in *. f_equal.
  rewrite <- (map_id rws) at 2. apply map_ext_in.
  intros [i g cells] Hin. cbn [row_id row_gpa row_cells]. f_equal.
  apply float64_of_int_exact. exact (H _ Hin).
Qed.

Lemma iterrows_view_has_column (float_rows : bool) (df : DataFrame) (c : string) :
  has_column (iterrows_view float_rows df) c = has_column df c.
Proof. unfold has_column. now rewrite iterrows_view_columns. Qed.

Lemma iterrows_view_labels (float_rows : bool) (df : DataFrame) :
  labels_distinct df -> labels_distinct (iterrows_view float_rows df).
Proof. unfold labels_distinct. now rewrite iterrows_view_columns. Qed.

Lemma filter_absent (c : string) (l : list string) :
  ~ In c l -> filter (String.eqb c) l = [].
Proof.
  induction l as [|x l IH]; intros H; [reflexivity|]. cbn [filter].
  destruct (String.eqb_spec c x) as [->|_]; [exfalso; apply H; now left|].
  apply IH. intros Hin. apply H. now right.
Qed.

Lemma label_repeated_distinct (df : DataFrame) (c : string) :
  labels_distinct df -> label_repeated df c = false.
Proof.
  unfold labels_distinct, label_repeated. intros H.
  apply Nat.ltb_ge.
  induction H as [|x l Hx _ IH]; [cbn; lia|]. cbn [filter].
  destruct (String.eqb_spec c x) as [->|_]; [|exact IH].
  rewrite (@filter_absent _ _ Hx). cbn. lia.
Qed.

Section LabelFacts.
Context {RM : RandomModule} {FS : FrameSort}.

Lemma bind_returns {A B} (m : M A) (k k' : A -> M B) (s s' : store) (r : B) :
  (forall a s1, k a s1 = (inr r, s') -> k' a s1 = (inr r, s')) ->
  bind m k s = (inr r, s') -> bind m k' s = (inr r, s').
Proof.
  unfold bind. intros H. destruct (m s) as [[e|a] s1]; [discriminate|apply H].
Qed.

Lemma bind_ext {A B} (m : M A) (k k' : A -> M B) (s : store) :
  (forall a s1, k a s1 = k' a s1) -> bind m k s = bind m k' s.
Proof.
  unfold bind. intros H. destruct (m s) as [[e|a] s1]; [reflexivity|apply H].
Qed.

Lemma bind_then_raise {A B} (m : M A) (e : exn) (s : store) :
  exists e' s1, bind m (fun _ => raise (A := B) e) s = (inl e', s1).
Proof.
  unfold bind, raise. destruct (m s) as [[e'|a] s1]; eauto.
Qed.

Lemma for_each_ext {A B} (f g : A -> M B) (l : list A) :
  (forall x s, f x s = g x s) -> forall s, for_each l f s = for_each l g s.
Proof.
  intros H. induction l as [|x l IH]; intros s; [reflexivity|].
  cbn [for_each]. unfold bind. rewrite H.
  destruct (g x s) as [[e|b] s1]; [reflexivity|]. rewrite IH. reflexivity.
Qed.

(** Without a repeated label among those the loop reads, the body of the
    loop is [process_student]. *)
Lemma process_student_labels_plain (df : DataFrame) (pref_cols : list string)
    (caps asg : ref) (fb : bool) (row : Row) (s : store) :
  existsb (label_repeated df) pref_cols = false ->
  label_repeated df "id" = false ->
  process_student_labels df pref_cols caps asg fb row s
  = process_student df pref_cols caps asg fb row s.
Proof.
  intros H1 H2. unfold process_student_labels. now rewrite H1, H2.
Qed.

(** With one, the body raises. *)
Lemma process_student_labels_raises (df : DataFrame) (pref_cols : list string)
    (caps asg : ref) (fb : bool) (row : Row) (s : store) :
  existsb (label_repeated df) pref_cols = true \/ label_repeated df "id" = true ->
  exists e s1,
    process_student_labels df pref_cols caps asg fb row s = (inl e, s1) /\
    (existsb (label_repeated df) pref_cols = true -> e = ValueError /\ s1 = s).
Proof.
  intros H. unfold process_student_labels.
  destruct (existsb (label_repeated df) pref_cols) eqn:E1.
  - exists ValueError, s. split; [reflexivity|auto].
  - destruct H as [H|H]; [discriminate|]. rewrite H. cbv zeta.
    unfold bind at 1.
    destruct (try_preferences caps (row_prefs df pref_cols row) s)
      as [[e|first] s1].
    + exists e, s1. split; [reflexivity|discriminate].
    + match goal with
      | |- context [bind ?m _ s1] =>
          destruct (@bind_then_raise _ Snapshot m TypeError s1) as (e & s2 & Hb)
      end.
      exists e, s2. split; [exact Hb|discriminate].
Qed.

Lemma for_each_labels (df : DataFrame) (pref_cols : list string)
    (caps asg : ref) (fb : bool) (l : list Row) (s : store) :
  (exists e s1,
     for_each l (process_student_labels df pref_cols caps asg fb) s = (inl e, s1)) \/
  for_each l (process_student_labels df pref_cols caps asg fb) s
  = for_each l (process_student df pref_cols caps asg fb) s.
Proof.
  destruct (existsb (label_repeated df) pref_cols) eqn:E1;
    [|destruct (label_repeated df "id") eqn:E2].
  3: { right. apply for_each_ext. intros x s0.
       now apply process_student_labels_plain. }
  all: destruct l as [|r l]; [right; reflexivity|left].
  all: cbn [for_each]; unfold bind at 1.
  - destruct (@process_student_labels_raises df pref_cols caps asg fb r s
                (or_introl E1)) as (e & s1 & -> & _). eauto.
  - destruct (@process_student_labels_raises df pref_cols caps asg fb r s
                (or_intror E2)) as (e & s1 & -> & _). eauto.
Qed.

Lemma allocation_steps_labels_invalid (df : DataFrame) (cd : ref) (mp : Z)
    (fb : bool) (seed : option Z) (s : store) :
  has_column df "id" = false \/ has_column df "gpa" = false ->
  allocation_steps_labels df cd mp fb seed s
  = (inl ValueError, mkStore (caps_heap s) (asg_heap s) (seeded seed s)).
Proof.
  intros H. unfold allocation_steps_labels.
  assert (Hb : negb (has_column df "id") || negb (has_column df "gpa") = true).
  { destruct H as [-> | ->]; [reflexivity|apply orb_true_r]. }
  rewrite Hb. destruct seed, s; reflexivity.
Qed.

(** A call that returns on a table whose labels may repeat returns what
    [allocation_steps] returns. *)
Lemma allocation_steps_labels_returns (df : DataFrame) (cd : ref) (mp : Z)
    (fb : bool) (seed : option Z) (s s' : store) (snaps : list Snapshot) :
  allocation_steps_labels df cd mp fb seed s = (inr snaps, s') ->
  allocation_steps df cd mp fb seed s = (inr snaps, s').
Proof.
  unfold allocation_steps_labels, allocation_steps.
  apply bind_returns. intros _ s1.
  destruct (negb (has_column df "id") || negb (has_column df "gpa"));
    [discriminate|].
  destruct (label_repeated df "gpa"); [discriminate|]. cbv zeta.
  apply bind_returns. intros caps s2.
  apply bind_returns. intros asg s3 H.
  destruct (for_each_labels df (pref_columns df mp) caps asg fb
              (sort_values_desc (rows df)) s3) as [(e & s4 & He)|He];
    rewrite He in H; [discriminate|exact H].
Qed.

(** On a table with pairwise distinct labels the two coincide. *)
Lemma allocation_steps_labels_distinct (df : DataFrame) (cd : ref) (mp : Z)
    (fb : bool) (seed : option Z) (s : store) :
  labels_distinct df ->
  allocation_steps_labels df cd mp fb seed s = allocation_steps df cd mp fb seed s.
Proof.
  intros Hl. unfold allocation_steps_labels, allocation_steps.
  apply bind_ext. intros _ s1.
  destruct (negb (has_column df "id") || negb (has_column df "gpa"));
    [reflexivity|].
  rewrite (@label_repeated_distinct df "gpa" Hl). cbv zeta.
  apply bind_ext. intros caps s2. apply bind_ext. intros asg s3.
  apply for_each_ext. intros row s4.
  apply process_student_labels_plain.
  - destruct (existsb (label_repeated df) (pref_columns df mp)) eqn:E;
      [|reflexivity].
    apply existsb_exists in E. destruct E as (c & _ & Hc).
    now rewrite (@label_repeated_distinct df c Hl) in Hc.
  - now apply label_repeated_distinct.
Qed.
End LabelFacts.

(** ** The properties of [allocation_steps] *)

Section EngineProperties.
Context {RM : RandomModule} {FS : FrameSort}.

Lemma firstn_split {A} (i d : nat) (l : list A) :
  firstn (i + d) l = firstn i l ++ firstn d (skipn i l).
Proof.
  revert l. induction i as [|i IH]; intros l; [reflexivity|].
  destruct l as [|x l]; simpl.
  - now rewrite firstn_nil.
  - now rewrite IH.
Qed.

Lemma dict_lookup_app_l {K V} (eqb : K -> K -> bool) (a b : dict K V) (k : K) (v : V) :
  dict_lookup eqb a k = Some v -> dict_lookup eqb (a ++ b) k = Some v.
Proof.
  induction a as [|[k' v'] a IH]; simpl; [discriminate|].
  destruct (eqb k' k); auto.
Qed.

Lemma entries_keys (vs : list SnapshotView) :
  dict_keys (entries vs) = map v_student_id vs.
Proof. unfold dict_keys, entries. now rewrite map_map. Qed.

Lemma trace_ids (df : DataFrame) (cd : ref) (mp : Z) (fb : bool)
    (seed : option Z) (s : store) :
  map v_student_id (trace df cd mp fb seed s)
  = map row_id (sort_values_desc (rows df)).
Proof.
  pose proof (trace_students df cd mp fb seed s) as H.
  apply (f_equal student_ids) in H.
  rewrite students_of_ids in H. rewrite <- H.
  unfold student_ids. now rewrite map_map.
Qed.

Lemma sorted_ids_nodup (df : DataFrame) :
  NoDup (map row_id (rows df)) ->
  NoDup (map row_id (sort_values_desc (rows df))).
Proof.
  intros H. eapply Permutation_NoDup; [|exact H].
  apply Permutation_map, sort_values_perm.
Qed.

(** With distinct identifiers, snapshot [k] holds exactly the assignments
    of the first [k + 1] students processed. *)
Lemma trace_assignments (df : DataFrame) (cd : ref) (mp : Z) (fb : bool)
    (seed : option Z) (s : store) (k : nat) (v : SnapshotView) :
  NoDup (map row_id (rows df)) ->
  nth_error (trace df cd mp fb seed s) k = Some v ->
  v_assignments v = entries (firstn (S k) (trace df cd mp fb seed s)).
Proof.
  intros Hnd H. unfold trace in *.
  rewrite (run_assignments fb (students_of df mp (sort_values_desc (rows df))))
    with (k := k) (v := v) (asg := []) (caps := nth cd (caps_heap s) [])
         (g := seeded seed s); [reflexivity| |auto|exact H].
  rewrite students_of_ids. now apply sorted_ids_nodup.
Qed.

Lemma last_nth_error {A} (l : list A) (x d : A) :
  nth_error l (List.length l - 1) = Some x -> last l d = x.
Proof.
  induction l as [|a l IH]; [discriminate|].
  destruct l as [|b l].
  - simpl. now intros [= ->].
  - intros H. change (last (a :: b :: l) d) with (last (b :: l) d).
    apply IH. cbn [List.length] in *.
    replace (S (S (List.length l)) - 1)%nat with (S (List.length l)) in H by lia.
    replace (S (List.length l) - 1)%nat with (List.length l) by lia.
    exact H.
Qed.

Lemma final_view_all (vs : list SnapshotView) (v : SnapshotView) :
  final_view vs = Some v -> firstn (S (List.length vs - 1)) vs = vs.
Proof.
  unfold final_view. intros H.
  assert (Hlt : (List.length vs - 1 < List.length vs)%nat).
  { apply nth_error_Some. congruence. }
  apply firstn_all2. lia.
Qed.

(** One snapshot per student.  On a table with the identifier and score
    columns [allocation_steps] returns one snapshot per student; the
    snapshots follow the processing order, a rearrangement of the input
    in which scores never increase.  When the records, as the loop reads
    them, have pairwise distinct identifiers, snapshot [k] holds the
    assignments of the first [k + 1] students processed, and the keys of
    the final snapshot's assignment map are the identifiers, each exactly
    once. *)
Theorem one_snapshot_per_student (df : DataFrame) (cd : ref) (mp : Z)
    (fb : bool) (seed : option Z) (s : store) :
  has_column df "id" = true ->
  has_column df "gpa" = true ->
  exists snaps s' order,
    allocation_steps df cd mp fb seed s = (inr snaps, s') /\
    List.length snaps = List.length (rows df) /\
    Permutation (rows df) order /\
    StronglySorted (fun a b => (row_gpa b <= row_gpa a)%Q) order /\
    map (fun v => (v_student_id v, v_gpa v, v_prefs v)) (map (view s') snaps)
    = students_of df mp order /\
    (NoDup (map row_id (rows df)) ->
     (forall k v, nth_error (map (view s') snaps) k = Some v ->
        dict_keys (v_assignments v) = map row_id (firstn (S k) order)) /\
     (forall v, final_view (map (view s') snaps) = Some v ->
        dict_keys (v_assignments v) = map row_id order /\
        NoDup (dict_keys (v_assignments v)) /\
        Permutation (dict_keys (v_assignments v)) (map row_id (rows df)))).
Proof.
  intros Hid Hg.
  destruct (valid_returns df cd mp fb seed s Hid Hg) as (snaps & s' & Hrun).
  destruct (returned_views _ _ _ _ _ _ Hrun) as (_ & _ & Hv).
  exists snaps, s', (sort_values_desc (rows df)).
  assert (Hlen : List.length (map (view s') snaps)
                 = List.length (sort_values_desc (rows df))).
  { rewrite Hv. unfold trace. rewrite run_pure_length.
    unfold students_of. now rewrite length_map. }
  split; [exact Hrun|]. split.
  { rewrite <- (length_map (view s') snaps), Hlen.
    symmetry. apply Permutation_length, sort_values_perm. }
  split; [apply sort_values_perm|]. split; [apply sort_values_sorted|].
  split; [rewrite Hv; apply trace_students|].
  intros Hnd.
  assert (Hkeys : forall k v, nth_error (map (view s') snaps) k = Some v ->
            dict_keys (v_assignments v)
            = map row_id (firstn (S k) (sort_values_desc (rows df)))).
  { intros k v Hk. rewrite Hv in Hk.
    rewrite (trace_assignments df cd mp fb seed s k Hnd Hk).
    rewrite entries_keys, <- firstn_map, trace_ids. apply firstn_map. }
  assert (Hfinal : forall v, final_view (map (view s') snaps) = Some v ->
            dict_keys (v_assignments v) = map row_id (sort_values_desc (rows df))).
  { intros v Hf. rewrite (Hkeys _ _ Hf). f_equal.
    apply firstn_all2. unfold final_view in Hf.
    assert (Hlt : (List.length (map (view s') snaps) - 1
                   < List.length (map (view s') snaps))%nat)
      by (apply nth_error_Some; congruence).
    lia. }
  split; [exact Hkeys|].
  intros v Hf. rewrite (Hfinal v Hf). split; [reflexivity|]. split.
  - now apply sorted_ids_nodup.
  - apply Permutation_sym, Permutation_map, sort_values_perm.
Qed.

(** C4, amended.  For a run over students whose identifiers are pairwise
    distinct (and, when pandas hands the rows to the loop as float64
    numbers, of magnitude at most 2^53, so that the loop reads them
    unchanged): at the final snapshot and for every category, the initial
    capacity minus the remaining capacity equals the number of students
    whose final assignment is that category, which is the number of
    entries of the final assignment map whose value is that category, the
    map having one entry per student.  Such a run exists: the call returns
    on every table with the two required columns and pairwise distinct
    labels. *)
Theorem capacity_conservation (df : DataFrame) (float_rows : bool) (cd : ref)
    (mp : Z) (fb : bool) (seed : option Z) (s : store) :
  (float_rows = true -> ids_exact df) ->
  NoDup (map row_id (rows df)) ->
  (has_column df "id" = true -> has_column df "gpa" = true ->
   labels_distinct df ->
   exists snaps s',
     allocation_steps_labels (iterrows_view float_rows df) cd mp fb seed s
     = (inr snaps, s')) /\
  forall snaps s' v,
  allocation_steps_labels (iterrows_view float_rows df) cd mp fb seed s
  = (inr snaps, s') ->
  final_view (map (view s') snaps) = Some v ->
  Permutation (dict_keys (v_assignments v)) (map row_id (rows df)) /\
  forall c,
    dict_get String.eqb (nth cd (caps_heap s) []) c 0
    - dict_get String.eqb (v_remaining v) c 0
    = Z.of_nat (count_assigned (v_assignments v) c).
Proof.
  intros Hex Hnd. rewrite (@iterrows_view_exact float_rows df Hex). split.
  { intros Hid Hg Hl. rewrite (@allocation_steps_labels_distinct _ _ _ _ _ _ _ _ Hl).
    now apply valid_returns. }
  intros snaps s' v Hrun Hf. apply allocation_steps_labels_returns in Hrun.
  destruct (returned_views _ _ _ _ _ _ Hrun) as (_ & _ & Hv).
  rewrite Hv in Hf.
  assert (Hall : v_assignments v = entries (trace df cd mp fb seed s)).
  { rewrite (trace_assignments df cd mp fb seed s _ Hnd Hf).
    now rewrite (final_view_all _ Hf). }
  split.
  - rewrite Hall, entries_keys, trace_ids.
    apply Permutation_sym, Permutation_map, sort_values_perm.
  - intros c. rewrite Hall. unfold final_view, trace in Hf.
    rewrite (run_conservation fb _ _ _ _ _ Hf c).
    fold (trace df cd mp fb seed s).
    now rewrite (final_view_all (trace df cd mp fb seed s) (v := v)).
Qed.

(** C5, amended.  Between two snapshots [i < j] of a run the assignment
    map of snapshot [i] is a subset, by key, of that of snapshot [j]; when
    the identifiers are pairwise distinct (and, when pandas hands the rows
    to the loop as float64 numbers, of magnitude at most 2^53), each step
    adds exactly one entry, the later map being the earlier one followed
    by one entry per student processed in between, so snapshot [k] has
    exactly [k + 1] entries and no key's value ever changes.  Such runs
    exist: the call returns on every table with the two required columns
    and pairwise distinct labels. *)
Theorem assignment_map_monotonic (df : DataFrame) (float_rows : bool) (cd : ref)
    (mp : Z) (fb : bool) (seed : option Z) (s : store) :
  (has_column df "id" = true -> has_column df "gpa" = true ->
   labels_distinct df ->
   exists snaps s',
     allocation_steps_labels (iterrows_view float_rows df) cd mp fb seed s
     = (inr snaps, s')) /\
  forall snaps s',
  allocation_steps_labels (iterrows_view float_rows df) cd mp fb seed s
  = (inr snaps, s') ->
  forall (i j : nat) (vi vj : SnapshotView),
  (i < j)%nat ->
  nth_error (map (view s') snaps) i = Some vi ->
  nth_error (map (view s') snaps) j = Some vj ->
  incl (dict_keys (v_assignments vi)) (dict_keys (v_assignments vj)) /\
  ((float_rows = true -> ids_exact df) ->
   NoDup (map row_id (rows df)) ->
     v_assignments vj
     = v_assignments vi
         ++ entries (firstn (j - i) (skipn (S i) (map (view s') snaps))) /\
     List.length (v_assignments vi) = S i /\
     List.length (v_assignments vj) = S j /\
     (forall k a, dict_lookup Z.eqb (v_assignments vi) k = Some a ->
                  dict_lookup Z.eqb (v_assignments vj) k = Some a)).
Proof.
  split.
  { intros Hid Hg Hl.
    rewrite (@allocation_steps_labels_distinct _ _ _ _ _ _ _ _
               (@iterrows_view_labels float_rows df Hl)).
    apply valid_returns; now rewrite iterrows_view_has_column. }
  intros snaps s' Hrun i j vi vj Hij Hi Hj.
  apply allocation_steps_labels_returns in Hrun.
  destruct (returned_views _ _ _ _ _ _ Hrun) as (_ & _ & Hv).
  rewrite Hv in *. split.
  - unfold trace in Hi, Hj.
    destruct (run_pure_suffix _ _ _ _ _ _ Hi) as [gi Hgi].
    match type of Hj with
    | nth_error ?l j = _ =>
        assert (Hj' : nth_error (skipn (S i) l) (j - S i) = Some vj)
    end.
    { rewrite nth_error_skipn. replace (S i + (j - S i))%nat with j by lia.
      exact Hj. }
    rewrite Hgi in Hj'. exact (run_keys_incl _ _ _ _ _ _ Hj').
  - intros Hex Hnd. rewrite (@iterrows_view_exact float_rows df Hex) in *.
    pose proof (trace_assignments df cd mp fb seed s i Hnd Hi) as Ei.
    pose proof (trace_assignments df cd mp fb seed s j Hnd Hj) as Ej.
    assert (Hsplit : v_assignments vj
              = v_assignments vi
                  ++ entries (firstn (j - i)
                                (skipn (S i) (trace df cd mp fb seed s)))).
    { rewrite Ei, Ej. replace (S j) with (S i + (j - i))%nat by lia.
      rewrite firstn_split. unfold entries. now rewrite map_app. }
    assert (Hlen : forall k u, nth_error (trace df cd mp fb seed s) k = Some u ->
              List.length (v_assignments u) = S k).
    { intros k u Hk.
      rewrite (trace_assignments df cd mp fb seed s k Hnd Hk).
      unfold entries. rewrite length_map. apply firstn_length_le.
      assert (Hlt : (k < List.length (trace df cd mp fb seed s))%nat)
        by (apply nth_error_Some; congruence).
      lia. }
    repeat split; auto.
    intros k a Hk. rewrite Hsplit. now apply dict_lookup_app_l.
Qed.

(** C6.  Two calls with the same table, the same capacities, the same
    [max_prefs] and fallback flag and the same explicit seed are observed
    alike: both raise the same exception, or both return snapshots equal
    in every field; they also leave the generator in the same state.  The
    two calls may start from different stores and generator states. *)
Theorem seeded_runs_agree (df : DataFrame) (cd1 cd2 : ref) (mp : Z)
    (fb : bool) (n : Z) (s1 s2 : store) :
  nth cd1 (caps_heap s1) [] = nth cd2 (caps_heap s2) [] ->
  observe (allocation_steps df cd1 mp fb (Some n) s1)
  = observe (allocation_steps df cd2 mp fb (Some n) s2) /\
  random_state (snd (allocation_steps df cd1 mp fb (Some n) s1))
  = random_state (snd (allocation_steps df cd2 mp fb (Some n) s2)).
Proof.
  intros Hc. split.
  - rewrite !observe_run. unfold trace. cbn [seeded]. now rewrite Hc.
  - destruct (has_column df "id") eqn:Hid; [destruct (has_column df "gpa") eqn:Hg|].
    + rewrite !(allocation_steps_run df _ mp fb (Some n) _ Hid Hg).
      cbn [snd random_state seeded]. now rewrite Hc.
    + rewrite !allocation_steps_invalid by auto. reflexivity.
    + rewrite !allocation_steps_invalid by auto. reflexivity.
Qed.

(** C7, amended.  [allocation_steps] raises [ValueError] (the spec's
    MissingRequiredFieldError) whenever the table lacks the ["id"] column
    or the ["gpa"] column; that failure comes immediately: no dictionary
    has been copied or created, no draw has been made, no student has
    been processed and nothing is returned.  On a table whose column
    labels are pairwise distinct it is the only failure: the call raises
    [ValueError] if and only if one of the two columns is lacking, and it
    raises nothing else. *)
Theorem missing_column_error (df : DataFrame) (cd : ref) (mp : Z)
    (fb : bool) (seed : option Z) (s : store) :
  (has_column df "id" = false \/ has_column df "gpa" = false ->
   allocation_steps_labels df cd mp fb seed s
   = (inl ValueError, mkStore (caps_heap s) (asg_heap s) (seeded seed s))) /\
  (labels_distinct df ->
   (fst (allocation_steps_labels df cd mp fb seed s) = inl ValueError <->
    has_column df "id" = false \/ has_column df "gpa" = false) /\
   (forall e, fst (allocation_steps_labels df cd mp fb seed s) = inl e ->
      e = ValueError /\
      caps_heap (snd (allocation_steps_labels df cd mp fb seed s)) = caps_heap s /\
      asg_heap (snd (allocation_steps_labels df cd mp fb seed s)) = asg_heap s /\
      random_state (snd (allocation_steps_labels df cd mp fb seed s))
      = seeded seed s)).
Proof.
  split; [apply allocation_steps_labels_invalid|].
  intros Hl. rewrite (@allocation_steps_labels_distinct _ _ _ _ _ _ _ _ Hl).
  destruct (has_column df "id") eqn:Hid; [destruct (has_column df "gpa") eqn:Hg|].
  - rewrite (allocation_steps_run df cd mp fb seed s Hid Hg). cbn [fst].
    split; [split; [discriminate|intros [|]; discriminate]|discriminate].
  - rewrite allocation_steps_invalid by auto. cbn [fst snd caps_heap asg_heap].
    split; [split; auto|]. intros e [= <-]. auto.
  - rewrite allocation_steps_invalid by auto. cbn [fst snd caps_heap asg_heap].
    split; [split; auto|]. intros e [= <-]. auto.
Qed.

(** C10.  A call leaves every dictionary that existed before it, the
    [capacity_dict] argument among them, with its original contents: the
    decrements go to a copy made by the call, which ends holding the final
    remaining capacities.  A later call given the same argument therefore
    starts from the same capacities. *)
Theorem capacity_argument_unchanged (df : DataFrame) (cd : ref) (mp : Z)
    (fb : bool) (seed : option Z) (s : store) :
  (cd < List.length (caps_heap s))%nat ->
  nth cd (caps_heap (snd (allocation_steps df cd mp fb seed s))) []
  = nth cd (caps_heap s) [] /\
  firstn (List.length (caps_heap s))
    (caps_heap (snd (allocation_steps df cd mp fb seed s)))
  = caps_heap s /\
  (forall snaps s' v,
     allocation_steps df cd mp fb seed s = (inr snaps, s') ->
     final_view (map (view s') snaps) = Some v ->
     nth (List.length (caps_heap s)) (caps_heap s') [] = v_remaining v) /\
  (forall n,
     observe (allocation_steps df cd mp fb (Some n)
                (snd (allocation_steps df cd mp fb seed s)))
     = observe (allocation_steps df cd mp fb (Some n) s)).
Proof.
  intros Hcd.
  assert (Hpre : exists extra,
            caps_heap (snd (allocation_steps df cd mp fb seed s))
            = caps_heap s ++ extra).
  { destruct (has_column df "id") eqn:Hid; [destruct (has_column df "gpa") eqn:Hg|].
    - rewrite (allocation_steps_run df cd mp fb seed s Hid Hg).
      cbn [snd caps_heap]. eauto.
    - rewrite allocation_steps_invalid by auto. exists []. cbn [snd caps_heap].
      now rewrite app_nil_r.
    - rewrite allocation_steps_invalid by auto. exists []. cbn [snd caps_heap].
      now rewrite app_nil_r. }
  destruct Hpre as [extra Hextra].
  assert (Hsame : nth cd (caps_heap (snd (allocation_steps df cd mp fb seed s))) []
                  = nth cd (caps_heap s) []).
  { rewrite Hextra. now apply app_nth1. }
  split; [exact Hsame|]. split.
  { rewrite Hextra, firstn_app, Nat.sub_diag, firstn_all. cbn [firstn].
    apply app_nil_r. }
  split.
  - intros snaps s' v Hrun Hf.
    destruct (returned_views _ _ _ _ _ _ Hrun) as (Hid & Hg & Hv).
    rewrite (allocation_steps_run df cd mp fb seed s Hid Hg) in Hrun.
    injection Hrun as _ <-. cbn [caps_heap]. rewrite nth_middle.
    rewrite Hv in Hf.
    apply last_nth_error. rewrite length_map, nth_error_map.
    unfold final_view in Hf. now rewrite Hf.
  - intros n. rewrite !observe_run. unfold trace. cbn [seeded].
    now rewrite Hsame.
Qed.

Lemma decrement_decremented (caps : dict string Z) (c : string) :
  In c (dict_keys caps) -> decremented caps (decrement caps c) c.
Proof.
  intros Hin. repeat split.
  - apply decrement_keys.
  - rewrite (@decrement_get caps c c Hin). now rewrite String.eqb_refl.
  - intros x Hx. now apply decrement_lookup_other.
Qed.

Lemma get_pos_in (caps : dict string Z) (c : string) :
  0 < dict_get String.eqb caps c 0 -> In c (dict_keys caps).
Proof.
  intros H. destruct (get_pos_lookup _ _ H) as (n & Hn & _).
  eapply dict_lookup_some_in; [apply string_eqb_spec|exact Hn].
Qed.

Lemma run_remaining_keys (fb : bool) (students : list student) :
  forall caps asg g k v,
    nth_error (fst (run_pure fb students caps asg g)) k = Some v ->
    dict_keys (v_remaining v) = dict_keys caps.
Proof.
  assert (Hstep : forall caps g ps,
            dict_keys (snd (fst (step fb caps g ps))) = dict_keys caps).
  { intros caps g ps.
    destruct (fst (fst (step fb caps g ps))) as [c|] eqn:E.
    - destruct (step_some _ _ _ _ E) as [_ ->]. apply decrement_keys.
    - now destruct (step_none _ _ _ _ E) as [-> _]. }
  induction students as [|[[sid gp] ps] rest IH]; intros caps asg g k v.
  - destruct k; discriminate.
  - cbn [run_pure fst]. destruct k as [|k]; cbn [nth_error].
    + intros [= <-]. cbn [v_remaining]. apply Hstep.
    + intros H. rewrite (IH _ _ _ _ _ H). apply Hstep.
Qed.

Lemma capacity_before_keys (df : DataFrame) (cd : ref) (mp : Z) (fb : bool)
    (seed : option Z) (s : store) (k : nat) :
  dict_keys (capacity_before (nth cd (caps_heap s) []) (trace df cd mp fb seed s) k)
  = dict_keys (nth cd (caps_heap s) []).
Proof.
  destruct k as [|k]; [reflexivity|]. cbn [capacity_before].
  destruct (nth_error (trace df cd mp fb seed s) k) eqn:E; [|reflexivity].
  unfold trace in E. exact (run_remaining_keys _ _ _ _ _ _ E).
Qed.

(** The snapshot of a student shows the student's own effective
    preference list. *)
Lemma trace_row (df : DataFrame) (cd : ref) (mp : Z) (fb : bool)
    (seed : option Z) (s : store) (k : nat) (v : SnapshotView) :
  nth_error (trace df cd mp fb seed s) k = Some v ->
  exists row,
    In row (rows df) /\ v_student_id v = row_id row /\ v_gpa v = row_gpa row /\
    v_prefs v = row_prefs df (pref_columns df mp) row.
Proof.
  intros H. apply (map_nth_error (fun v => (v_student_id v, v_gpa v, v_prefs v))) in H.
  rewrite trace_students in H. unfold students_of in H.
  apply nth_error_In, in_map_iff in H. destruct H as (row & [= E1 E2 E3] & Hin).
  exists row. repeat split; try congruence.
  eapply Permutation_in; [apply Permutation_sym, sort_values_perm|exact Hin].
Qed.

Lemma primary_rule_at (df : DataFrame) (cd : ref) (mp : Z) (fb : bool)
    (seed : option Z) (s : store) (k : nat) (v : SnapshotView)
    (front back : list string) (c : string) :
  nth_error (trace df cd mp fb seed s) k = Some v ->
  v_prefs v = front ++ c :: back ->
  (forall x, In x front ->
     dict_get String.eqb
       (capacity_before (nth cd (caps_heap s) []) (trace df cd mp fb seed s) k) x 0
     <= 0) ->
  0 < dict_get String.eqb
        (capacity_before (nth cd (caps_heap s) []) (trace df cd mp fb seed s) k) c 0 ->
  v_chosen v = Some c /\
  decremented
    (capacity_before (nth cd (caps_heap s) []) (trace df cd mp fb seed s) k)
    (v_remaining v) c.
Proof.
  intros H Hp Hf Hc. unfold trace in H.
  destruct (run_pure_nth _ _ _ _ _ _ H) as (gk & Hstep & _).
  fold (trace df cd mp fb seed s) in Hstep.
  rewrite Hp, (@step_primary _ fb _ gk front back c Hf Hc) in Hstep.
  cbn [fst] in Hstep. injection Hstep as <- <-. split; [reflexivity|].
  apply decrement_decremented. now apply get_pos_in.
Qed.

Lemma two_rows_order (df : DataFrame) (hi lo : Row) :
  Permutation (rows df) [hi; lo] ->
  (row_gpa lo < row_gpa hi)%Q ->
  sort_values_desc (rows df) = [hi; lo].
Proof.
  intros Hp Hlt.
  assert (Hp' : Permutation [hi; lo] (sort_values_desc (rows df))).
  { eapply perm_trans; [apply Permutation_sym, Hp|apply sort_values_perm]. }
  apply Permutation_length_2_inv in Hp'. destruct Hp' as [E|E]; [exact E|].
  pose proof (sort_values_sorted (rows df)) as Hs. rewrite E in Hs.
  inversion Hs as [|? ? _ Hall]; subst.
  inversion Hall as [|? ? Hle _]; subst.
  exfalso. exact (Qlt_not_le _ _ Hlt Hle).
Qed.

Lemma priority_two_students (df : DataFrame) (cd : ref) (mp : Z) (fb : bool)
    (seed : option Z) (s : store) (hi lo : Row) (a b : string) :
  Permutation (rows df) [hi; lo] ->
  (row_gpa lo < row_gpa hi)%Q ->
  row_id hi <> row_id lo ->
  row_prefs df (pref_columns df mp) hi = [a; b] ->
  row_prefs df (pref_columns df mp) lo = [a; b] ->
  a <> b ->
  dict_get String.eqb (nth cd (caps_heap s) []) a 0 = 1 ->
  dict_get String.eqb (nth cd (caps_heap s) []) b 0 = 1 ->
  exists v1 v2,
    trace df cd mp fb seed s = [v1; v2] /\
    v_student_id v1 = row_id hi /\ v_chosen v1 = Some a /\
    v_student_id v2 = row_id lo /\ v_chosen v2 = Some b /\
    v_assignments v2 = [(row_id hi, Some a); (row_id lo, Some b)].
Proof.
  intros Hp Hlt Hids Hhi Hlo Hab Ha Hb.
  set (caps0 := nth cd (caps_heap s) []) in *.
  assert (Hina : In a (dict_keys caps0)) by (apply get_pos_in; lia).
  assert (S1 : forall g, step fb caps0 g [a; b] = (Some a, decrement caps0 a, g)).
  { intros g. apply (@step_primary _ fb caps0 g [] [b] a).
    - intros x [].
    - lia. }
  assert (S2 : forall g, step fb (decrement caps0 a) g [a; b]
                         = (Some b, decrement (decrement caps0 a) b, g)).
  { intros g. apply (@step_primary _ fb (decrement caps0 a) g [a] [] b).
    - intros x [<-|[]]. rewrite (@decrement_get caps0 a a Hina), String.eqb_refl. lia.
    - rewrite (@decrement_get caps0 a b Hina).
      replace (String.eqb a b) with false; [lia|].
      symmetry. now apply String.eqb_neq. }
  unfold trace. rewrite (two_rows_order df Hp Hlt).
  fold caps0. cbn [students_of map run_pure]. rewrite Hhi, Hlo.
  rewrite S1. cbn [fst snd]. rewrite S2. cbn [fst snd dict_set].
  replace (Z.eqb (row_id hi) (row_id lo)) with false
    by (symmetry; now apply Z.eqb_neq).
  do 2 eexists. split; [reflexivity|]. cbn. repeat split.
Qed.

(** C1.  In a run of [allocation_steps], every snapshot shows the
    effective preference list of one input student, and whenever that list
    reads [front ++ c :: back] where no category of [front] has a seat left
    in the capacities the step starts from (a category missing from the
    map counts as having none) and [c] has one, the student is assigned
    [c] and exactly one seat of [c] is taken, whatever [back] is; the call
    returns, it does not raise.  In particular two students with
    the same two preferences, one seat each, get the first and the second
    preference in order of score. *)
Theorem primary_rule (df : DataFrame) (cd : ref) (mp : Z) (fb : bool)
    (seed : option Z) (s : store) :
  has_column df "id" = true ->
  has_column df "gpa" = true ->
  exists snaps s',
  allocation_steps df cd mp fb seed s = (inr snaps, s') /\
  (forall k v,
     nth_error (map (view s') snaps) k = Some v ->
     (exists row,
        In row (rows df) /\ v_student_id v = row_id row /\
        v_gpa v = row_gpa row /\
        v_prefs v = row_prefs df (pref_columns df mp) row) /\
     (forall x,
        ~ In x (dict_keys (capacity_before (nth cd (caps_heap s) [])
                             (map (view s') snaps) k)) ->
        dict_get String.eqb
          (capacity_before (nth cd (caps_heap s) []) (map (view s') snaps) k) x 0
        = 0) /\
     (forall front c back,
        v_prefs v = front ++ c :: back ->
        (forall x, In x front ->
           dict_get String.eqb
             (capacity_before (nth cd (caps_heap s) []) (map (view s') snaps) k) x 0
           <= 0) ->
        0 < dict_get String.eqb
              (capacity_before (nth cd (caps_heap s) []) (map (view s') snaps) k) c 0 ->
        v_chosen v = Some c /\
        decremented
          (capacity_before (nth cd (caps_heap s) []) (map (view s') snaps) k)
          (v_remaining v) c)) /\
  (forall hi lo a b,
     Permutation (rows df) [hi; lo] ->
     (row_gpa lo < row_gpa hi)%Q ->
     row_id hi <> row_id lo ->
     row_prefs df (pref_columns df mp) hi = [a; b] ->
     row_prefs df (pref_columns df mp) lo = [a; b] ->
     a <> b ->
     dict_get String.eqb (nth cd (caps_heap s) []) a 0 = 1 ->
     dict_get String.eqb (nth cd (caps_heap s) []) b 0 = 1 ->
     exists v1 v2,
       map (view s') snaps = [v1; v2] /\
       v_student_id v1 = row_id hi /\ v_chosen v1 = Some a /\
       v_student_id v2 = row_id lo /\ v_chosen v2 = Some b /\
       v_assignments v2 = [(row_id hi, Some a); (row_id lo, Some b)]).
Proof.
  intros Hid Hg.
  destruct (valid_returns df cd mp fb seed s Hid Hg) as (snaps & s' & Hrun).
  exists snaps, s'. split; [exact Hrun|].
  destruct (returned_views _ _ _ _ _ _ Hrun) as (_ & _ & Hv).
  rewrite Hv. split.
  - intros k v Hk. split; [exact (trace_row df cd mp fb seed s k Hk)|]. split.
    + intros x Hx. unfold dict_get.
      now rewrite (dict_lookup_none String.eqb string_eqb_spec _ x Hx).
    + intros front c back. now apply primary_rule_at.
  - intros hi lo a b. apply priority_two_students.
Qed.

(** The states of the generator along the loop: the state every student
    is processed from, followed by the state the loop ends in. *)
Fixpoint generator_states (fb : bool) (students : list student)
    (caps : dict string Z) (g : rng) : list rng :=
  match students with
  | [] => [g]
  | (_, _, ps) :: rest =>
      g :: generator_states fb rest (snd (fst (step fb caps g ps)))
             (snd (step fb caps g ps))
  end.

Lemma capacity_before_cons (caps : dict string Z) (v0 : SnapshotView)
    (vs : list SnapshotView) (k : nat) (v : SnapshotView) :
  nth_error vs k = Some v ->
  capacity_before caps (v0 :: vs) (S k) = capacity_before (v_remaining v0) vs k.
Proof.
  intros H. destruct k as [|k]; [reflexivity|].
  cbn [capacity_before nth_error].
  destruct (nth_error vs k) as [u|] eqn:E; [reflexivity|].
  apply nth_error_None in E.
  assert (Hs : nth_error vs (S k) <> None) by congruence.
  apply nth_error_Some in Hs. lia.
Qed.

(** Every step of the loop starts from the generator state the previous
    step left, and the loop ends in the state the last step left. *)
Lemma generator_states_run (fb : bool) (students : list student) :
  forall caps asg g,
    List.length (generator_states fb students caps g) = S (List.length students) /\
    nth_error (generator_states fb students caps g) 0 = Some g /\
    nth_error (generator_states fb students caps g) (List.length students)
    = Some (snd (run_pure fb students caps asg g)) /\
    forall k v,
      nth_error (fst (run_pure fb students caps asg g)) k = Some v ->
      exists gk gk',
        nth_error (generator_states fb students caps g) k = Some gk /\
        nth_error (generator_states fb students caps g) (S k) = Some gk' /\
        step fb (capacity_before caps (fst (run_pure fb students caps asg g)) k)
          gk (v_prefs v)
        = (v_chosen v, v_remaining v, gk').
Proof.
  induction students as [|[[sid gp] ps] rest IH]; intros caps asg g.
  - cbn. repeat split. intros k v H. destruct k; discriminate.
  - cbn [generator_states run_pure fst snd List.length].
    destruct (IH (snd (fst (step fb caps g ps)))
                (dict_set Z.eqb asg sid (fst (fst (step fb caps g ps))))
                (snd (step fb caps g ps))) as (Hlen & H0 & Hlast & Hk).
    split; [now rewrite Hlen|]. split; [reflexivity|].
    split; [exact Hlast|].
    intros k v H. destruct k as [|k].
    + cbn [nth_error] in H. injection H as <-.
      exists g, (snd (step fb caps g ps)).
      split; [reflexivity|]. split; [exact H0|].
      cbn [capacity_before v_prefs v_chosen v_remaining].
      now destruct (step fb caps g ps) as [[? ?] ?].
    + cbn [nth_error] in H.
      destruct (Hk k v H) as (gk & gk' & E1 & E2 & Hs).
      exists gk, gk'. split; [exact E1|]. split; [exact E2|].
      rewrite (capacity_before_cons caps _ _ _ H). cbn [v_remaining]. exact Hs.
Qed.

(** C2.  In a run of [allocation_steps] the generator goes through a chain
    of states: the state left by the seeding first, one more after each
    student, and the last one is the state the process is left in.  Take
    a student, and let [avail] be the categories of the capacity map, in
    its order, that have a seat in the capacities the step starts from and
    are not in the student's list (no category occurs twice in it).  If
    no effective preference has a seat, fallback is enabled and [avail] is
    not empty, the student is assigned the element of [avail] at the index
    that [random.choice] draws below its length from the state the
    previous student left, one seat of it is taken, and the generator is
    left in the state after that one draw.  With fallback disabled, or
    [avail] empty, the student is unassigned and the capacities and the
    generator are unchanged.  A student served from the list leaves the
    generator unchanged too: no other draw is made.  With fallback enabled
    and [avail] not empty no student is left unassigned. *)
Theorem fallback_rule (df : DataFrame) (cd : ref) (mp : Z) (fb : bool)
    (seed : option Z) (s : store) :
  has_column df "id" = true ->
  has_column df "gpa" = true ->
  exists snaps s' gens,
  allocation_steps df cd mp fb seed s = (inr snaps, s') /\
  List.length gens = S (List.length snaps) /\
  nth_error gens 0 = Some (seeded seed s) /\
  nth_error gens (List.length snaps) = Some (random_state s') /\
  forall k v,
    nth_error (map (view s') snaps) k = Some v ->
    exists g g',
    nth_error gens k = Some g /\
    nth_error gens (S k) = Some g' /\
    let before :=
      capacity_before (nth cd (caps_heap s) []) (map (view s') snaps) k in
    let avail := available_specs before (v_prefs v) in
    (forall c, In c avail <->
               exists n, In (c, n) before /\ 0 < n /\ ~ In c (v_prefs v)) /\
    (dict_wf (nth cd (caps_heap s) []) -> NoDup avail) /\
    ((forall x, In x (v_prefs v) -> dict_get String.eqb before x 0 <= 0) ->
     (fb = true -> avail <> [] ->
      exists c,
        c = nth (fst (randbelow (List.length avail) g)) avail "" /\
        In c avail /\
        v_chosen v = Some c /\
        decremented before (v_remaining v) c /\
        g' = snd (randbelow (List.length avail) g)) /\
     (fb = false \/ avail = [] ->
      v_chosen v = None /\ v_remaining v = before /\ g' = g)) /\
    (forall front c back,
       v_prefs v = front ++ c :: back ->
       (forall x, In x front -> dict_get String.eqb before x 0 <= 0) ->
       0 < dict_get String.eqb before c 0 ->
       g' = g) /\
    (fb = true -> avail <> [] -> v_chosen v <> None).
Proof.
  intros Hid Hg.
  destruct (valid_returns df cd mp fb seed s Hid Hg) as (snaps & s' & Hrun).
  destruct (returned_views _ _ _ _ _ _ Hrun) as (_ & _ & Hv).
  destruct (generator_states_run fb
              (students_of df mp (sort_values_desc (rows df)))
              (nth cd (caps_heap s) []) [] (seeded seed s))
    as (Hlen & H0 & Hlast & Hchain).
  exists snaps, s',
    (generator_states fb (students_of df mp (sort_values_desc (rows df)))
       (nth cd (caps_heap s) []) (seeded seed s)).
  assert (Hn : List.length snaps
               = List.length (students_of df mp (sort_values_desc (rows df)))).
  { rewrite <- (length_map (view s')), Hv. unfold trace. apply run_pure_length. }
  split; [exact Hrun|]. split; [now rewrite Hn|]. split; [exact H0|].
  split.
  { rewrite Hn, Hlast.
    rewrite (allocation_steps_run df cd mp fb seed s Hid Hg) in Hrun.
    injection Hrun as _ <-. reflexivity. }
  rewrite Hv. intros k v Hk.
  pose proof Hk as Hk'. unfold trace in Hk'.
  destruct (Hchain k v Hk') as (gk & gk' & E1 & E2 & Hstep).
  fold (trace df cd mp fb seed s) in Hstep.
  exists gk, gk'. split; [exact E1|]. split; [exact E2|].
  intros before avail. fold before in Hstep.
  split; [intros c; apply available_specs_in|]. split.
  { intros Hwf. apply available_specs_nodup. unfold dict_wf.
    change (NoDup (dict_keys before)). unfold before.
    now rewrite capacity_before_keys. }
  split; [|split].
  - intros Hfull. split.
    + intros -> Hne.
      rewrite (@step_fallback _ before gk (v_prefs v) Hfull Hne) in Hstep.
      injection Hstep as Hc Hr Hg'. fold avail in Hc, Hr, Hg'.
      exists (nth (fst (randbelow (List.length avail) gk)) avail "").
      assert (Hin : In (nth (fst (randbelow (List.length avail) gk)) avail "") avail).
      { apply nth_In, randbelow_lt. destruct avail; [contradiction|simpl; lia]. }
      split; [reflexivity|]. split; [exact Hin|]. split; [now rewrite Hc|].
      split; [|now symmetry].
      rewrite <- Hr. apply decrement_decremented.
      now apply available_specs_keys with (ps := v_prefs v).
    + intros Hoff.
      rewrite (@step_unassigned _ fb before gk (v_prefs v) Hfull Hoff) in Hstep.
      injection Hstep as <- <- <-. auto.
  - intros front c back Hp Hf Hc. rewrite Hp in Hstep.
    rewrite (@step_primary _ fb before gk front back c Hf Hc) in Hstep.
    now injection Hstep as _ _ <-.
  - intros -> Hne Hnone.
    assert (E : fst (fst (step true before gk (v_prefs v))) = None)
      by (rewrite Hstep; exact Hnone).
    unfold step in E. destruct (first_fit before (v_prefs v)); [discriminate|].
    fold avail in E. destruct avail; [contradiction|discriminate].
Qed.
(** The trace of a run over two students who share a two-category
    preference list, each category having one seat. *)
Lemma two_students_trace (df : DataFrame) (cd : ref) (mp : Z) (fb : bool)
    (seed : option Z) (s : store) (hi lo : Row) (a b : string) :
  Permutation (rows df) [hi; lo] ->
  (row_gpa lo < row_gpa hi)%Q ->
  row_prefs df (pref_columns df mp) hi = [a; b] ->
  row_prefs df (pref_columns df mp) lo = [a; b] ->
  a <> b ->
  dict_get String.eqb (nth cd (caps_heap s) []) a 0 = 1 ->
  dict_get String.eqb (nth cd (caps_heap s) []) b 0 = 1 ->
  trace df cd mp fb seed s
  = [mkView (row_id hi) (row_gpa hi) [a; b] (Some a)
       (decrement (nth cd (caps_heap s) []) a) [(row_id hi, Some a)];
     mkView (row_id lo) (row_gpa lo) [a; b] (Some b)
       (decrement (decrement (nth cd (caps_heap s) []) a) b)
       (dict_set Z.eqb [(row_id hi, Some a)] (row_id lo) (Some b))].
Proof.
  intros Hp Hlt Hhi Hlo Hab Ha Hb.
  set (caps0 := nth cd (caps_heap s) []) in *.
  assert (Hina : In a (dict_keys caps0)) by (apply get_pos_in; lia).
  assert (S1 : forall g, step fb caps0 g [a; b] = (Some a, decrement caps0 a, g)).
  { intros g. apply (@step_primary _ fb caps0 g [] [b] a).
    - intros x [].
    - lia. }
  assert (S2 : forall g, step fb (decrement caps0 a) g [a; b]
                         = (Some b, decrement (decrement caps0 a) b, g)).
  { intros g. apply (@step_primary _ fb (decrement caps0 a) g [a] [] b).
    - intros x [<-|[]]. rewrite (@decrement_get caps0 a a Hina), String.eqb_refl. lia.
    - rewrite (@decrement_get caps0 a b Hina).
      replace (String.eqb a b) with false; [lia|].
      symmetry. now apply String.eqb_neq. }
  unfold trace. rewrite (two_rows_order df Hp Hlt).
  fold caps0. cbn [students_of map run_pure]. rewrite Hhi, Hlo.
  rewrite S1. cbn [fst snd]. rewrite S2. cbn [fst snd]. reflexivity.
Qed.

(** C3.  The claim: for every valid input, [allocation_steps] returns
    exactly one snapshot per input student, in processing order, and the
    final snapshot's assignment map contains exactly one entry per input
    student.  The code at an input where this fails: a table with the two
    required columns only, an int64 ["id"] column holding 2^53 and
    2^53 + 1 and a float64 ["gpa"] column.  The identifiers are distinct,
    the call returns two snapshots, both show the identifier 2^53, since
    [iterrows()] hands the rows over as float64 numbers, and the final
    assignment map has one entry for the two students. *)
Theorem large_identifiers_collide (cd : ref) (mp : Z) (fb : bool)
    (seed : option Z) (s : store) :
  NoDup (map row_id (rows big_ids_df)) /\
  labels_distinct big_ids_df /\
  exists snaps s',
    allocation_steps_labels (iterrows_view true big_ids_df) cd mp fb seed s
    = (inr snaps, s') /\
    List.length snaps = 2%nat /\
    map v_student_id (map (view s') snaps) = [2 ^ 53; 2 ^ 53] /\
    forall v,
      final_view (map (view s') snaps) = Some v ->
      dict_keys (v_assignments v) = [2 ^ 53].
Proof.
  split; [repeat constructor; cbn; intuition discriminate|].
  assert (Hl : labels_distinct big_ids_df)
    by (repeat constructor; cbn; intuition discriminate).
  split; [exact Hl|].
  set (df := iterrows_view true big_ids_df).
  assert (Hrows : rows df = [mkRow (2 ^ 53) 9 []; mkRow (2 ^ 53) 8 []])
    by reflexivity.
  destruct (valid_returns df cd mp fb seed s eq_refl eq_refl)
    as (snaps & s' & Hrun).
  destruct (returned_views _ _ _ _ _ _ Hrun) as (_ & _ & Hv).
  exists snaps, s'.
  rewrite (@allocation_steps_labels_distinct _ _ df cd mp fb seed s
             (@iterrows_view_labels true big_ids_df Hl)).
  split; [exact Hrun|].
  assert (Hord : sort_values_desc (rows df)
                 = [mkRow (2 ^ 53) 9 []; mkRow (2 ^ 53) 8 []]).
  { apply two_rows_order; [rewrite Hrows; apply Permutation_refl|reflexivity]. }
  assert (Hlen : List.length (map (view s') snaps) = 2%nat).
  { rewrite Hv. unfold trace. rewrite run_pure_length, Hord. reflexivity. }
  split; [now rewrite length_map in Hlen|].
  assert (Hids : map v_student_id (map (view s') snaps) = [2 ^ 53; 2 ^ 53]).
  { rewrite Hv.
    pose proof (trace_ids df cd mp fb seed s) as Hi. rewrite Hord in Hi.
    exact Hi. }
  split; [exact Hids|].
  intros v Hf. unfold final_view in Hf. rewrite Hlen in Hf. cbn in Hf.
  rewrite Hv in Hf. unfold trace in Hf. rewrite Hord in Hf.
  cbn [students_of map run_pure fst nth_error row_id] in Hf.
  injection Hf as <-. reflexivity.
Qed.
End EngineProperties.

(** ** The properties at the inputs of the repository's tests *)


Lemma test_ids_distinct : NoDup (map row_id (rows fallback_df)).
Proof.
  simpl. repeat constructor; simpl; intuition discriminate.
Defined.

Lemma primary_rule_witness :
  has_column priority_df "id" = true /\
  has_column priority_df "gpa" = true /\
  exists snaps s',
    allocation_steps (RM := reference_random) (FS := reference_sort)
      priority_df 0%nat 2 false None (store_with priority_caps) = (inr snaps, s') /\
    map v_chosen (map (view s') snaps) = [Some "Software"; Some "Mechanical"].
Proof.
  split; [reflexivity|]. split; [reflexivity|].
  destruct (primary_rule (RM := reference_random) (FS := reference_sort)
              priority_df 0%nat 2 false None (store_with priority_caps)
              eq_refl eq_refl)
    as (snaps & s' & Hrun & _ & Hpair).
  exists snaps, s'. split; [exact Hrun|].
  destruct (Hpair priority_hi priority_lo "Software" "Mechanical")
    as (v1 & v2 & E & _ & H1 & _ & H2 & _).
  - apply Permutation_refl.
  - reflexivity.
  - discriminate.
  - reflexivity.
  - reflexivity.
  - discriminate.
  - reflexivity.
  - reflexivity.
  - rewrite E. simpl. now rewrite H1, H2.
Defined.

Lemma fallback_rule_witness :
  has_column fallback_df "id" = true /\
  has_column fallback_df "gpa" = true /\
  exists snaps s' gens v,
    allocation_steps (RM := reference_random) (FS := reference_sort)
      fallback_df 0%nat 2 true (Some 42) (store_with fallback_caps) = (inr snaps, s') /\
    nth_error gens 0 = Some (42 mod 2147483648) /\
    nth_error gens (List.length snaps) = Some (random_state s') /\
    nth_error (map (view s') snaps) 2 = Some v /\
    v_chosen v <> None.
Proof.
  split; [reflexivity|]. split; [reflexivity|].
  destruct (fallback_rule (RM := reference_random) (FS := reference_sort)
              fallback_df 0%nat 2 true (Some 42) (store_with fallback_caps)
              eq_refl eq_refl)
    as (snaps & s' & gens & Hrun & _ & Hg0 & Hglast & Hrule).
  pose proof fallback_trace_eq as Hobs.
  unfold run_reference in Hobs. rewrite Hrun in Hobs.
  unfold observe, fallback_trace in Hobs. cbn [fst snd] in Hobs.
  injection Hobs as Hobs. symmetry in Hobs.
  remember (map (view s') snaps) as vs eqn:Hviews.
  destruct vs as [|v0 [|v1 [|v2 [|]]]]; try discriminate Hobs.
  exists snaps, s', gens, v2. split; [exact Hrun|].
  split; [exact Hg0|]. split; [exact Hglast|].
  rewrite <- Hviews.
  split; [reflexivity|].
  injection Hobs as E0 E1 E2. subst v0 v1 v2.
  destruct (Hrule 2%nat _ eq_refl) as (g & g' & _ & _ & _ & _ & _ & _ & Hnever).
  apply Hnever; [reflexivity|].
  vm_compute. discriminate.
Defined.

Lemma one_snapshot_per_student_witness :
  has_column fallback_df "id" = true /\
  has_column fallback_df "gpa" = true /\
  exists snaps s',
    allocation_steps (RM := reference_random) (FS := reference_sort)
      fallback_df 0%nat 2 true (Some 42) (store_with fallback_caps) = (inr snaps, s') /\
    List.length snaps = 3%nat.
Proof.
  split; [reflexivity|]. split; [reflexivity|].
  destruct (one_snapshot_per_student (RM := reference_random) (FS := reference_sort)
              fallback_df 0%nat 2 true (Some 42) (store_with fallback_caps)
              eq_refl eq_refl)
    as (snaps & s' & order & Hrun & Hlen & _).
  exists snaps, s'. split; [exact Hrun|exact Hlen].
Defined.

Lemma test_ids_exact : ids_exact fallback_df.
Proof.
  intros r [<-|[<-|[<-|[]]]]; discriminate.
Defined.

Lemma test_labels_distinct : labels_distinct fallback_df.
Proof.
  unfold labels_distinct. simpl. repeat constructor; simpl; intuition discriminate.
Defined.

Lemma capacity_conservation_witness :
  (false = true -> ids_exact fallback_df) /\
  NoDup (map row_id (rows fallback_df)) /\
  exists snaps s',
    allocation_steps_labels (RM := reference_random) (FS := reference_sort)
      (iterrows_view false fallback_df) 0%nat 2 true (Some 42)
      (store_with fallback_caps) = (inr snaps, s') /\
    forall v, final_view (map (view s') snaps) = Some v ->
      1 - dict_get String.eqb (v_remaining v) "Engineering Science" 0
      = Z.of_nat (count_assigned (v_assignments v) "Engineering Science").
Proof.
  split; [exact (fun _ => test_ids_exact)|]. split; [exact test_ids_distinct|].
  destruct (@capacity_conservation reference_random reference_sort
              fallback_df false 0%nat 2 true (Some 42) (store_with fallback_caps)
              (fun _ => test_ids_exact) test_ids_distinct)
    as [Hreturns Hcons].
  destruct (Hreturns eq_refl eq_refl test_labels_distinct) as (snaps & s' & Hrun).
  exists snaps, s'. split; [exact Hrun|].
  intros v Hv. destruct (Hcons snaps s' v Hrun Hv) as [_ Hc].
  exact (Hc "Engineering Science").
Defined.

Lemma assignment_map_monotonic_witness :
  exists snaps s',
    allocation_steps_labels (RM := reference_random) (FS := reference_sort)
      (iterrows_view false fallback_df) 0%nat 2 true (Some 42)
      (store_with fallback_caps) = (inr snaps, s') /\
    forall vi vj,
      nth_error (map (view s') snaps) 0 = Some vi ->
      nth_error (map (view s') snaps) 2 = Some vj ->
      incl (dict_keys (v_assignments vi)) (dict_keys (v_assignments vj)) /\
      List.length (v_assignments vi) = 1%nat /\
      List.length (v_assignments vj) = 3%nat.
Proof.
  destruct (@assignment_map_monotonic reference_random reference_sort
              fallback_df false 0%nat 2 true (Some 42) (store_with fallback_caps))
    as [Hreturns Hmono].
  destruct (Hreturns eq_refl eq_refl test_labels_distinct) as (snaps & s' & Hrun).
  exists snaps, s'. split; [exact Hrun|].
  intros vi vj Hi Hj.
  assert (Hlt : (0 < 2)%nat) by (do 2 constructor).
  destruct (Hmono snaps s' Hrun 0%nat 2%nat vi vj Hlt Hi Hj) as [Hincl Hrest].
  destruct (Hrest (fun _ => test_ids_exact) test_ids_distinct)
    as (_ & Hli & Hlj & _).
  split; [exact Hincl|]. split; [exact Hli|exact Hlj].
Defined.

(** C4 fails as stated.  Two students with the same identifier 7, scores
    9 and 8 and the preferences Software, Mechanical, one seat in each
    category: the first student takes the Software seat and the second,
    who takes the Mechanical seat, replaces the first in the assignment
    map.  At the final snapshot the capacity of Software has gone down by
    one and nobody's final assignment is Software. *)
Lemma capacity_conservation_counterexample :
  map row_id (rows twin_df) = [7; 7] /\
  forall (RM : RandomModule) (FS : FrameSort) (cd : ref) (fb : bool)
    (seed : option Z) (s : store),
    nth cd (caps_heap s) [] = priority_caps ->
    exists snaps s' v,
      allocation_steps_labels (iterrows_view false twin_df) cd 2 fb seed s
      = (inr snaps, s') /\
      final_view (map (view s') snaps) = Some v /\
      v_assignments v = [(7, Some "Mechanical")] /\
      dict_get String.eqb (nth cd (caps_heap s) []) "Software" 0
      - dict_get String.eqb (v_remaining v) "Software" 0 = 1 /\
      Z.of_nat (count_assigned (v_assignments v) "Software") = 0.
Proof.
  split; [reflexivity|]. intros RM FS cd fb seed s Hcaps.
  assert (Hl : labels_distinct twin_df)
    by (repeat constructor; cbn; intuition discriminate).
  change (iterrows_view false twin_df) with twin_df.
  rewrite (@allocation_steps_labels_distinct _ _ twin_df cd 2 fb seed s Hl).
  destruct (valid_returns twin_df cd 2 fb seed s eq_refl eq_refl)
    as (snaps & s' & Hrun).
  destruct (returned_views _ _ _ _ _ _ Hrun) as (_ & _ & Hv).
  assert (Ht : trace twin_df cd 2 fb seed s
               = [mkView 7 9 ["Software"; "Mechanical"] (Some "Software")
                    (decrement priority_caps "Software") [(7, Some "Software")];
                  mkView 7 8 ["Software"; "Mechanical"] (Some "Mechanical")
                    (decrement (decrement priority_caps "Software") "Mechanical")
                    [(7, Some "Mechanical")]]).
  { rewrite (@two_students_trace _ _ twin_df cd 2 fb seed s
               (mkRow 7 9 test_prefs) (mkRow 7 8 test_prefs)
               "Software" "Mechanical");
      rewrite ?Hcaps;
      [reflexivity|apply Permutation_refl|reflexivity|reflexivity|reflexivity
      |discriminate|reflexivity|reflexivity]. }
  rewrite Ht in Hv.
  eexists snaps, s', _. split; [exact Hrun|]. rewrite Hv, Hcaps.
  split; [reflexivity|]. split; [reflexivity|]. split; reflexivity.
Qed.

(** C5 fails as stated.  In the same run the second step adds no entry to
    the assignment map, and the value under the key 7 changes from
    Software in the first snapshot to Mechanical in the second. *)
Lemma assignment_map_counterexample :
  map row_id (rows twin_df) = [7; 7] /\
  forall (RM : RandomModule) (FS : FrameSort) (cd : ref) (fb : bool)
    (seed : option Z) (s : store),
    nth cd (caps_heap s) [] = priority_caps ->
    exists snaps s' v0 v1,
      allocation_steps_labels (iterrows_view false twin_df) cd 2 fb seed s
      = (inr snaps, s') /\
      nth_error (map (view s') snaps) 0 = Some v0 /\
      nth_error (map (view s') snaps) 1 = Some v1 /\
      dict_lookup Z.eqb (v_assignments v0) 7 = Some (Some "Software") /\
      dict_lookup Z.eqb (v_assignments v1) 7 = Some (Some "Mechanical") /\
      List.length (v_assignments v0) = 1%nat /\
      List.length (v_assignments v1) = 1%nat.
Proof.
  split; [reflexivity|]. intros RM FS cd fb seed s Hcaps.
  assert (Hl : labels_distinct twin_df)
    by (repeat constructor; cbn; intuition discriminate).
  change (iterrows_view false twin_df) with twin_df.
  rewrite (@allocation_steps_labels_distinct _ _ twin_df cd 2 fb seed s Hl).
  destruct (valid_returns twin_df cd 2 fb seed s eq_refl eq_refl)
    as (snaps & s' & Hrun).
  destruct (returned_views _ _ _ _ _ _ Hrun) as (_ & _ & Hv).
  rewrite (@two_students_trace _ _ twin_df cd 2 fb seed s
             (mkRow 7 9 test_prefs) (mkRow 7 8 test_prefs)
             "Software" "Mechanical") in Hv;
    rewrite ?Hcaps;
    [|apply Permutation_refl|reflexivity|reflexivity|reflexivity
     |discriminate|reflexivity|reflexivity].
  eexists snaps, s', _, _. split; [exact Hrun|]. rewrite Hv.
  split; [reflexivity|]. split; [reflexivity|]. repeat split.
Qed.

(** C7 fails as stated.  A table with the identifier and score columns in
    which the label ["pref1"] occurs twice: the call raises [ValueError]
    although neither required column is lacking, and it does so after the
    capacity dictionary has been copied and the assignment dictionary
    created, when line 238 takes the truth value of a Series for the
    first student. *)
Lemma missing_column_counterexample :
  has_column repeated_label_df "id" = true /\
  has_column repeated_label_df "gpa" = true /\
  forall (RM : RandomModule) (FS : FrameSort) (cd : ref) (fb : bool)
    (seed : option Z) (s : store),
    allocation_steps_labels repeated_label_df cd 5 fb seed s
    = (inl ValueError,
       mkStore (caps_heap s ++ [nth cd (caps_heap s) []]) (asg_heap s ++ [[]])
         (seeded seed s)).
Proof.
  split; [reflexivity|]. split; [reflexivity|]. intros RM FS cd fb seed s.
  unfold allocation_steps_labels.
  assert (Hsort : sort_values_desc (rows repeated_label_df)
                  = [mkRow 1 9 test_prefs]).
  { apply Permutation_length_1_inv.
    apply (sort_values_perm (rows repeated_label_df)). }
  rewrite Hsort. destruct seed, s; reflexivity.
Qed.

Lemma seeded_runs_agree_witness :
  nth 0%nat (caps_heap (store_with fallback_caps)) []
  = nth 1%nat (caps_heap other_store) [] /\
  observe (allocation_steps (RM := reference_random) (FS := reference_sort)
             fallback_df 0%nat 2 true (Some 42) (store_with fallback_caps))
  = observe (allocation_steps (RM := reference_random) (FS := reference_sort)
               fallback_df 1%nat 2 true (Some 42) other_store).
Proof.
  split; [reflexivity|].
  exact (proj1 (seeded_runs_agree (RM := reference_random) (FS := reference_sort)
                  fallback_df 0%nat 1%nat 2 true 42
                  (store_with fallback_caps) other_store eq_refl)).
Defined.

Lemma capacity_argument_unchanged_witness :
  (0 < List.length (caps_heap (store_with fallback_caps)))%nat /\
  nth 0%nat
    (caps_heap
       (snd (allocation_steps (RM := reference_random) (FS := reference_sort)
               fallback_df 0%nat 2 true (Some 42) (store_with fallback_caps)))) []
  = fallback_caps.
Proof.
  split; [simpl; lia|].
  exact (proj1 (capacity_argument_unchanged (RM := reference_random)
                  (FS := reference_sort) fallback_df 2 true (Some 42)
                  (store_with fallback_caps) (cd := 0%nat) ltac:(simpl; lia))).
Defined.

(** ** The sampler: lists, draws and pops *)

Lemma accumulate_from_length (acc : float) (l : list float) :
  List.length (accumulate_from acc l) = List.length l.
Proof.
  revert acc. induction l as [|x l IH]; intros acc; simpl; [reflexivity|].
  now rewrite IH.
Qed.

Lemma accumulate_length (l : list float) :
  List.length (accumulate l) = List.length l.
Proof.
  destruct l as [|x l]; simpl; [reflexivity|].
  now rewrite accumulate_from_length.
Qed.

(** The loop of [bisect] stays within its bounds, and [hi - lo] rounds are
    enough: more fuel gives the same index. *)
Lemma bisect_loop_bounds (fuel : nat) (a : list float) (x : float) :
  forall lo hi, (lo <= hi)%nat ->
    (lo <= bisect_loop fuel a x lo hi <= hi)%nat.
Proof.
  induction fuel as [|fuel IH]; intros lo hi Hle; cbn [bisect_loop]; [lia|].
  destruct (lo <? hi)%nat eqn:E; [|lia].
  apply Nat.ltb_lt in E.
  assert (Hmid : (lo <= (lo + hi) / 2 < hi)%nat).
  { split.
    - apply Nat.div_le_lower_bound; lia.
    - apply Nat.Div0.div_lt_upper_bound; lia. }
  destruct (x <? nth ((lo + hi) / 2) a nan)%float.
  - specialize (IH lo ((lo + hi) / 2)%nat ltac:(lia)). lia.
  - specialize (IH ((lo + hi) / 2 + 1)%nat hi ltac:(lia)). lia.
Qed.

Lemma bisect_loop_fuel (fuel : nat) (a : list float) (x : float) :
  forall lo hi extra, (hi - lo <= fuel)%nat ->
    bisect_loop (fuel + extra) a x lo hi = bisect_loop fuel a x lo hi.
Proof.
  induction fuel as [|fuel IH]; intros lo hi extra Hf.
  - destruct extra; cbn [Nat.add bisect_loop]; [reflexivity|].
    assert (E : (lo <? hi)%nat = false) by (apply Nat.ltb_ge; lia).
    now rewrite E.
  - cbn [Nat.add bisect_loop]. destruct (lo <? hi)%nat eqn:E; [|reflexivity].
    apply Nat.ltb_lt in E.
    assert (Hmid : (lo <= (lo + hi) / 2 < hi)%nat).
    { split.
      - apply Nat.div_le_lower_bound; lia.
      - apply Nat.Div0.div_lt_upper_bound; lia. }
    destruct (x <? nth ((lo + hi) / 2) a nan)%float; apply IH; lia.
Qed.

Lemma bisect_bounds (a : list float) (x : float) (lo hi : nat) :
  (lo <= hi)%nat -> (lo <= bisect a x lo hi <= hi)%nat.
Proof. apply bisect_loop_bounds. Qed.

Lemma weighted_scan_bounds (r : float) (probs : list float) :
  forall cum idx, probs <> [] ->
    idx <= weighted_scan r cum idx probs < idx + Z.of_nat (List.length probs).
Proof.
  induction probs as [|p probs IH]; intros cum idx Hne; [contradiction|].
  cbn [weighted_scan List.length].
  destruct (r <=? cum + p)%float; [lia|].
  destruct probs as [|q probs].
  - cbn [weighted_scan List.length]. lia.
  - specialize (IH (cum + p)%float (idx + 1) ltac:(discriminate)).
    cbn [List.length] in *. lia.
Qed.

Lemma remove_at_middle {A} (l1 : list A) (y : A) (l2 : list A) :
  firstn (List.length l1) (l1 ++ y :: l2)
    ++ skipn (S (List.length l1)) (l1 ++ y :: l2)
  = l1 ++ l2.
Proof.
  induction l1 as [|a l1 IH]; [reflexivity|].
  cbn [List.length app firstn skipn]. f_equal. exact IH.
Qed.

Lemma py_pop_perm {A} (l : list A) (idx : Z) (x : A) (rest : list A) :
  py_pop l idx = inr (x, rest) ->
  Permutation l (x :: rest) /\ S (List.length rest) = List.length l.
Proof.
  unfold py_pop.
  set (i := if idx <? 0 then idx + Z.of_nat (List.length l) else idx).
  destruct ((i <? 0) || (Z.of_nat (List.length l) <=? i)); [discriminate|].
  destruct (nth_error l (Z.to_nat i)) as [y|] eqn:E; [|discriminate].
  intros [= <- <-].
  apply nth_error_split in E. destruct E as (l1 & l2 & -> & Hlen).
  rewrite <- Hlen.
  change (match l1 ++ y :: l2 with
          | [] => []
          | _ :: l => skipn (List.length l1) l
          end)
    with (skipn (S (List.length l1)) (l1 ++ y :: l2)).
  rewrite remove_at_middle. split.
  - apply Permutation_sym, Permutation_middle.
  - rewrite !length_app. cbn [List.length]. lia.
Qed.

Lemma py_pop_total {A} (l : list A) (idx : Z) :
  0 <= idx < Z.of_nat (List.length l) ->
  exists x rest, py_pop l idx = inr (x, rest).
Proof.
  intros Hi. unfold py_pop.
  assert (E1 : (idx <? 0) = false) by (apply Z.ltb_ge; lia). rewrite E1.
  assert (E2 : (Z.of_nat (List.length l) <=? idx) = false) by (apply Z.leb_gt; lia).
  rewrite E1, E2. cbn [orb].
  destruct (nth_error l (Z.to_nat idx)) as [y|] eqn:E; [eauto|].
  apply nth_error_None in E. lia.
Qed.

(** ** The sampler in the store *)

Section SamplerFacts.
Context {RM : RandomModule}.
Variable math_exp : float -> float.
Variable libm_pow2 : float -> float.

Lemma bind_inr {A B} (m : M A) (k : A -> M B) (s s' : store) (b : B) :
  bind m k s = (inr b, s') ->
  exists a s1, m s = (inr a, s1) /\ k a s1 = (inr b, s').
Proof.
  unfold bind. destruct (m s) as [[e|a] s1]; [discriminate|]. eauto.
Qed.

Lemma bind_run {A B} (m : M A) (k : A -> M B) (s s1 : store) (a : A) :
  m s = (inr a, s1) -> bind m k s = k a s1.
Proof. unfold bind. now intros ->. Qed.

Lemma bind_raise {A B} (m : M A) (k : A -> M B) (s s1 : store) (e : exn) :
  m s = (inl e, s1) -> bind m k s = (inl e, s1).
Proof. unfold bind. now intros ->. Qed.

Lemma random_random_run (s : store) :
  exists r s', random_random s = (inr r, s').
Proof.
  unfold random_random. destruct (random_float (random_state s)). eauto.
Qed.

Lemma repeat_draw_inv {A} (P : A -> Prop) (draw : M A) :
  (forall s a s', draw s = (inr a, s') -> P a) ->
  forall k s l s', repeat_draw k draw s = (inr l, s') ->
    Forall P l /\ List.length l = k.
Proof.
  intros Hd. induction k as [|k IH]; intros s l s' H; cbn [repeat_draw] in H.
  - injection H as <- _. split; [constructor|reflexivity].
  - apply bind_inr in H. destruct H as (a & s1 & Ha & H).
    apply bind_inr in H. destruct H as (xs & s2 & Hxs & H).
    injection H as <- _. destruct (IH _ _ _ Hxs) as [HF HL].
    split; [constructor; eauto|simpl; lia].
Qed.

Lemma repeat_draw_total {A} (draw : M A) :
  (forall s, exists a s', draw s = (inr a, s')) ->
  forall k s, exists l s', repeat_draw k draw s = (inr l, s') /\ List.length l = k.
Proof.
  intros Hd. induction k as [|k IH]; intros s; cbn [repeat_draw].
  - exists [], s. split; reflexivity.
  - destruct (Hd s) as (a & s1 & Ha). destruct (IH s1) as (l & s2 & Hl & Hlen).
    exists (a :: l), s2.
    erewrite bind_run; [|exact Ha]. erewrite bind_run; [|exact Hl].
    split; [reflexivity|simpl; lia].
Qed.

(** [random.choices] returns elements of the population, [k] of them. *)
Lemma random_choices_inv (population weights : list float) (k : Z)
    (s s' : store) (l : list float) :
  random_choices population weights k s = (inr l, s') ->
  Forall (fun x => In x population) l /\
  List.length l = Z.to_nat k /\
  List.length weights = List.length population.
Proof.
  unfold random_choices.
  destruct (List.length (accumulate weights) =? List.length population)%nat eqn:El;
    cbn [negb]; [|discriminate].
  apply Nat.eqb_eq in El.
  destruct (rev (accumulate weights)) as [|final t] eqn:Er; [discriminate|].
  destruct (final + 0 <=? 0)%float; [discriminate|].
  destruct (negb (is_finite (final + 0))); [discriminate|].
  intros H.
  assert (Hpos : (0 < List.length population)%nat).
  { rewrite <- El, <- length_rev, Er. simpl. lia. }
  eapply repeat_draw_inv with (P := fun x => In x population) in H.
  - destruct H as [HF HL]. repeat split; auto.
    now rewrite <- accumulate_length.
  - intros s0 a s0' Hd. apply bind_inr in Hd.
    destruct Hd as (r & s1 & _ & Hret). injection Hret as <- _.
    apply nth_In.
    pose proof (bisect_bounds (accumulate weights) (r * (final + 0))%float
                  (lo := 0) (hi := List.length population - 1) ltac:(lia)).
    lia.
Qed.

(** It raises only for a wrong number of weights or a total that is not a
    positive finite number. *)
Lemma random_choices_total (population weights : list float) (k : Z)
    (s : store) (final : float) (t : list float) :
  List.length weights = List.length population ->
  rev (accumulate weights) = final :: t ->
  (final + 0 <=? 0)%float = false ->
  is_finite (final + 0) = true ->
  exists l s', random_choices population weights k s = (inr l, s').
Proof.
  intros Hlen Hr Hpos Hfin. unfold random_choices.
  rewrite accumulate_length, Hlen, Nat.eqb_refl. cbn [negb].
  rewrite Hr, Hpos, Hfin. cbn [negb].
  destruct (repeat_draw_total
              (r <- random_random ;;
               ret (nth (bisect (accumulate weights) (r * (final + 0))%float 0
                           (List.length population - 1)) population nan))
              (fun s0 => ltac:(destruct (random_random_run s0) as (r & s1 & Hr0);
                               exists (nth (bisect (accumulate weights)
                                              (r * (final + 0))%float 0
                                              (List.length population - 1))
                                         population nan), s1;
                               erewrite bind_run; [reflexivity|exact Hr0]))
              (Z.to_nat k) s) as (l & s' & Hl & _).
  eauto.
Qed.

Lemma lift_inr {A} (r : exn + A) (s s' : store) (a : A) :
  lift r s = (inr a, s') -> r = inr a /\ s' = s.
Proof.
  destruct r as [e|a0]; cbn [lift]; unfold raise, ret; [discriminate|].
  now intros [= -> ->].
Qed.

Lemma map_exn_inv {A B} (f : A -> exn + B) (l : list A) (ys : list B) :
  map_exn f l = inr ys ->
  List.length ys = List.length l /\
  forall y, In y ys -> exists x, In x l /\ f x = inr y.
Proof.
  revert ys. induction l as [|x l IH]; intros ys; cbn [map_exn].
  - intros [= <-]. split; [reflexivity|intros y []].
  - destruct (f x) as [e|y0] eqn:Ef; [discriminate|].
    destruct (map_exn f l) as [e|ys0]; [discriminate|].
    intros [= <-]. destruct (IH ys0 eq_refl) as [HL HI].
    split; [simpl; lia|].
    intros y [<-|Hy].
    + exists x. split; [now left|exact Ef].
    + destruct (HI y Hy) as (x' & Hx' & Hf). exists x'. split; [now right|exact Hf].
Qed.

Lemma map_exn_total {A B} (f : A -> exn + B) (g : A -> B) (l : list A) :
  (forall x, In x l -> f x = inr (g x)) ->
  map_exn f l = inr (map g l).
Proof.
  induction l as [|x l IH]; intros H; cbn [map_exn map]; [reflexivity|].
  rewrite (H x (or_introl eq_refl)), IH; [reflexivity|].
  intros y Hy. apply H. now right.
Qed.

Lemma stored_gpas_inv (gpas : list float) (n : nat) (scores : list float) :
  stored_gpas gpas n = inr scores ->
  List.length scores = n /\
  forall x, In x scores -> exists g, In g gpas /\ x = py_round g 3.
Proof.
  unfold stored_gpas. intros H. apply map_exn_inv in H. destruct H as [HL HI].
  rewrite length_seq in HL. split; [exact HL|].
  intros x Hx. destruct (HI x Hx) as (i & _ & Hi).
  destruct (nth_error gpas i) as [g|] eqn:E; [|discriminate].
  injection Hi as <-. exists g. split; [|reflexivity].
  eapply nth_error_In; eauto.
Qed.

Lemma stored_gpas_total (gpas : list float) (n : nat) :
  (n <= List.length gpas)%nat ->
  exists scores, stored_gpas gpas n = inr scores /\
    forall g, In g (firstn n gpas) -> In (py_round g 3) scores.
Proof.
  intros Hn. unfold stored_gpas.
  exists (map (fun i => py_round (nth i gpas nan) 3) (seq 0 n)). split.
  - apply map_exn_total. intros i Hi. apply in_seq in Hi.
    destruct (nth_error gpas i) as [g|] eqn:E.
    + now rewrite (nth_error_nth _ _ nan E).
    + apply nth_error_None in E. lia.
  - intros g Hg. apply In_nth with (d := nan) in Hg.
    destruct Hg as (i & Hi & <-). rewrite length_firstn in Hi.
    assert (Hin : (i < n)%nat) by lia.
    apply in_map_iff. exists i. split.
    + rewrite nth_firstn. apply Nat.ltb_lt in Hin. now rewrite Hin.
    + apply in_seq. lia.
Qed.

Lemma weighted_pop_run (probs_list : list float) (s : store) :
  exists r s',
    weighted_pop probs_list s = (inr (weighted_scan r 0%float 0 probs_list), s').
Proof.
  unfold weighted_pop. destruct (random_random_run s) as (r & s' & Hr).
  exists r, s'. erewrite bind_run; [reflexivity|exact Hr].
Qed.

(** The loop without replacement only returns what it was given. *)
Lemma draw_without_replacement_inv (rounds : nat) :
  forall choices choice_probs gpas s drawn s',
    draw_without_replacement rounds choices choice_probs gpas s = (inr drawn, s') ->
    List.length drawn = (List.length gpas + rounds)%nat /\
    forall x, In x drawn -> In x gpas \/ In x choices.
Proof.
  induction rounds as [|rounds IH]; intros choices choice_probs gpas s drawn s' H;
    cbn [draw_without_replacement] in H.
  - injection H as <- _. split; [lia|auto].
  - apply bind_inr in H. destruct H as (idx & s1 & _ & H).
    apply bind_inr in H. destruct H as ([x0 rest] & s2 & Hp & H).
    apply lift_inr in Hp. destruct Hp as [Hp _].
    apply bind_inr in H. destruct H as ([p0 prest] & s3 & _ & H).
    cbn [fst snd] in H. apply IH in H. destruct H as [HL HI].
    apply py_pop_perm in Hp. destruct Hp as [Hperm _].
    split.
    + rewrite HL, length_app. simpl. lia.
    + intros x Hx. destruct (HI x Hx) as [Hg|Hr].
      * apply in_app_or in Hg. destruct Hg as [Hg|[<-|[]]]; [now left|].
        right. eapply Permutation_in; [apply Permutation_sym, Hperm|now left].
      * right. eapply Permutation_in; [apply Permutation_sym, Hperm|now right].
Qed.

(** Given as many weights as choices it never raises, and what it returns
    together with what it leaves is what it was given. *)
Lemma draw_without_replacement_total (rounds : nat) :
  forall choices choice_probs gpas s,
    List.length choice_probs = List.length choices ->
    (rounds <= List.length choices)%nat ->
    exists drawn rest s',
      draw_without_replacement rounds choices choice_probs gpas s = (inr drawn, s') /\
      Permutation (drawn ++ rest) (gpas ++ choices) /\
      List.length rest = (List.length choices - rounds)%nat.
Proof.
  induction rounds as [|rounds IH]; intros choices choice_probs gpas s Hlen Hr;
    cbn [draw_without_replacement].
  - exists gpas, choices, s. repeat split; [apply Permutation_refl|lia].
  - destruct (weighted_pop_run choice_probs s) as (r & s1 & Hw).
    assert (Hne : choice_probs <> []).
    { intros ->. simpl in Hlen. lia. }
    pose proof (weighted_scan_bounds r 0%float 0 Hne) as Hb.
    set (idx := weighted_scan r 0%float 0 choice_probs) in *.
    destruct (py_pop_total choices (idx := idx) ltac:(lia)) as (x0 & rest0 & Hp).
    destruct (py_pop_total choice_probs (idx := idx) ltac:(lia)) as (p0 & prest & Hpp).
    destruct (py_pop_perm _ _ Hp) as [Hperm Hl1].
    destruct (py_pop_perm _ _ Hpp) as [_ Hl2].
    set (probs' := if (0 <? py_sum prest)%float
                   then map (fun p => (p / py_sum prest)%float) prest
                   else prest).
    assert (Hlen' : List.length probs' = List.length rest0).
    { unfold probs'. destruct (0 <? py_sum prest)%float;
        [rewrite length_map|]; lia. }
    destruct (IH rest0 probs' (gpas ++ [x0]) s1 Hlen' ltac:(lia))
      as (drawn & rest & s' & Hrun & Hperm' & Hl').
    exists drawn, rest, s'.
    erewrite bind_run; [|exact Hw].
    rewrite Hp. cbn [lift]. unfold ret at 1. unfold bind at 1.
    rewrite Hpp. cbn [lift]. unfold ret at 1. unfold bind at 1.
    cbn [fst snd]. fold probs'. split; [exact Hrun|]. split; [|lia].
    eapply perm_trans; [exact Hperm'|].
    rewrite <- app_assoc. apply Permutation_app_head.
    cbn [app]. now apply Permutation_sym.
Qed.

Lemma allowed_gpas_in (gpa_min gpa_max g : float) :
  In g (allowed_gpas gpa_min gpa_max) <->
  (exists i, (i < 64)%nat /\
     g = py_round (gpa_min + float_of_nat i * ((gpa_max - gpa_min) / 63))%float 6) /\
  (gpa_min <=? g)%float = true /\ (g <=? gpa_max)%float = true.
Proof.
  unfold allowed_gpas, grid_levels. rewrite filter_In, in_map_iff, andb_true_iff.
  split.
  - intros [(i & <- & Hi) Hb]. apply in_seq in Hi. split; [|exact Hb].
    exists i. split; [lia|reflexivity].
  - intros [(i & Hi & ->) Hb]. split; [|exact Hb].
    exists i. split; [reflexivity|apply in_seq; lia].
Qed.

Lemma allowed_gpas_length (gpa_min gpa_max : float) :
  (List.length (allowed_gpas gpa_min gpa_max) <= 64)%nat.
Proof.
  unfold allowed_gpas, grid_levels.
  eapply Nat.le_trans; [apply filter_length_le|].
  now rewrite length_map, length_seq.
Qed.

Lemma level_probs_nil (mean std : float) :
  level_probs math_exp libm_pow2 [] mean std = inr [].
Proof.
  unfold level_probs. cbn [map_exn map].
  now destruct (py_sum [] <=? 0)%float.
Qed.

Lemma level_probs_length (allowed : list float) (mean std : float)
    (probs : list float) :
  level_probs math_exp libm_pow2 allowed mean std = inr probs ->
  List.length probs = List.length allowed.
Proof.
  unfold level_probs.
  destruct (map_exn (fun g => normal_pdf math_exp libm_pow2 g mean std) allowed)
    as [e|weights] eqn:Ew; [discriminate|].
  apply map_exn_inv in Ew. destruct Ew as [Hl _].
  intros H. apply map_exn_inv in H. destruct H as [Hl' _]. rewrite Hl'.
  destruct (py_sum weights <=? 0)%float; [rewrite length_map|]; exact Hl.
Qed.

Lemma pop_empty_raises {A} (idx : Z) : py_pop (@nil A) idx = inl IndexError.
Proof.
  unfold py_pop. cbn [List.length Z.of_nat].
  destruct (idx <? 0) eqn:E.
  - apply Z.ltb_lt in E.
    assert (E' : (idx + 0 <? 0) = true) by (apply Z.ltb_lt; lia).
    now rewrite E'.
  - apply Z.ltb_ge in E.
    assert (E' : (0 <=? idx) = true) by (apply Z.leb_le; lia).
    rewrite E'. now rewrite orb_true_r.
Qed.

Lemma draw_without_weights_raises (rounds : nat) (choices gpas : list float)
    (s s' : store) (drawn : list float) :
  draw_without_replacement (S rounds) choices [] gpas s <> (inr drawn, s').
Proof.
  cbn [draw_without_replacement]. intros H.
  apply bind_inr in H. destruct H as (idx & s1 & _ & H).
  apply bind_inr in H. destruct H as (popped & s2 & _ & H).
  apply bind_inr in H. destruct H as (pp & s3 & Hp & _).
  apply lift_inr in Hp. destruct Hp as [Hp _].
  rewrite pop_empty_raises in Hp. discriminate.
Qed.

Lemma generate_gpas_inv (n_students : Z) (gpa_min gpa_max : float)
    (seed : option Z) (mean std : option float) (wr : bool)
    (s s' : store) (scores : list float) :
  generate_gpas math_exp libm_pow2 n_students gpa_min gpa_max seed mean std wr s
  = (inr scores, s') ->
  List.length scores = Z.to_nat n_students /\
  forall x, In x scores ->
    exists g, In g (allowed_gpas gpa_min gpa_max) /\ x = py_round g 3.
Proof.
  unfold generate_gpas. intros H.
  apply bind_inr in H. destruct H as (_ & s0 & _ & H).
  apply bind_inr in H. destruct H as (probs & s1 & Hprobs & H).
  apply lift_inr in Hprobs. destruct Hprobs as [Hprobs _].
  apply level_probs_length in Hprobs.
  apply bind_inr in H. destruct H as (pool & s2 & Hpool & H).
  apply bind_inr in H. destruct H as (gpas & s3 & Hgpas & H).
  apply lift_inr in H. destruct H as [H _].
  apply stored_gpas_inv in H. destruct H as [HL HI].
  split; [exact HL|].
  assert (Hsub : forall g, In g gpas -> In g pool).
  { destruct wr.
    - apply random_choices_inv in Hgpas. destruct Hgpas as (HF & _ & _).
      now apply Forall_forall.
    - apply bind_inr in Hgpas. destruct Hgpas as (drawn & s4 & Hd & Hgpas).
      apply draw_without_replacement_inv in Hd. destruct Hd as [_ Hd].
      destruct (Z.of_nat (List.length drawn) <? n_students).
      + apply bind_inr in Hgpas. destruct Hgpas as (extras & s5 & He & Hret).
        injection Hret as <- _.
        apply random_choices_inv in He. destruct He as (HF & _ & _).
        intros g Hg. apply in_app_or in Hg. destruct Hg as [Hg|Hg].
        * destruct (Hd g Hg) as [[]|]; assumption.
        * rewrite Forall_forall in HF. now apply HF.
      + injection Hgpas as <- _. intros g Hg.
        destruct (Hd g Hg) as [[]|]; assumption. }
  destruct (allowed_gpas gpa_min gpa_max) as [|g0 allowed] eqn:Ea.
  - (* an empty grid: the draws raise, or there is no student *)
    assert (Hnone : gpas = []).
    { apply repeat_draw_inv with (P := fun _ => True) in Hpool; [|auto].
      destruct Hpool as [_ Hlen]. cbn [List.length] in Hprobs.
      destruct probs; [|discriminate].
      destruct wr.
      - apply random_choices_inv in Hgpas. destruct Hgpas as (_ & _ & Hw).
        cbn [List.length] in Hw. lia.
      - apply bind_inr in Hgpas. destruct Hgpas as (drawn & s4 & Hd & Hgpas).
        destruct (Z.to_nat (Z.min n_students (Z.of_nat (List.length pool))))
          as [|rounds] eqn:Er.
        + cbn [draw_without_replacement] in Hd. injection Hd as <- _.
          cbn [List.length Z.of_nat] in Hgpas.
          destruct (0 <? n_students) eqn:En.
          * apply Z.ltb_lt in En. lia.
          * now injection Hgpas as <- _.
        + exfalso. eapply draw_without_weights_raises. exact Hd. }
    subst gpas. intros x Hx. destruct (HI x Hx) as (g & [] & _).
  - injection Hpool as <- _.
    intros x Hx. destruct (HI x Hx) as (g & Hg & ->).
    exists g. split; [now apply Hsub|reflexivity].
Qed.

(** Uniform weights over [n] levels, [1 <= n <= 64]: the ones sum to [n],
    [1.0 / n] is defined and not negative, and the weights are accepted by
    [random.choices]. *)
Lemma uniform_weights_facts (n : nat) :
  (1 <= n <= 64)%nat ->
  py_sum (repeat 1%float n) = float_of_nat n /\
  PrimFloat.eqb (float_of_nat n) 0 = false /\
  (0 <=? 1 / float_of_nat n)%float = true /\
  total_ok (repeat (1 / float_of_nat n)%float n) = true.
Proof.
  intros [H1 H2].
  do 65 (destruct n as [|n]; [try lia; repeat split; reflexivity|]).
  lia.
Qed.

Lemma uniform_weights_sum_64 :
  py_sum (repeat (1 / float_of_nat 64)%float 64) = 1%float.
Proof. reflexivity. Qed.

Lemma py_sum_zeros (n : nat) : py_sum (repeat 0%float n) = 0%float.
Proof.
  unfold py_sum. induction n as [|n IH]; [reflexivity|].
  cbn [repeat fold_left]. exact IH.
Qed.

Lemma normal_pdf_degenerate (x mu sigma : float) :
  (sigma <=? 0)%float = true ->
  normal_pdf math_exp libm_pow2 x mu sigma = inr 0%float.
Proof. unfold normal_pdf. now intros ->. Qed.

Lemma density_degenerate (allowed : list float) (mu sigma : float) :
  (sigma <=? 0)%float = true ->
  map_exn (fun g => normal_pdf math_exp libm_pow2 g mu sigma) allowed
  = inr (repeat 0%float (List.length allowed)) /\
  (py_sum (repeat 0%float (List.length allowed)) <=? 0)%float = true.
Proof.
  intros Hs. split.
  - rewrite <- map_const. apply map_exn_total.
    intros x _. now apply normal_pdf_degenerate.
  - now rewrite py_sum_zeros.
Qed.

(** Lines 62-70 when the density sums to zero or less: every level gets
    the weight [1.0 / n]. *)
Lemma level_probs_degenerate (allowed : list float) (mu sigma : float)
    (ws : list float) :
  map_exn (fun g => normal_pdf math_exp libm_pow2 g mu sigma) allowed = inr ws ->
  (py_sum ws <=? 0)%float = true ->
  (1 <= List.length allowed <= 64)%nat ->
  level_probs math_exp libm_pow2 allowed mu sigma
  = inr (repeat (1 / float_of_nat (List.length allowed))%float (List.length allowed)).
Proof.
  intros Hws Hsum Hn. unfold level_probs. rewrite Hws, Hsum.
  apply map_exn_inv in Hws. destruct Hws as [Hl _].
  rewrite map_const, Hl.
  destruct (uniform_weights_facts Hn) as (F1 & F2 & _).
  rewrite F1.
  rewrite (map_exn_total (fun w => py_div w (float_of_nat (List.length allowed)))
             (fun w => (w / float_of_nat (List.length allowed))%float)).
  - now rewrite map_repeat.
  - intros w _. unfold py_div. now rewrite F2.
Qed.

(** From weights [random.choices] accepts, one per level, the draws of both
    modes complete and a score is stored for every student. *)
Lemma generate_gpas_returns (n_students : Z) (gpa_min gpa_max : float)
    (seed : option Z) (mean std : option float) (wr : bool) (s : store)
    (probs : list float) :
  allowed_gpas gpa_min gpa_max <> [] ->
  level_probs math_exp libm_pow2 (allowed_gpas gpa_min gpa_max)
    (match mean with Some m => m | None => ((gpa_min + gpa_max) / 2)%float end)
    (match std with Some sd => sd | None => ((gpa_max - gpa_min) / 6)%float end)
  = inr probs ->
  total_ok probs = true ->
  exists scores s',
    generate_gpas math_exp libm_pow2 n_students gpa_min gpa_max seed mean std wr s
    = (inr scores, s').
Proof.
  intros Hne Hprobs Hok.
  pose proof (level_probs_length _ _ _ Hprobs) as Hlen.
  assert (Hchoices : forall k s0, exists l s1,
            random_choices (allowed_gpas gpa_min gpa_max) probs k s0 = (inr l, s1)).
  { intros k s0. unfold total_ok in Hok.
    destruct (rev (accumulate probs)) as [|final t] eqn:Er; [discriminate|].
    apply andb_true_iff in Hok. destruct Hok as [Hpos Hfin].
    apply negb_true_iff in Hpos.
    exact (random_choices_total _ _ k s0 Hlen Er Hpos Hfin). }
  unfold generate_gpas.
  set (s0 := snd ((match seed with Some n => random_seed n | None => ret tt end) s)).
  assert (Hseed : (match seed with Some n => random_seed n | None => ret tt end) s
                  = (inr tt, s0)).
  { unfold s0. now destruct seed. }
  erewrite bind_run; [|exact Hseed].
  rewrite Hprobs. cbn [lift]. unfold ret at 1. unfold bind at 1.
  destruct (allowed_gpas gpa_min gpa_max) as [|g0 rest] eqn:Ea; [contradiction|].
  unfold ret at 1. unfold bind at 1.
  assert (Hgpas : exists gpas s1,
            (if wr then random_choices (g0 :: rest) probs n_students
             else
               drawn <- draw_without_replacement
                          (Z.to_nat (Z.min n_students (Z.of_nat (List.length (g0 :: rest)))))
                          (g0 :: rest) probs [] ;;
               if Z.of_nat (List.length drawn) <? n_students then
                 extras <- random_choices (g0 :: rest) probs
                             (n_students - Z.of_nat (List.length drawn)) ;;
                 ret (drawn ++ extras)
               else ret drawn) s0 = (inr gpas, s1) /\
            (Z.to_nat n_students <= List.length gpas)%nat).
  { destruct wr.
    - destruct (Hchoices n_students s0) as (l & s1 & Hl).
      exists l, s1. split; [exact Hl|].
      apply random_choices_inv in Hl. lia.
    - set (rounds := Z.to_nat (Z.min n_students (Z.of_nat (List.length (g0 :: rest))))).
      destruct (@draw_without_replacement_total rounds (g0 :: rest) probs [] s0 Hlen
                  ltac:(unfold rounds; lia))
        as (drawn & left & s1 & Hd & _ & _).
      pose proof (draw_without_replacement_inv _ _ _ _ _ Hd) as [Hdl _].
      cbn [List.length Nat.add] in Hdl.
      erewrite bind_run; [|exact Hd].
      destruct (Z.of_nat (List.length drawn) <? n_students) eqn:E.
      + destruct (Hchoices (n_students - Z.of_nat (List.length drawn)) s1)
          as (extras & s2 & He).
        exists (drawn ++ extras), s2.
        erewrite bind_run; [|exact He]. split; [reflexivity|].
        apply random_choices_inv in He. rewrite length_app. lia.
      + exists drawn, s1. split; [reflexivity|].
        apply Z.ltb_ge in E. lia. }
  destruct Hgpas as (gpas & s1 & Hrun & Hlong).
  destruct (stored_gpas_total gpas Hlong) as (scores & Hst & _).
  exists scores, s1.
  erewrite bind_run; [|exact Hrun]. now rewrite Hst.
Qed.

Lemma random_uniform_run (a b : float) (s : store) :
  exists u s', random_uniform a b s = (inr u, s').
Proof.
  unfold random_uniform. destruct (random_random_run s) as (r & s' & Hr).
  exists (a + (b - a) * r)%float, s'. erewrite bind_run; [reflexivity|exact Hr].
Qed.

(** With an empty grid the mode with replacement always raises: the
    stand-in levels come without weights. *)
Lemma empty_grid_raises (n_students : Z) (gpa_min gpa_max : float)
    (seed : option Z) (mean std : option float) (s : store) :
  allowed_gpas gpa_min gpa_max = [] ->
  fst (generate_gpas math_exp libm_pow2 n_students gpa_min gpa_max seed mean std
         true s) = inl ValueError.
Proof.
  intros Ha. unfold generate_gpas. rewrite Ha.
  set (s0 := snd ((match seed with Some n => random_seed n | None => ret tt end) s)).
  assert (Hseed : (match seed with Some n => random_seed n | None => ret tt end) s
                  = (inr tt, s0)).
  { unfold s0. now destruct seed. }
  erewrite bind_run; [|exact Hseed].
  rewrite level_probs_nil. cbn [lift]. unfold ret at 1. unfold bind at 1.
  destruct (repeat_draw_total
              (u <- random_uniform gpa_min gpa_max ;; ret (py_round u 3))
              (fun s1 => ltac:(destruct (random_uniform_run gpa_min gpa_max s1)
                                 as (u & s2 & Hu);
                               exists (py_round u 3), s2;
                               erewrite bind_run; [reflexivity|exact Hu]))
              (Z.to_nat (Z.max 1 n_students)) s0) as (pool & s1 & Hpool & Hlen).
  erewrite bind_run; [|exact Hpool].
  assert (Hraise : random_choices pool [] n_students s1 = (inl ValueError, s1)).
  { unfold random_choices. cbn [accumulate List.length].
    destruct pool as [|u pool]; [simpl in Hlen; lia|]. reflexivity. }
  erewrite bind_raise; [reflexivity|exact Hraise].
Qed.

(** Without replacement and with as many students as levels, every level
    is drawn once. *)
Lemma generate_gpas_exhaustive (gpa_min gpa_max : float) (seed : option Z)
    (mean std : option float) (s : store) (probs : list float) :
  allowed_gpas gpa_min gpa_max <> [] ->
  level_probs math_exp libm_pow2 (allowed_gpas gpa_min gpa_max)
    (match mean with Some m => m | None => ((gpa_min + gpa_max) / 2)%float end)
    (match std with Some sd => sd | None => ((gpa_max - gpa_min) / 6)%float end)
  = inr probs ->
  exists scores s',
    generate_gpas math_exp libm_pow2
      (Z.of_nat (List.length (allowed_gpas gpa_min gpa_max)))
      gpa_min gpa_max seed mean std false s = (inr scores, s') /\
    forall g, In g (allowed_gpas gpa_min gpa_max) -> In (py_round g 3) scores.
Proof.
  intros Hne Hprobs.
  pose proof (level_probs_length _ _ _ Hprobs) as Hlen.
  unfold generate_gpas.
  set (s0 := snd ((match seed with Some n => random_seed n | None => ret tt end) s)).
  assert (Hseed : (match seed with Some n => random_seed n | None => ret tt end) s
                  = (inr tt, s0)).
  { unfold s0. now destruct seed. }
  erewrite bind_run; [|exact Hseed].
  rewrite Hprobs. cbn [lift]. unfold ret at 1. unfold bind at 1.
  destruct (allowed_gpas gpa_min gpa_max) as [|g0 rest] eqn:Ea; [contradiction|].
  unfold ret at 1. unfold bind at 1.
  rewrite Z.min_id, Nat2Z.id.
  destruct (@draw_without_replacement_total (List.length (g0 :: rest)) (g0 :: rest)
              probs [] s0 Hlen (le_n _))
    as (drawn & left & s1 & Hd & Hperm & Hleft).
  rewrite Nat.sub_diag in Hleft. apply length_zero_iff_nil in Hleft. subst left.
  rewrite app_nil_r in Hperm. cbn [app] in Hperm.
  pose proof (Permutation_length Hperm) as Hdl.
  assert (Hg : (drawn0 <- draw_without_replacement (List.length (g0 :: rest))
                            (g0 :: rest) probs [] ;;
                if Z.of_nat (List.length drawn0) <? Z.of_nat (List.length (g0 :: rest))
                then
                  extras <- random_choices (g0 :: rest) probs
                              (Z.of_nat (List.length (g0 :: rest))
                               - Z.of_nat (List.length drawn0)) ;;
                  ret (drawn0 ++ extras)
                else ret drawn0) s0 = (inr drawn, s1)).
  { erewrite bind_run; [|exact Hd]. now rewrite Hdl, Z.ltb_irrefl. }
  erewrite bind_run; [|exact Hg].
  destruct (@stored_gpas_total drawn (List.length (g0 :: rest)) ltac:(lia))
    as (scores & Hst & Hin).
  exists scores, s1. rewrite Hst. split; [reflexivity|].
  intros g Hgin. apply Hin. rewrite <- Hdl, firstn_all.
  eapply Permutation_in; [apply Permutation_sym, Hperm|exact Hgin].
Qed.

(** What the sampler stores.  Every score [generate_random_students] stores
    is [round(g, 3)] for a level [g] of its grid, and the grid is made of
    the values [round(gpa_min + i * step, 6)], [i] in [0 .. 63] and
    [step = (gpa_max - gpa_min) / 63], that lie within
    [gpa_min .. gpa_max]: at most 64 levels, rounded to 6 decimals before
    they are rounded to 3.  One score is stored per student. *)
Theorem sampled_scores_on_grid (n_students : Z) (gpa_min gpa_max : float)
    (seed : option Z) (mean std : option float) (wr : bool)
    (s s' : store) (scores : list float) :
  generate_gpas math_exp libm_pow2 n_students gpa_min gpa_max seed mean std wr s
  = (inr scores, s') ->
  List.length scores = Z.to_nat n_students /\
  (forall x, In x scores ->
     exists i g,
       (i < 64)%nat /\
       g = py_round (gpa_min + float_of_nat i * ((gpa_max - gpa_min) / 63))%float 6 /\
       (gpa_min <=? g)%float = true /\ (g <=? gpa_max)%float = true /\
       x = py_round g 3) /\
  (List.length (allowed_gpas gpa_min gpa_max) <= 64)%nat /\
  (forall g, In g (allowed_gpas gpa_min gpa_max) <->
     (exists i, (i < 64)%nat /\
        g = py_round (gpa_min + float_of_nat i * ((gpa_max - gpa_min) / 63))%float 6) /\
     (gpa_min <=? g)%float = true /\ (g <=? gpa_max)%float = true).
Proof.
  intros H. apply generate_gpas_inv in H. destruct H as [HL HI].
  split; [exact HL|]. split.
  - intros x Hx. destruct (HI x Hx) as (g & Hg & ->).
    apply allowed_gpas_in in Hg. destruct Hg as [(i & Hi & Hgi) [H1 H2]].
    exists i, g. auto.
  - split; [apply allowed_gpas_length|apply allowed_gpas_in].
Qed.

(** The uniform weights.  When the density on a grid that is not empty
    sums to zero or less (as it does for [std <= 0]), every level gets the
    weight [1.0 / n], [n] the number of levels; that weight is not negative,
    on the full grid of 64 levels the weights sum to exactly 1, and the
    scores are then drawn, in either mode, without an exception. *)
Theorem degenerate_density_recovery (n_students : Z) (gpa_min gpa_max : float)
    (seed : option Z) (mean std : option float) (wr : bool) (s : store)
    (ws : list float) :
  let allowed := allowed_gpas gpa_min gpa_max in
  let mu := match mean with
            | Some m => m
            | None => ((gpa_min + gpa_max) / 2)%float
            end in
  let sigma := match std with
               | Some sd => sd
               | None => ((gpa_max - gpa_min) / 6)%float
               end in
  let uniform :=
    repeat (1 / float_of_nat (List.length allowed))%float (List.length allowed) in
  allowed <> [] ->
  map_exn (fun g => normal_pdf math_exp libm_pow2 g mu sigma) allowed = inr ws ->
  (py_sum ws <=? 0)%float = true ->
  level_probs math_exp libm_pow2 allowed mu sigma = inr uniform /\
  (forall p, In p uniform -> (0 <=? p)%float = true) /\
  (List.length allowed = 64%nat -> py_sum uniform = 1%float) /\
  (exists scores s',
     generate_gpas math_exp libm_pow2 n_students gpa_min gpa_max seed mean std wr s
     = (inr scores, s') /\
     List.length scores = Z.to_nat n_students) /\
  ((sigma <=? 0)%float = true ->
   map_exn (fun g => normal_pdf math_exp libm_pow2 g mu sigma) allowed
   = inr (repeat 0%float (List.length allowed)) /\
   (py_sum (repeat 0%float (List.length allowed)) <=? 0)%float = true).
Proof.
  intros allowed mu sigma uniform Hne Hws Hsum.
  assert (Hn : (1 <= List.length allowed <= 64)%nat).
  { split.
    - destruct allowed; [contradiction|simpl; lia].
    - apply allowed_gpas_length. }
  pose proof (level_probs_degenerate _ _ _ Hws Hsum Hn) as Hprobs.
  destruct (uniform_weights_facts Hn) as (_ & _ & F3 & F4).
  split; [exact Hprobs|]. split.
  { intros p Hp. apply repeat_spec in Hp. now subst p. }
  split.
  { intros E. unfold uniform. rewrite E. exact uniform_weights_sum_64. }
  split.
  - destruct (generate_gpas_returns n_students gpa_min gpa_max seed mean std wr s
                Hne Hprobs F4) as (scores & s' & Hrun).
    exists scores, s'. split; [exact Hrun|].
    now apply generate_gpas_inv in Hrun.
  - apply density_degenerate.
Qed.
End SamplerFacts.

(** ** The sampler at concrete inputs *)

Lemma sampled_scores_on_grid_witness :
  exists scores s',
    run_sampler 10 0 9 (Some 0%float) true = (inr scores, s') /\
    List.length scores = 10%nat.
Proof.
  pose proof (surjective_pairing (run_sampler 10 0 9 (Some 0%float) true)) as E.
  rewrite sample_scores_eq in E. unfold sample_scores in E.
  eexists. eexists. split; [exact E|].
  unfold run_sampler in E.
  exact (proj1 (sampled_scores_on_grid (RM := reference_random) no_exp square
                  10 0 9 (Some 123) None (Some 0%float) true (store_with []) E)).
Defined.

(** C8.  The claim: every score the sampler produces equals one of the 64
    grid levels [gpa_min + i * (gpa_max - gpa_min) / 63], [i] in
    [0 .. 63], rounded to 3 decimals, which is also what the repository's
    test [test_generated_gpas_are_on_grid] checks and what the comments of
    lines 37-43 announce.  The code at an input where this fails: on the
    range [0.0014999996 .. 1.0] the grid keeps all its 64 levels, its
    lowest level has been rounded to 0.0015 at line 41, and with 64
    students drawn without replacement (zero standard deviation) every
    run, whatever the generator, stores the score
    [round(0.0015, 3) = 0.002], which is not among the values
    [round(gpa_min + i * step, 3)]. *)
Lemma grid_membership_violated :
  on_grid 0x1.0624dd2f1a9fcp-9 (test_grid odd_min 1) = false /\
  List.length (allowed_gpas odd_min 1) = 64%nat /\
  (forall (RM : RandomModule) (math_exp libm_pow2 : float -> float)
          (seed : option Z) (mean : option float) (s : store),
     exists scores s',
       generate_gpas math_exp libm_pow2 64 odd_min 1 seed mean (Some 0%float) false s
       = (inr scores, s') /\
       In 0x1.0624dd2f1a9fcp-9%float scores).
Proof.
  split; [vm_compute; reflexivity|].
  assert (Hlen : List.length (allowed_gpas odd_min 1) = 64%nat)
    by (vm_compute; reflexivity).
  split; [exact Hlen|].
  intros RM math_exp libm_pow2 seed mean s.
  assert (Hne : allowed_gpas odd_min 1 <> []).
  { intros E. rewrite E in Hlen. discriminate Hlen. }
  set (mu := match mean with
             | Some m => m
             | None => ((odd_min + 1) / 2)%float
             end).
  destruct (density_degenerate math_exp libm_pow2 (allowed_gpas odd_min 1) mu
              (sigma := 0%float) eq_refl) as [Hws Hsum].
  pose proof (level_probs_degenerate math_exp libm_pow2 _ _ _ Hws Hsum
                ltac:(rewrite Hlen; lia)) as Hprobs.
  destruct (generate_gpas_exhaustive math_exp libm_pow2 odd_min 1 seed mean
              (Some 0%float) s Hne Hprobs) as (scores & s' & Hrun & Hall).
  rewrite Hlen in Hrun. exists scores, s'. split; [exact Hrun|].
  change (0x1.0624dd2f1a9fcp-9)%float
    with (py_round 0x1.89374bc6a7efap-10%float 3).
  apply Hall. vm_compute. left. reflexivity.
Qed.

Lemma degenerate_density_recovery_witness :
  allowed_gpas 0 9 <> [] /\
  map_exn (fun g => normal_pdf no_exp square g ((0 + 9) / 2)%float 0%float)
    (allowed_gpas 0 9) = inr (repeat 0%float 64) /\
  (py_sum (repeat 0%float 64) <=? 0)%float = true /\
  exists scores s',
    run_sampler 10 0 9 (Some 0%float) true = (inr scores, s') /\
    List.length scores = 10%nat.
Proof.
  assert (H1 : allowed_gpas 0 9 <> []) by (vm_compute; discriminate).
  assert (H2 : map_exn (fun g => normal_pdf no_exp square g ((0 + 9) / 2)%float 0%float)
                 (allowed_gpas 0 9) = inr (repeat 0%float 64))
    by (vm_compute; reflexivity).
  assert (H3 : (py_sum (repeat 0%float 64) <=? 0)%float = true) by reflexivity.
  split; [exact H1|]. split; [exact H2|]. split; [exact H3|].
  destruct (degenerate_density_recovery (RM := reference_random) no_exp square
              10 0 9 (Some 123) None (Some 0%float) true (store_with []) H1 H2 H3)
    as (_ & _ & _ & Hrun & _).
  exact Hrun.
Defined.

(** C9.  The claim: when the density over the grid sums to zero or less
    the sampler substitutes uniform weights and continues, no exception
    being raised.  The code at an input where this fails: with
    [gpa_min = 9.0] and [gpa_max = 4.0] no level lies within the range,
    the density over the empty grid sums to zero and lines 62-70 leave
    the list of weights empty; lines 72-74 then put stand-in levels in
    the place of the empty grid without giving them weights, and the draw
    with replacement raises [ValueError], whatever the generator, the
    mean and the number of students. *)
Lemma empty_grid_not_recovered :
  allowed_gpas 9 4 = [] /\
  (py_sum [] <=? 0)%float = true /\
  (forall (RM : RandomModule) (math_exp libm_pow2 : float -> float)
          (n_students : Z) (seed : option Z) (mean : option float) (mu : float)
          (s : store),
     level_probs math_exp libm_pow2 (allowed_gpas 9 4) mu 0 = inr [] /\
     fst (generate_gpas math_exp libm_pow2 n_students 9 4 seed mean (Some 0%float)
            true s) = inl ValueError).
Proof.
  assert (Ha : allowed_gpas 9 4 = []) by (vm_compute; reflexivity).
  split; [exact Ha|]. split; [reflexivity|].
  intros RM math_exp libm_pow2 n_students seed mean mu s. split.
  - rewrite Ha. apply level_probs_nil.
  - now apply empty_grid_raises.
Qed.

(* ================================================================== *)
(** * Further properties of the engine *)
(* ================================================================== *)

(** Every seat count of a capacity map is at least zero. *)
Definition all_nonneg (caps : dict string Z) : Prop :=
  forall c n, In (c, n) caps -> 0 <= n.

Section EngineFurther.
Context {RM : RandomModule} {FS : FrameSort}.

(** A table with its two required columns makes the call return, and what
    the caller reads is the functional trace. *)
Lemma run_views (df : DataFrame) (cd : ref) (mp : Z) (fb : bool)
    (seed : option Z) (s : store) :
  has_column df "id" = true ->
  has_column df "gpa" = true ->
  exists snaps s',
    allocation_steps df cd mp fb seed s = (inr snaps, s') /\
    map (view s') snaps = trace df cd mp fb seed s.
Proof.
  intros Hid Hg.
  destruct (valid_returns df cd mp fb seed s Hid Hg) as (snaps & s' & Hrun).
  exists snaps, s'. split; [exact Hrun|].
  now destruct (returned_views _ _ _ _ _ _ Hrun) as (_ & _ & Hv).
Qed.

Lemma dict_wf_lookup (d : dict string Z) (k : string) (n : Z) :
  dict_wf d -> In (k, n) d -> dict_lookup String.eqb d k = Some n.
Proof.
  unfold dict_wf. induction d as [|[k' n'] d IH]; simpl; [tauto|].
  intros Hwf [[= -> ->]|Hin].
  - now rewrite String.eqb_refl.
  - inversion Hwf as [|? ? Hnin Hnd]; subst.
    destruct (String.eqb k' k) eqn:E; [|auto].
    apply String.eqb_eq in E. subst k'. exfalso. apply Hnin.
    apply in_map_iff. now exists (k, n).
Qed.

Lemma dict_lookup_in_pair (d : dict string Z) (k : string) (n : Z) :
  dict_lookup String.eqb d k = Some n -> In (k, n) d.
Proof.
  induction d as [|[k' n'] d IH]; simpl; [discriminate|].
  destruct (String.eqb k' k) eqn:E.
  - apply String.eqb_eq in E. intros [= ->]. left. now subst.
  - auto.
Qed.

Lemma dict_set_in (d : dict string Z) (k k' : string) (v v' : Z) :
  In (k', v') (dict_set String.eqb d k v) ->
  In (k', v') d \/ (k' = k /\ v' = v).
Proof.
  induction d as [|[k0 v0] d IH]; simpl.
  - intros [[= <- <-]|[]]. now right.
  - destruct (String.eqb k0 k) eqn:E; simpl.
    + apply String.eqb_eq in E. subst k0.
      intros [[= <- <-]|Hin]; [now right|left; now right].
    + intros [Heq|Hin]; [left; now left|].
      destruct (IH Hin) as [H|H]; [left; now right|now right].
Qed.

Lemma get_nonneg (caps : dict string Z) (c : string) :
  all_nonneg caps -> 0 <= dict_get String.eqb caps c 0.
Proof.
  intros Hn. unfold dict_get.
  destruct (dict_lookup String.eqb caps c) eqn:E; [|lia].
  apply dict_lookup_in_pair in E. exact (Hn _ _ E).
Qed.

(** A student who is assigned a category took a free seat of it: through
    the list of preferences, as the first one with a seat, or through the
    fallback, outside the list and after the whole list was found full. *)
Lemma step_chosen_spec (fb : bool) (caps : dict string Z) (g : rng)
    (ps : list string) (c : string) :
  dict_wf caps ->
  fst (fst (step fb caps g ps)) = Some c ->
  0 < dict_get String.eqb caps c 0 /\
  ((exists front back,
      ps = front ++ c :: back /\
      forall x, In x front -> dict_get String.eqb caps x 0 <= 0) \/
   (fb = true /\ ~ In c ps /\
    forall x, In x ps -> dict_get String.eqb caps x 0 <= 0)).
Proof.
  intros Hwf H.
  destruct (first_fit caps ps) as [c'|] eqn:Ef.
  - unfold step in H. rewrite Ef in H. cbn [fst] in H. injection H as ->.
    apply first_fit_some in Ef. destruct Ef as (front & back & Hp & Hf & Hc).
    split; [exact Hc|]. left. eauto.
  - pose proof (proj1 (first_fit_none caps ps) Ef) as Hps.
    destruct fb; [|unfold step in H; rewrite Ef in H; discriminate H].
    assert (Hne : available_specs caps ps <> []).
    { intros Ha. unfold step in H. rewrite Ef, Ha in H. discriminate H. }
    assert (Hlen : (0 < List.length (available_specs caps ps))%nat).
    { destruct (available_specs caps ps); [contradiction|simpl; lia]. }
    rewrite (@step_fallback _ caps g ps Hps Hne) in H. cbn [fst] in H. injection H as <-.
    assert (Hin : In (nth (fst (randbelow (List.length (available_specs caps ps)) g))
                        (available_specs caps ps) "") (available_specs caps ps))
      by (apply nth_In, randbelow_lt; exact Hlen).
    apply available_specs_in in Hin. destruct Hin as (n & Hn & Hpos & Hout).
    split; [|right; auto].
    unfold dict_get. now rewrite (@dict_wf_lookup _ _ _ Hwf Hn).
Qed.

(** A student is left without a category only when the whole list of
    preferences is full and, with the fallback enabled, every category is. *)
Lemma step_none_spec (fb : bool) (caps : dict string Z) (g : rng)
    (ps : list string) :
  fst (fst (step fb caps g ps)) = None ->
  (forall x, In x ps -> dict_get String.eqb caps x 0 <= 0) /\
  (fb = true -> dict_wf caps -> forall c n, In (c, n) caps -> n <= 0).
Proof.
  unfold step. destruct (first_fit caps ps) as [c'|] eqn:Ef; [discriminate|].
  pose proof (proj1 (first_fit_none caps ps) Ef) as Hps.
  intros H. split; [exact Hps|].
  intros -> Hwf c n Hin.
  destruct (available_specs caps ps) as [|c0 av] eqn:Ea; [|discriminate].
  destruct (Z_le_gt_dec n 0) as [Hle|Hgt]; [exact Hle|]. exfalso.
  destruct (in_dec string_dec c ps) as [Hc|Hc].
  - specialize (Hps c Hc). unfold dict_get in Hps.
    rewrite (@dict_wf_lookup _ _ _ Hwf Hin) in Hps. lia.
  - assert (Hav : In c (available_specs caps ps)).
    { apply available_specs_in. exists n. repeat split; [exact Hin|lia|exact Hc]. }
    rewrite Ea in Hav. destruct Hav.
Qed.

Lemma step_keeps_wf (fb : bool) (caps : dict string Z) (g : rng) (ps : list string) :
  dict_wf caps -> dict_wf (snd (fst (step fb caps g ps))).
Proof.
  unfold dict_wf. intros Hwf.
  change (NoDup (dict_keys (snd (fst (step fb caps g ps))))).
  destruct (fst (fst (step fb caps g ps))) as [c|] eqn:E.
  - destruct (step_some _ _ _ _ E) as [_ ->]. now rewrite decrement_keys.
  - now destruct (step_none _ _ _ _ E) as [-> _].
Qed.

Lemma step_keeps_nonneg (fb : bool) (caps : dict string Z) (g : rng)
    (ps : list string) :
  dict_wf caps -> all_nonneg caps -> all_nonneg (snd (fst (step fb caps g ps))).
Proof.
  intros Hwf Hn.
  destruct (fst (fst (step fb caps g ps))) as [c|] eqn:E.
  - destruct (step_chosen_spec _ _ _ Hwf E) as [Hpos _].
    destruct (step_some _ _ _ _ E) as [_ ->].
    unfold decrement, dict_get in *.
    destruct (dict_lookup String.eqb caps c) as [m|]; [|exact Hn].
    intros k n Hin. apply dict_set_in in Hin.
    destruct Hin as [Hin|[_ ->]]; [exact (Hn _ _ Hin)|lia].
  - now destruct (step_none _ _ _ _ E) as [-> _].
Qed.

Lemma step_get_le (fb : bool) (caps : dict string Z) (g : rng) (ps : list string)
    (x : string) :
  dict_get String.eqb (snd (fst (step fb caps g ps))) x 0
  <= dict_get String.eqb caps x 0.
Proof.
  pose proof (step_conservation fb caps g ps 0 x). lia.
Qed.

(** The capacities a step starts from are reached from the initial ones by
    steps of the loop. *)
Lemma capacity_before_ind (df : DataFrame) (cd : ref) (mp : Z) (fb : bool)
    (seed : option Z) (s : store) (P : dict string Z -> Prop) :
  P (nth cd (caps_heap s) []) ->
  (forall caps g ps, P caps -> P (snd (fst (step fb caps g ps)))) ->
  forall k,
    P (capacity_before (nth cd (caps_heap s) []) (trace df cd mp fb seed s) k).
Proof.
  intros H0 Hstep. induction k as [|k IH]; [exact H0|].
  cbn [capacity_before].
  destruct (nth_error (trace df cd mp fb seed s) k) as [v|] eqn:E; [|exact H0].
  pose proof E as E'. unfold trace in E'.
  destruct (run_pure_nth _ _ _ _ _ _ E') as (gk & Hs & _).
  fold (trace df cd mp fb seed s) in Hs.
  replace (v_remaining v)
    with (snd (fst (step fb
                      (capacity_before (nth cd (caps_heap s) [])
                         (trace df cd mp fb seed s) k) gk (v_prefs v))))
    by (now rewrite Hs).
  now apply Hstep.
Qed.

Lemma trace_step (df : DataFrame) (cd : ref) (mp : Z) (fb : bool)
    (seed : option Z) (s : store) (k : nat) (v : SnapshotView) :
  nth_error (trace df cd mp fb seed s) k = Some v ->
  exists gk,
    fst (step fb (capacity_before (nth cd (caps_heap s) [])
                    (trace df cd mp fb seed s) k) gk (v_prefs v))
    = (v_chosen v, v_remaining v).
Proof.
  intros E. unfold trace in E.
  destruct (run_pure_nth _ _ _ _ _ _ E) as (gk & Hs & _). eauto.
Qed.

Lemma capacity_before_wf (df : DataFrame) (cd : ref) (mp : Z) (fb : bool)
    (seed : option Z) (s : store) (k : nat) :
  dict_wf (nth cd (caps_heap s) []) ->
  dict_wf (capacity_before (nth cd (caps_heap s) []) (trace df cd mp fb seed s) k).
Proof.
  intros Hwf. apply capacity_before_ind; [exact Hwf|].
  intros caps g ps. apply step_keeps_wf.
Qed.

(** From one step to a later one no capacity grows. *)
Lemma capacity_before_le (df : DataFrame) (cd : ref) (mp : Z) (fb : bool)
    (seed : option Z) (s : store) (x : string) (i d : nat) :
  dict_get String.eqb
    (capacity_before (nth cd (caps_heap s) []) (trace df cd mp fb seed s) (i + d)) x 0
  <= dict_get String.eqb
       (capacity_before (nth cd (caps_heap s) []) (trace df cd mp fb seed s) i) x 0
  \/ (List.length (trace df cd mp fb seed s) < i + d)%nat.
Proof.
  induction d as [|d IH].
  - left. rewrite Nat.add_0_r. lia.
  - destruct IH as [IH|IH]; [|right; lia].
    destruct (nth_error (trace df cd mp fb seed s) (i + d)) as [v|] eqn:E.
    + left. destruct (trace_step _ _ _ _ _ _ _ E) as (gk & Hs).
      replace (i + S d)%nat with (S (i + d)) by lia.
      cbn [capacity_before]. rewrite E.
      replace (v_remaining v)
        with (snd (fst (step fb
                          (capacity_before (nth cd (caps_heap s) [])
                             (trace df cd mp fb seed s) (i + d)) gk (v_prefs v))))
        by (now rewrite Hs).
      eapply Z.le_trans; [apply step_get_le|exact IH].
    + right. apply nth_error_None in E. lia.
Qed.
End EngineFurther.

Section EngineExtras.
Context {RM : RandomModule} {FS : FrameSort}.

Lemma step_false_spec (caps : dict string Z) (g : rng) (ps : list string) :
  snd (step false caps g ps) = g /\
  forall c, fst (fst (step false caps g ps)) = Some c -> In c ps.
Proof.
  unfold step. destruct (first_fit caps ps) as [c'|] eqn:Ef; cbn [fst snd].
  - split; [reflexivity|]. intros c [= <-].
    apply first_fit_some in Ef. destruct Ef as (front & back & -> & _).
    apply in_or_app. right. now left.
  - split; [reflexivity|discriminate].
Qed.

Lemma run_pure_false (students : list student) :
  forall caps asg g,
    snd (run_pure false students caps asg g) = g /\
    forall v c, In v (fst (run_pure false students caps asg g)) ->
      v_chosen v = Some c -> In c (v_prefs v).
Proof.
  induction students as [|[[sid gp] ps] rest IH]; intros caps asg g.
  - split; [reflexivity|intros v c []].
  - cbn [run_pure fst snd].
    destruct (step_false_spec caps g ps) as [Hg Hc].
    rewrite Hg.
    destruct (IH (snd (fst (step false caps g ps)))
                (dict_set Z.eqb asg sid (fst (fst (step false caps g ps)))) g)
      as [IHg IHc].
    split; [exact IHg|].
    intros v c [<-|Hin]; [cbn; apply Hc|now apply IHc].
Qed.

Lemma snapshots_at_refs (vs : list SnapshotView) :
  forall rc ra,
    map remaining (snapshots_at rc ra vs) = seq rc (List.length vs) /\
    map assignments (snapshots_at rc ra vs) = seq ra (List.length vs).
Proof.
  induction vs as [|v vs IH]; intros rc ra; [now split|].
  cbn [snapshots_at map List.length seq remaining assignments].
  destruct (IH (S rc) (S ra)) as [-> ->]. now split.
Qed.

Lemma capacity_after (df : DataFrame) (cd : ref) (mp : Z) (fb : bool)
    (seed : option Z) (s : store) (k : nat) (v : SnapshotView) :
  nth_error (trace df cd mp fb seed s) k = Some v ->
  capacity_before (nth cd (caps_heap s) []) (trace df cd mp fb seed s) (S k)
  = v_remaining v.
Proof. intros E. cbn [capacity_before]. now rewrite E. Qed.

(** On the functional trace: a category assigned at a later step had a
    seat at every earlier step, so an earlier student who lists it was
    served from the list, and not after it. *)
Lemma trace_no_envy (df : DataFrame) (cd : ref) (mp : Z) (fb : bool)
    (seed : option Z) (s : store) :
  dict_wf (nth cd (caps_heap s) []) ->
  forall i j vi vj d,
    (i < j)%nat ->
    nth_error (trace df cd mp fb seed s) i = Some vi ->
    nth_error (trace df cd mp fb seed s) j = Some vj ->
    In d (v_prefs vi) ->
    v_chosen vj = Some d ->
    exists front c back,
      v_prefs vi = front ++ c :: back /\
      v_chosen vi = Some c /\
      ~ In d front.
Proof.
  intros Hwf.
  intros i j vi vj d Hij Ei Ej Hd Hc.
  destruct (trace_step _ _ _ _ _ _ _ Ej) as (gj & Hsj).
  assert (Hcj : fst (fst (step fb (capacity_before (nth cd (caps_heap s) [])
                                    (trace df cd mp fb seed s) j) gj (v_prefs vj)))
                = Some d) by (now rewrite Hsj).
  destruct (step_chosen_spec _ _ _ (capacity_before_wf df cd mp fb seed s j Hwf) Hcj)
    as [Hposj _].
  assert (Hj : (j < List.length (trace df cd mp fb seed s))%nat)
    by (apply nth_error_Some; congruence).
  destruct (capacity_before_le df cd mp fb seed s d (S i) (j - S i)) as [Hle|Hlt];
    [|lia].
  replace (S i + (j - S i))%nat with j in Hle by lia.
  rewrite (capacity_after _ _ _ _ _ _ _ Ei) in Hle.
  destruct (trace_step _ _ _ _ _ _ _ Ei) as (gi & Hsi).
  pose proof (step_get_le fb (capacity_before (nth cd (caps_heap s) [])
                                (trace df cd mp fb seed s) i) gi (v_prefs vi) d) as Hmono.
  rewrite Hsi in Hmono. cbn [fst snd] in Hmono.
  assert (Hposi : 0 < dict_get String.eqb
                        (capacity_before (nth cd (caps_heap s) [])
                           (trace df cd mp fb seed s) i) d 0) by lia.
  destruct (v_chosen vi) as [c|] eqn:Eci.
  - assert (Hci : fst (fst (step fb (capacity_before (nth cd (caps_heap s) [])
                                      (trace df cd mp fb seed s) i) gi (v_prefs vi)))
                  = Some c) by (now rewrite Hsi).
    destruct (step_chosen_spec _ _ _ (capacity_before_wf df cd mp fb seed s i Hwf) Hci)
      as [_ [(front & back & Hp & Hf)|(_ & _ & Hall)]].
    + exists front, c, back. repeat split; [exact Hp|].
      intros Hin. specialize (Hf d Hin). lia.
    + specialize (Hall d Hd). lia.
  - assert (Hci : fst (fst (step fb (capacity_before (nth cd (caps_heap s) [])
                                      (trace df cd mp fb seed s) i) gi (v_prefs vi)))
                  = None) by (now rewrite Hsi).
    destruct (step_none_spec _ _ _ _ Hci) as [Hall _].
    specialize (Hall d Hd). lia.
Qed.

(** X1.  No student can envy a student of lower priority.  When the
    capacity dictionary has no repeated key and a student processed later
    is assigned a category [d] that an earlier student lists among the
    effective preferences, the earlier student was assigned one of the
    listed preferences, and [d] does not come before it in the list: the
    earlier student holds a preference ranked at least as high as [d]. *)
Theorem no_justified_envy (df : DataFrame) (cd : ref) (mp : Z) (fb : bool)
    (seed : option Z) (s : store) :
  has_column df "id" = true ->
  has_column df "gpa" = true ->
  dict_wf (nth cd (caps_heap s) []) ->
  exists snaps s',
    allocation_steps df cd mp fb seed s = (inr snaps, s') /\
    forall i j vi vj d,
      (i < j)%nat ->
      nth_error (map (view s') snaps) i = Some vi ->
      nth_error (map (view s') snaps) j = Some vj ->
      In d (v_prefs vi) ->
      v_chosen vj = Some d ->
      exists front c back,
        v_prefs vi = front ++ c :: back /\
        v_chosen vi = Some c /\
        ~ In d front.
Proof.
  intros Hid Hg Hwf.
  destruct (run_views df cd mp fb seed s Hid Hg) as (snaps & s' & Hrun & Hv).
  exists snaps, s'. split; [exact Hrun|]. rewrite Hv.
  now apply trace_no_envy.
Qed.

(** X2.  Seats are never oversold.  When the capacity dictionary has no
    repeated key and no negative seat count, no snapshot shows a negative
    remaining count, and at every step the number of students assigned a
    category so far is at most the capacity the category started with. *)
Theorem seats_never_oversold (df : DataFrame) (cd : ref) (mp : Z) (fb : bool)
    (seed : option Z) (s : store) :
  has_column df "id" = true ->
  has_column df "gpa" = true ->
  dict_wf (nth cd (caps_heap s) []) ->
  all_nonneg (nth cd (caps_heap s) []) ->
  exists snaps s',
    allocation_steps df cd mp fb seed s = (inr snaps, s') /\
    forall k v,
      nth_error (map (view s') snaps) k = Some v ->
      all_nonneg (v_remaining v) /\
      forall c,
        Z.of_nat (count_assigned (entries (firstn (S k) (map (view s') snaps))) c)
        <= dict_get String.eqb (nth cd (caps_heap s) []) c 0.
Proof.
  intros Hid Hg Hwf Hnn.
  destruct (run_views df cd mp fb seed s Hid Hg) as (snaps & s' & Hrun & Hv).
  exists snaps, s'. split; [exact Hrun|]. rewrite Hv.
  intros k v E.
  assert (Hinv : dict_wf (capacity_before (nth cd (caps_heap s) [])
                            (trace df cd mp fb seed s) (S k)) /\
                 all_nonneg (capacity_before (nth cd (caps_heap s) [])
                               (trace df cd mp fb seed s) (S k))).
  { apply capacity_before_ind with (P := fun d => dict_wf d /\ all_nonneg d);
      [now split|].
    intros caps g ps [H1 H2]. split;
      [now apply step_keeps_wf|now apply step_keeps_nonneg]. }
  rewrite (capacity_after _ _ _ _ _ _ _ E) in Hinv. destruct Hinv as [_ Hnv].
  split; [exact Hnv|]. intros c.
  pose proof E as E'. unfold trace in E'.
  pose proof (run_conservation _ _ _ _ _ _ E' c) as Hcons.
  fold (trace df cd mp fb seed s) in Hcons.
  pose proof (get_nonneg c Hnv). lia.
Qed.

(** X3.  An assignment is always a free seat of a known category.  When
    the capacity dictionary has no repeated key, the category a snapshot
    records as chosen is a key of the capacity dictionary, it had a seat
    left when the student was processed, and it is either the first
    effective preference with a seat or, with the fallback enabled, a
    category outside the list picked after the whole list was full. *)
Theorem assignment_is_sound (df : DataFrame) (cd : ref) (mp : Z) (fb : bool)
    (seed : option Z) (s : store) :
  has_column df "id" = true ->
  has_column df "gpa" = true ->
  dict_wf (nth cd (caps_heap s) []) ->
  exists snaps s',
    allocation_steps df cd mp fb seed s = (inr snaps, s') /\
    forall k v c,
      nth_error (map (view s') snaps) k = Some v ->
      v_chosen v = Some c ->
      In c (dict_keys (nth cd (caps_heap s) [])) /\
      0 < dict_get String.eqb
            (capacity_before (nth cd (caps_heap s) []) (map (view s') snaps) k) c 0 /\
      ((exists front back,
          v_prefs v = front ++ c :: back /\
          forall x, In x front ->
            dict_get String.eqb
              (capacity_before (nth cd (caps_heap s) []) (map (view s') snaps) k) x 0
            <= 0) \/
       (fb = true /\ ~ In c (v_prefs v) /\
        forall x, In x (v_prefs v) ->
          dict_get String.eqb
            (capacity_before (nth cd (caps_heap s) []) (map (view s') snaps) k) x 0
          <= 0)).
Proof.
  intros Hid Hg Hwf.
  destruct (run_views df cd mp fb seed s Hid Hg) as (snaps & s' & Hrun & Hv).
  exists snaps, s'. split; [exact Hrun|]. rewrite Hv.
  intros k v c E Hc.
  destruct (trace_step _ _ _ _ _ _ _ E) as (gk & Hs).
  assert (Hck : fst (fst (step fb (capacity_before (nth cd (caps_heap s) [])
                                    (trace df cd mp fb seed s) k) gk (v_prefs v)))
                = Some c) by (now rewrite Hs).
  destruct (step_chosen_spec _ _ _ (capacity_before_wf df cd mp fb seed s k Hwf) Hck)
    as [Hpos Hcase].
  destruct (step_some _ _ _ _ Hck) as [Hkey _].
  rewrite capacity_before_keys in Hkey.
  repeat split; assumption.
Qed.

(** X4.  A student is left without a category only when nothing could be
    offered: every effective preference is full, the capacities are left
    as they were, and with the fallback enabled (and no repeated key in the
    capacity dictionary) every category of the dictionary is full. *)
Theorem unassigned_only_when_full (df : DataFrame) (cd : ref) (mp : Z) (fb : bool)
    (seed : option Z) (s : store) :
  has_column df "id" = true ->
  has_column df "gpa" = true ->
  dict_wf (nth cd (caps_heap s) []) ->
  exists snaps s',
    allocation_steps df cd mp fb seed s = (inr snaps, s') /\
    forall k v,
      nth_error (map (view s') snaps) k = Some v ->
      v_chosen v = None ->
      v_remaining v
      = capacity_before (nth cd (caps_heap s) []) (map (view s') snaps) k /\
      (forall x, In x (v_prefs v) ->
         dict_get String.eqb
           (capacity_before (nth cd (caps_heap s) []) (map (view s') snaps) k) x 0
         <= 0) /\
      (fb = true ->
       forall c n,
         In (c, n) (capacity_before (nth cd (caps_heap s) []) (map (view s') snaps) k) ->
         n <= 0).
Proof.
  intros Hid Hg Hwf.
  destruct (run_views df cd mp fb seed s Hid Hg) as (snaps & s' & Hrun & Hv).
  exists snaps, s'. split; [exact Hrun|]. rewrite Hv.
  intros k v E Hc.
  destruct (trace_step _ _ _ _ _ _ _ E) as (gk & Hs).
  assert (Hck : fst (fst (step fb (capacity_before (nth cd (caps_heap s) [])
                                    (trace df cd mp fb seed s) k) gk (v_prefs v)))
                = None) by (now rewrite Hs).
  destruct (step_none_spec _ _ _ _ Hck) as [Hall Hfull].
  destruct (step_none _ _ _ _ Hck) as [Hsame _].
  rewrite Hs in Hsame. cbn [fst snd] in Hsame.
  repeat split; [exact Hsame|exact Hall|].
  intros Hfb. apply Hfull; [exact Hfb|].
  now apply capacity_before_wf.
Qed.

(** X5.  With the fallback disabled the random generator is never drawn
    from: after the call its state is the one the seeding left (the seeded
    state, or the state before the call when no seed is given), and every
    assigned category is one of the student's effective preferences. *)
Theorem fallback_off_never_draws (df : DataFrame) (cd : ref) (mp : Z)
    (seed : option Z) (s : store) :
  has_column df "id" = true ->
  has_column df "gpa" = true ->
  exists snaps s',
    allocation_steps df cd mp false seed s = (inr snaps, s') /\
    random_state s' = seeded seed s /\
    forall v c,
      In v (map (view s') snaps) -> v_chosen v = Some c -> In c (v_prefs v).
Proof.
  intros Hid Hg.
  destruct (run_views df cd mp false seed s Hid Hg) as (snaps & s' & Hrun & Hv).
  exists snaps, s'. split; [exact Hrun|]. rewrite Hv.
  rewrite (allocation_steps_run df cd mp false seed s Hid Hg) in Hrun.
  injection Hrun as _ Hs'.
  destruct (run_pure_false (students_of df mp (sort_values_desc (rows df)))
              (nth cd (caps_heap s) []) [] (seeded seed s)) as [Hrng Hin].
  split.
  - rewrite <- Hs'. cbn [random_state]. exact Hrng.
  - intros v c Hv' Hc. exact (Hin v c Hv' Hc).
Qed.

(** X6.  Snapshots never share a dictionary.  The capacity dictionaries
    and the assignment dictionaries the returned snapshots refer to are
    pairwise distinct objects, all of them created by the call: none is
    the caller's capacity dictionary or any dictionary that existed
    before, and the call creates one more dictionary of each kind than
    there are snapshots (the working copy). *)
Theorem snapshots_do_not_alias (df : DataFrame) (cd : ref) (mp : Z) (fb : bool)
    (seed : option Z) (s : store) :
  has_column df "id" = true ->
  has_column df "gpa" = true ->
  exists snaps s',
    allocation_steps df cd mp fb seed s = (inr snaps, s') /\
    NoDup (map remaining snaps) /\
    NoDup (map assignments snaps) /\
    (forall sn, In sn snaps ->
       (List.length (caps_heap s) < remaining sn < List.length (caps_heap s'))%nat /\
       (List.length (asg_heap s) < assignments sn < List.length (asg_heap s'))%nat) /\
    List.length (caps_heap s') = (List.length (caps_heap s) + 1 + List.length snaps)%nat /\
    List.length (asg_heap s') = (List.length (asg_heap s) + 1 + List.length snaps)%nat.
Proof.
  intros Hid Hg.
  pose proof (allocation_steps_run df cd mp fb seed s Hid Hg) as Hrun.
  do 2 eexists. split; [exact Hrun|].
  set (vs := trace df cd mp fb seed s).
  destruct (snapshots_at_refs vs (S (List.length (caps_heap s)))
              (S (List.length (asg_heap s)))) as [Hr Ha].
  assert (Hlen : List.length (snapshots_at (S (List.length (caps_heap s)))
                                (S (List.length (asg_heap s))) vs)
                 = List.length vs).
  { rewrite <- (length_map remaining), Hr. apply length_seq. }
  cbn [caps_heap asg_heap].
  rewrite !length_app. cbn [List.length]. rewrite !length_map. fold vs.
  rewrite Hlen, Hr, Ha.
  repeat split; try apply seq_NoDup; try lia.
  - apply (in_map remaining) in H. rewrite Hr in H. apply in_seq in H. lia.
  - apply (in_map remaining) in H. rewrite Hr in H. apply in_seq in H. lia.
  - apply (in_map assignments) in H. rewrite Ha in H. apply in_seq in H. lia.
  - apply (in_map assignments) in H. rewrite Ha in H. apply in_seq in H. lia.
Qed.

(** X7.  Capacities only go down.  Every snapshot lists the categories of
    the capacity dictionary, in its order, and from one snapshot to a
    later one no category's remaining count grows; no count exceeds the
    capacity the call started from. *)
Theorem capacities_only_decrease (df : DataFrame) (cd : ref) (mp : Z) (fb : bool)
    (seed : option Z) (s : store) :
  has_column df "id" = true ->
  has_column df "gpa" = true ->
  exists snaps s',
    allocation_steps df cd mp fb seed s = (inr snaps, s') /\
    forall i j vi vj,
      (i <= j)%nat ->
      nth_error (map (view s') snaps) i = Some vi ->
      nth_error (map (view s') snaps) j = Some vj ->
      dict_keys (v_remaining vj) = dict_keys (nth cd (caps_heap s) []) /\
      forall x,
        dict_get String.eqb (v_remaining vj) x 0
        <= dict_get String.eqb (v_remaining vi) x 0
        <= dict_get String.eqb (nth cd (caps_heap s) []) x 0.
Proof.
  intros Hid Hg.
  destruct (run_views df cd mp fb seed s Hid Hg) as (snaps & s' & Hrun & Hv).
  exists snaps, s'. split; [exact Hrun|]. rewrite Hv.
  intros i j vi vj Hij Ei Ej.
  assert (Hj : (j < List.length (trace df cd mp fb seed s))%nat)
    by (apply nth_error_Some; congruence).
  split.
  - rewrite <- (capacity_after _ _ _ _ _ _ _ Ej). apply capacity_before_keys.
  - intros x.
    destruct (capacity_before_le df cd mp fb seed s x (S i) (j - i)) as [H1|H1];
      [|lia].
    destruct (capacity_before_le df cd mp fb seed s x 0 (S i)) as [H2|H2];
      [|simpl in H2; lia].
    replace (S i + (j - i))%nat with (S j) in H1 by lia.
    cbn [Nat.add] in H2.
    rewrite (capacity_after _ _ _ _ _ _ _ Ei) in H1, H2.
    rewrite (capacity_after _ _ _ _ _ _ _ Ej) in H1.
    cbn [capacity_before] in H2. lia.
Qed.

(** X8.  A category without seats stays out of the allocation.  When the
    capacity dictionary has no repeated key and gives a category zero or
    a negative number of seats, no student is ever assigned that
    category, by preference or by fallback, and every snapshot shows its
    count unchanged. *)
Theorem full_category_untouched (df : DataFrame) (cd : ref) (mp : Z) (fb : bool)
    (seed : option Z) (s : store) (c : string) :
  has_column df "id" = true ->
  has_column df "gpa" = true ->
  dict_wf (nth cd (caps_heap s) []) ->
  dict_get String.eqb (nth cd (caps_heap s) []) c 0 <= 0 ->
  exists snaps s',
    allocation_steps df cd mp fb seed s = (inr snaps, s') /\
    forall v,
      In v (map (view s') snaps) ->
      v_chosen v <> Some c /\
      dict_lookup String.eqb (v_remaining v) c
      = dict_lookup String.eqb (nth cd (caps_heap s) []) c.
Proof.
  intros Hid Hg Hwf Hc.
  destruct (run_views df cd mp fb seed s Hid Hg) as (snaps & s' & Hrun & Hv).
  exists snaps, s'. split; [exact Hrun|]. rewrite Hv.
  assert (Hinv : forall k,
            dict_wf (capacity_before (nth cd (caps_heap s) [])
                       (trace df cd mp fb seed s) k) /\
            dict_lookup String.eqb
              (capacity_before (nth cd (caps_heap s) [])
                 (trace df cd mp fb seed s) k) c
            = dict_lookup String.eqb (nth cd (caps_heap s) []) c).
  { intros k.
    apply capacity_before_ind
      with (P := fun d => dict_wf d /\
                          dict_lookup String.eqb d c
                          = dict_lookup String.eqb (nth cd (caps_heap s) []) c);
      [now split|].
    intros caps g ps [H1 H2]. split; [now apply step_keeps_wf|].
    destruct (fst (fst (step fb caps g ps))) as [c'|] eqn:E.
    - destruct (step_chosen_spec _ _ _ H1 E) as [Hpos _].
      destruct (step_some _ _ _ _ E) as [_ ->].
      rewrite decrement_lookup_other; [exact H2|].
      intros ->. unfold dict_get in Hpos, Hc. rewrite H2 in Hpos. lia.
    - destruct (step_none _ _ _ _ E) as [-> _]. exact H2. }
  intros v Hin. apply In_nth_error in Hin. destruct Hin as [k E].
  split.
  - intros Hch.
    destruct (trace_step _ _ _ _ _ _ _ E) as (gk & Hs).
    assert (Hck : fst (fst (step fb (capacity_before (nth cd (caps_heap s) [])
                                      (trace df cd mp fb seed s) k) gk (v_prefs v)))
                  = Some c) by (now rewrite Hs).
    destruct (Hinv k) as [Hwk Hlk].
    destruct (step_chosen_spec _ _ _ Hwk Hck) as [Hpos _].
    unfold dict_get in Hpos, Hc. rewrite Hlk in Hpos. lia.
  - destruct (Hinv (S k)) as [_ Hl].
    now rewrite (capacity_after _ _ _ _ _ _ _ E) in Hl.
Qed.
End EngineExtras.

(** ** The further engine properties at the tables of the tests *)

(** Capacities with one category that has no seat. *)
Definition caps_with_full : dict string Z :=
  [("Software", 1); ("Mechanical", 0); ("Engineering Science", 1)].

Ltac solve_wf :=
  unfold dict_wf; cbn;
  repeat (constructor; [cbn; intuition discriminate|]); constructor.

Ltac solve_nonneg :=
  let Hin := fresh "Hin" in
  intros ? ? Hin; cbn in Hin;
  repeat (destruct Hin as [Hin|Hin]; [injection Hin as <- <-; lia|]);
  destruct Hin.

Lemma no_justified_envy_witness :
  has_column fallback_df "id" = true /\
  has_column fallback_df "gpa" = true /\
  dict_wf fallback_caps /\
  exists snaps s',
    allocation_steps (RM := reference_random) (FS := reference_sort)
      fallback_df 0%nat 2 true (Some 42) (store_with fallback_caps) = (inr snaps, s') /\
    forall i j vi vj d,
      (i < j)%nat ->
      nth_error (map (view s') snaps) i = Some vi ->
      nth_error (map (view s') snaps) j = Some vj ->
      In d (v_prefs vi) ->
      v_chosen vj = Some d ->
      exists front c back,
        v_prefs vi = front ++ c :: back /\ v_chosen vi = Some c /\ ~ In d front.
Proof.
  split; [reflexivity|]. split; [reflexivity|]. split; [solve_wf|].
  apply (no_justified_envy (RM := reference_random) (FS := reference_sort)
           fallback_df 0%nat 2 true (Some 42) (store_with fallback_caps));
    [reflexivity|reflexivity|solve_wf].
Defined.

Lemma seats_never_oversold_witness :
  has_column fallback_df "id" = true /\
  has_column fallback_df "gpa" = true /\
  dict_wf fallback_caps /\
  all_nonneg fallback_caps /\
  exists snaps s',
    allocation_steps (RM := reference_random) (FS := reference_sort)
      fallback_df 0%nat 2 true (Some 42) (store_with fallback_caps) = (inr snaps, s') /\
    forall k v,
      nth_error (map (view s') snaps) k = Some v ->
      all_nonneg (v_remaining v) /\
      forall c,
        Z.of_nat (count_assigned (entries (firstn (S k) (map (view s') snaps))) c)
        <= dict_get String.eqb fallback_caps c 0.
Proof.
  split; [reflexivity|]. split; [reflexivity|]. split; [solve_wf|].
  split; [solve_nonneg|].
  apply (seats_never_oversold (RM := reference_random) (FS := reference_sort)
           fallback_df 0%nat 2 true (Some 42) (store_with fallback_caps));
    [reflexivity|reflexivity|solve_wf|solve_nonneg].
Defined.

Lemma assignment_is_sound_witness :
  has_column fallback_df "id" = true /\
  has_column fallback_df "gpa" = true /\
  dict_wf fallback_caps /\
  exists snaps s',
    allocation_steps (RM := reference_random) (FS := reference_sort)
      fallback_df 0%nat 2 true (Some 42) (store_with fallback_caps) = (inr snaps, s') /\
    forall k v c,
      nth_error (map (view s') snaps) k = Some v ->
      v_chosen v = Some c ->
      In c (dict_keys fallback_caps) /\
      0 < dict_get String.eqb
            (capacity_before fallback_caps (map (view s') snaps) k) c 0 /\
      ((exists front back,
          v_prefs v = front ++ c :: back /\
          forall x, In x front ->
            dict_get String.eqb
              (capacity_before fallback_caps (map (view s') snaps) k) x 0 <= 0) \/
       (true = true /\ ~ In c (v_prefs v) /\
        forall x, In x (v_prefs v) ->
          dict_get String.eqb
            (capacity_before fallback_caps (map (view s') snaps) k) x 0 <= 0)).
Proof.
  split; [reflexivity|]. split; [reflexivity|]. split; [solve_wf|].
  apply (assignment_is_sound (RM := reference_random) (FS := reference_sort)
           fallback_df 0%nat 2 true (Some 42) (store_with fallback_caps));
    [reflexivity|reflexivity|solve_wf].
Defined.

Lemma unassigned_only_when_full_witness :
  has_column fallback_df "id" = true /\
  has_column fallback_df "gpa" = true /\
  dict_wf priority_caps /\
  exists snaps s',
    allocation_steps (RM := reference_random) (FS := reference_sort)
      fallback_df 0%nat 2 true (Some 42) (store_with priority_caps) = (inr snaps, s') /\
    forall k v,
      nth_error (map (view s') snaps) k = Some v ->
      v_chosen v = None ->
      v_remaining v = capacity_before priority_caps (map (view s') snaps) k /\
      (forall x, In x (v_prefs v) ->
         dict_get String.eqb
           (capacity_before priority_caps (map (view s') snaps) k) x 0 <= 0) /\
      (true = true ->
       forall c n,
         In (c, n) (capacity_before priority_caps (map (view s') snaps) k) ->
         n <= 0).
Proof.
  split; [reflexivity|]. split; [reflexivity|]. split; [solve_wf|].
  apply (unassigned_only_when_full (RM := reference_random) (FS := reference_sort)
           fallback_df 0%nat 2 true (Some 42) (store_with priority_caps));
    [reflexivity|reflexivity|solve_wf].
Defined.

Lemma fallback_off_never_draws_witness :
  has_column fallback_df "id" = true /\
  has_column fallback_df "gpa" = true /\
  exists snaps s',
    allocation_steps (RM := reference_random) (FS := reference_sort)
      fallback_df 1%nat 2 false None other_store = (inr snaps, s') /\
    random_state s' = 7 /\
    forall v c,
      In v (map (view s') snaps) -> v_chosen v = Some c -> In c (v_prefs v).
Proof.
  split; [reflexivity|]. split; [reflexivity|].
  apply (fallback_off_never_draws (RM := reference_random) (FS := reference_sort)
           fallback_df 1%nat 2 None other_store); reflexivity.
Defined.

Lemma snapshots_do_not_alias_witness :
  has_column fallback_df "id" = true /\
  has_column fallback_df "gpa" = true /\
  exists snaps s',
    allocation_steps (RM := reference_random) (FS := reference_sort)
      fallback_df 1%nat 2 true (Some 42) other_store = (inr snaps, s') /\
    NoDup (map remaining snaps) /\
    NoDup (map assignments snaps) /\
    (forall sn, In sn snaps ->
       (2 < remaining sn < List.length (caps_heap s'))%nat /\
       (1 < assignments sn < List.length (asg_heap s'))%nat) /\
    List.length (caps_heap s') = (2 + 1 + List.length snaps)%nat /\
    List.length (asg_heap s') = (1 + 1 + List.length snaps)%nat.
Proof.
  split; [reflexivity|]. split; [reflexivity|].
  apply (snapshots_do_not_alias (RM := reference_random) (FS := reference_sort)
           fallback_df 1%nat 2 true (Some 42) other_store); reflexivity.
Defined.

Lemma capacities_only_decrease_witness :
  has_column fallback_df "id" = true /\
  has_column fallback_df "gpa" = true /\
  exists snaps s',
    allocation_steps (RM := reference_random) (FS := reference_sort)
      fallback_df 0%nat 2 true (Some 42) (store_with fallback_caps) = (inr snaps, s') /\
    forall i j vi vj,
      (i <= j)%nat ->
      nth_error (map (view s') snaps) i = Some vi ->
      nth_error (map (view s') snaps) j = Some vj ->
      dict_keys (v_remaining vj) = dict_keys fallback_caps /\
      forall x,
        dict_get String.eqb (v_remaining vj) x 0
        <= dict_get String.eqb (v_remaining vi) x 0
        <= dict_get String.eqb fallback_caps x 0.
Proof.
  split; [reflexivity|]. split; [reflexivity|].
  apply (capacities_only_decrease (RM := reference_random) (FS := reference_sort)
           fallback_df 0%nat 2 true (Some 42) (store_with fallback_caps)); reflexivity.
Defined.

Lemma full_category_untouched_witness :
  has_column fallback_df "id" = true /\
  has_column fallback_df "gpa" = true /\
  dict_wf caps_with_full /\
  dict_get String.eqb caps_with_full "Mechanical" 0 <= 0 /\
  exists snaps s',
    allocation_steps (RM := reference_random) (FS := reference_sort)
      fallback_df 0%nat 2 true (Some 42) (store_with caps_with_full) = (inr snaps, s') /\
    forall v,
      In v (map (view s') snaps) ->
      v_chosen v <> Some "Mechanical" /\
      dict_lookup String.eqb (v_remaining v) "Mechanical" = Some 0.
Proof.
  split; [reflexivity|]. split; [reflexivity|]. split; [solve_wf|].
  split; [cbn; lia|].
  apply (full_category_untouched (RM := reference_random) (FS := reference_sort)
           fallback_df 0%nat 2 true (Some 42) (store_with caps_with_full) "Mechanical");
    [reflexivity|reflexivity|solve_wf|cbn; lia].
Defined.

(* ================================================================== *)
(** * The preference columns *)
(* ================================================================== *)

(** The number a sequence of decimal digits writes. *)
Definition decimal_value (ds : list N) : Z :=
  fold_left (fun acc c => 10 * acc + match digit_of c with
                                     | Some d => d
                                     | None => 0
                                     end) ds 0.

Definition is_digit (c : N) : Prop := digit_of c <> None.

Lemma space_not_digit (c : N) : is_space c = true -> digit_of c = None.
Proof.
  unfold is_space, digit_of. destruct (c <? 127)%N.
  - intros H.
    destruct (N.leb_spec 48 c); [|reflexivity].
    destruct (N.leb_spec c 57); [|reflexivity].
    destruct (N.leb_spec c 13); [lia|].
    destruct (N.eqb_spec c 32); [lia|].
    rewrite andb_false_r in H. discriminate.
  - intros H. apply existsb_exists in H. destruct H as (x & Hin & Hx).
    apply N.eqb_eq in Hx. subst x. cbn in Hin.
    repeat (destruct Hin as [<-|Hin]; [reflexivity|]). destruct Hin.
Qed.

Lemma digit_not_space (c : N) : is_digit c -> is_space c = false.
Proof.
  intros H. destruct (is_space c) eqn:E; [|reflexivity].
  apply space_not_digit in E. contradiction.
Qed.

Lemma lstrip_id (l : list N) :
  (forall c, In c l -> is_space c = false) -> lstrip l = l.
Proof.
  destruct l as [|c l]; [reflexivity|]. intros H. simpl.
  now rewrite (H c (or_introl eq_refl)).
Qed.

Lemma strip_digits (ds : list N) : Forall is_digit ds -> strip ds = ds.
Proof.
  intros H. rewrite Forall_forall in H. unfold strip.
  rewrite (lstrip_id ds) by (intros c Hc; apply digit_not_space; auto).
  rewrite lstrip_id; [apply rev_involutive|].
  intros c Hc. apply digit_not_space, H. now apply In_rev.
Qed.

Lemma parse_digits_all (ds : list N) :
  Forall is_digit ds ->
  forall prev acc,
    ds <> [] \/ prev = true ->
    parse_digits prev acc ds
    = Some (fold_left (fun acc c => 10 * acc + match digit_of c with
                                               | Some d => d
                                               | None => 0
                                               end) ds acc).
Proof.
  induction 1 as [|c ds Hc Hds IH]; intros prev acc Hne.
  - destruct Hne as [Hne| ->]; [contradiction|reflexivity].
  - cbn [parse_digits fold_left]. unfold is_digit in Hc.
    destruct (digit_of c) as [d|]; [|contradiction].
    apply IH. now right.
Qed.

Lemma digits_counted (ds : list N) :
  Forall is_digit ds ->
  filter (fun c => match digit_of c with Some _ => true | None => false end) ds
  = ds.
Proof.
  induction 1 as [|c ds Hc _ IH]; [reflexivity|]. cbn [filter].
  unfold is_digit in Hc. destruct (digit_of c); [|contradiction].
  now rewrite IH.
Qed.

Lemma parse_limited_digits (ds : list N) :
  ds <> [] ->
  Forall is_digit ds ->
  parse_limited ds
  = if (List.length ds <=? int_max_str_digits)%nat
    then Some (decimal_value ds) else None.
Proof.
  intros Hne Hds. unfold parse_limited. rewrite (digits_counted Hds).
  destruct (List.length ds <=? int_max_str_digits)%nat; [|reflexivity].
  apply parse_digits_all; auto.
Qed.

Lemma insert_by_key_perm (A : Type) (key : A -> Z) (x : A) (l : list A) :
  Permutation (insert_by_key key x l) (x :: l).
Proof.
  induction l as [|y l IH]; simpl; [reflexivity|].
  destruct (key x <? key y); [reflexivity|].
  rewrite IH. apply perm_swap.
Qed.

Lemma insert_by_key_sorted (A : Type) (key : A -> Z) (x : A) (l : list A) :
  StronglySorted (fun a b => key a <= key b) l ->
  StronglySorted (fun a b => key a <= key b) (insert_by_key key x l).
Proof.
  induction 1 as [|y l Hs IH Hy]; simpl.
  - constructor; constructor.
  - destruct (key x <? key y) eqn:E.
    + apply Z.ltb_lt in E. constructor; [now constructor|].
      constructor; [lia|]. rewrite Forall_forall in *.
      intros z Hz. specialize (Hy z Hz). lia.
    + apply Z.ltb_ge in E. constructor; [exact IH|].
      rewrite Forall_forall in *. intros z Hz.
      apply (Permutation_in _ (insert_by_key_perm key x l)) in Hz.
      destruct Hz as [<-|Hz]; [exact E|now apply Hy].
Qed.

Lemma sorted_by_key_acc (A : Type) (key : A -> Z) (l : list A) :
  forall acc,
    StronglySorted (fun a b => key a <= key b) acc ->
    StronglySorted (fun a b => key a <= key b)
      (fold_left (fun acc x => insert_by_key key x acc) l acc) /\
    Permutation (fold_left (fun acc x => insert_by_key key x acc) l acc) (acc ++ l).
Proof.
  induction l as [|x l IH]; intros acc Hs; simpl.
  - split; [exact Hs|now rewrite app_nil_r].
  - destruct (IH (insert_by_key key x acc) (insert_by_key_sorted key x Hs))
      as [H1 H2].
    split; [exact H1|]. rewrite H2, insert_by_key_perm.
    now rewrite <- Permutation_middle.
Qed.

Lemma sorted_by_key_spec (A : Type) (key : A -> Z) (l : list A) :
  StronglySorted (fun a b => key a <= key b) (sorted_by_key key l) /\
  Permutation (sorted_by_key key l) l.
Proof.
  exact (sorted_by_key_acc key l (SSorted_nil _)).
Qed.

Lemma firstn_sorted (A : Type) (R : A -> A -> Prop) (l : list A) :
  StronglySorted R l -> forall n, StronglySorted R (firstn n l).
Proof.
  induction 1 as [|x l Hs IH Hx]; intros [|n]; simpl; try constructor.
  - apply IH.
  - rewrite Forall_forall in *. intros y Hy. apply Hx.
    rewrite <- (firstn_skipn n l). apply in_or_app. now left.
Qed.

Lemma in_firstn (A : Type) (n : nat) (l : list A) (x : A) :
  In x (firstn n l) -> In x l.
Proof.
  intros H. rewrite <- (firstn_skipn n l). apply in_or_app. now left.
Qed.

Lemma slice_to_firstn (A : Type) (n : Z) (l : list A) :
  exists m, slice_to n l = firstn m l.
Proof. unfold slice_to. destruct (0 <=? n); eauto. Qed.

Lemma notna_values_length (cells : list (option string)) :
  (List.length (notna_values cells) <= List.length cells)%nat.
Proof.
  induction cells as [|[v|] cells IH]; simpl; lia.
Qed.

Lemma notna_values_in (cells : list (option string)) (p : string) :
  In p (notna_values cells) <-> In (Some p) cells.
Proof.
  induction cells as [|[v|] cells IH]; simpl; [tauto| |].
  - rewrite IH. split; intros [H|H]; auto; left; congruence.
  - rewrite IH. split; [auto|]. intros [H|H]; [discriminate|exact H].
Qed.

Lemma pref_columns_in (df : DataFrame) (max_prefs : Z) (c : string) :
  In c (pref_columns df max_prefs) ->
  In c (columns df) /\ startswith c "pref" = true /\ In c (cell_columns df).
Proof.
  unfold pref_columns. intros H.
  destruct (slice_to_firstn max_prefs
              (sorted_by_key _pref_index
                 (filter (fun c => startswith c "pref") (columns df)))) as [m Hm].
  rewrite Hm in H. apply in_firstn in H.
  apply (Permutation_in _ (proj2 (sorted_by_key_spec _ _))) in H.
  apply filter_In in H. destruct H as [Hin Hpre].
  repeat split; [exact Hin|exact Hpre|].
  unfold cell_columns. apply filter_In. split; [exact Hin|].
  destruct (String.eqb_spec c "id") as [->|_]; [discriminate Hpre|].
  destruct (String.eqb_spec c "gpa") as [->|_]; [discriminate Hpre|].
  reflexivity.
Qed.

Lemma pref_columns_length (df : DataFrame) (max_prefs : Z) :
  0 <= max_prefs ->
  (List.length (pref_columns df max_prefs) <= Z.to_nat max_prefs)%nat.
Proof.
  intros H. unfold pref_columns, slice_to.
  destruct (0 <=? max_prefs) eqn:E; [|apply Z.leb_gt in E; lia].
  rewrite length_firstn. lia.
Qed.

(** X9.  The name of a preference column is read as a rank.  When the
    name, read as a sequence of characters, is four characters followed
    by decimal digits (of any script) and nothing else, the rank is the
    number the digits write (so ["pref10"] ranks after ["pref2"], and
    leading zeros do not matter), provided there are at most 4300 digits;
    with more digits [int] raises [ValueError] and the rank is 999. *)
Theorem pref_index_of_digits (col_name : string) (prefix ds : list N) :
  str_of col_name = prefix ++ ds ->
  List.length prefix = 4%nat ->
  ds <> [] ->
  Forall is_digit ds ->
  _pref_index col_name
  = if (List.length ds <=? int_max_str_digits)%nat
    then decimal_value ds else 999.
Proof.
  intros Hname Hp Hne Hds. unfold _pref_index, py_int.
  rewrite Hname, <- Hp, skipn_app, skipn_all, Nat.sub_diag. cbn [skipn app].
  rewrite (strip_digits Hds).
  destruct ds as [|c rest] eqn:E; [contradiction|]. rewrite <- E in *.
  assert (Hc : is_digit c) by (rewrite E in Hds; now inversion Hds).
  destruct (N.eqb_spec c 45) as [->|_]; [now exfalso; apply Hc|].
  destruct (N.eqb_spec c 43) as [->|_]; [now exfalso; apply Hc|].
  rewrite (parse_limited_digits Hne Hds).
  now destruct (List.length ds <=? int_max_str_digits)%nat.
Qed.

(** X10.  The preference columns of a table: every one is a column of the
    table whose name starts with ["pref"] (so never ["id"] or ["gpa"]),
    they come in order of rank, a non-negative [max_prefs] keeps the
    [max_prefs] first of them (all of them when there are no more), and a
    negative [max_prefs] drops that many from the end instead of keeping
    none. *)
Theorem pref_columns_spec (df : DataFrame) (max_prefs : Z) :
  (forall c, In c (pref_columns df max_prefs) ->
     In c (columns df) /\ startswith c "pref" = true /\ In c (cell_columns df)) /\
  StronglySorted (fun a b => _pref_index a <= _pref_index b)
    (pref_columns df max_prefs) /\
  List.length (pref_columns df max_prefs)
  = (if 0 <=? max_prefs
     then Nat.min (Z.to_nat max_prefs)
            (List.length (filter (fun c => startswith c "pref") (columns df)))
     else (List.length (filter (fun c => startswith c "pref") (columns df))
           - Z.to_nat (- max_prefs))%nat) /\
  (Z.of_nat (List.length (filter (fun c => startswith c "pref") (columns df)))
   <= max_prefs ->
   Permutation (pref_columns df max_prefs)
     (filter (fun c => startswith c "pref") (columns df))).
Proof.
  split; [apply pref_columns_in|].
  unfold pref_columns.
  set (pc := filter (fun c => startswith c "pref") (columns df)).
  destruct (sorted_by_key_spec _pref_index pc) as [Hs Hp].
  assert (Hlen : List.length (sorted_by_key _pref_index pc) = List.length pc)
    by (now apply Permutation_length).
  repeat split.
  - destruct (slice_to_firstn max_prefs (sorted_by_key _pref_index pc)) as [m ->].
    now apply firstn_sorted.
  - unfold slice_to. destruct (0 <=? max_prefs).
    + now rewrite length_firstn, Hlen.
    + rewrite length_firstn, Hlen. lia.
  - intros Hall. unfold slice_to.
    destruct (0 <=? max_prefs) eqn:E; [|apply Z.leb_gt in E; lia].
    rewrite firstn_all2 by lia. exact Hp.
Qed.

Section PreferenceExtras.
Context {RM : RandomModule} {FS : FrameSort}.

(** X11.  What a snapshot shows as a student's preferences.  With a
    non-negative [max_prefs] the list never has more than [max_prefs]
    entries (none at all for [max_prefs = 0]), and every entry is the
    value, not missing, of one of the student's cells in a column of the
    table whose name starts with ["pref"]: identifiers, scores and other
    columns never leak into it. *)
Theorem effective_prefs_bounded (df : DataFrame) (cd : ref) (mp : Z) (fb : bool)
    (seed : option Z) (s : store) :
  has_column df "id" = true ->
  has_column df "gpa" = true ->
  0 <= mp ->
  exists snaps s',
    allocation_steps df cd mp fb seed s = (inr snaps, s') /\
    forall v,
      In v (map (view s') snaps) ->
      (List.length (v_prefs v) <= Z.to_nat mp)%nat /\
      forall p, In p (v_prefs v) ->
        exists row col,
          In row (rows df) /\ row_id row = v_student_id v /\
          In col (columns df) /\ startswith col "pref" = true /\
          row_get (cell_columns df) (row_cells row) col = Some p.
Proof.
  intros Hid Hg Hmp.
  destruct (run_views df cd mp fb seed s Hid Hg) as (snaps & s' & Hrun & Hv).
  exists snaps, s'. split; [exact Hrun|]. rewrite Hv.
  intros v Hin. apply In_nth_error in Hin. destruct Hin as [k E].
  destruct (trace_row _ _ _ _ _ _ _ E) as (row & Hrow & Hidr & _ & Hprefs).
  rewrite Hprefs. unfold row_prefs. split.
  - eapply Nat.le_trans; [apply notna_values_length|].
    rewrite length_map. now apply pref_columns_length.
  - intros p Hp. apply notna_values_in in Hp. apply in_map_iff in Hp.
    destruct Hp as (col & Hget & Hcol).
    destruct (pref_columns_in _ _ _ Hcol) as (Hc1 & Hc2 & _).
    exists row, col. repeat split; auto.
Qed.
End PreferenceExtras.

Lemma pref_index_of_digits_witness :
  str_of "pref10" = [112; 114; 101; 102]%N ++ [49; 48]%N /\
  List.length [112; 114; 101; 102]%N = 4%nat /\
  [49; 48]%N <> [] /\
  Forall is_digit [49; 48]%N /\
  _pref_index "pref10" = 10.
Proof.
  assert (Hds : Forall is_digit [49; 48]%N)
    by (repeat constructor; discriminate).
  assert (Hne : [49; 48]%N <> []) by discriminate.
  split; [reflexivity|]. split; [reflexivity|]. split; [exact Hne|].
  split; [exact Hds|].
  exact (@pref_index_of_digits "pref10" [112; 114; 101; 102]%N [49; 48]%N
           eq_refl eq_refl Hne Hds).
Defined.

Lemma effective_prefs_bounded_witness :
  has_column fallback_df "id" = true /\
  has_column fallback_df "gpa" = true /\
  0 <= 1 /\
  exists snaps s',
    allocation_steps (RM := reference_random) (FS := reference_sort)
      fallback_df 0%nat 1 true (Some 42) (store_with fallback_caps) = (inr snaps, s') /\
    forall v,
      In v (map (view s') snaps) ->
      (List.length (v_prefs v) <= 1)%nat /\
      forall p, In p (v_prefs v) ->
        exists row col,
          In row (rows fallback_df) /\ row_id row = v_student_id v /\
          In col (columns fallback_df) /\ startswith col "pref" = true /\
          row_get (cell_columns fallback_df) (row_cells row) col = Some p.
Proof.
  split; [reflexivity|]. split; [reflexivity|]. split; [lia|].
  apply (@effective_prefs_bounded reference_random reference_sort
           fallback_df 0%nat 1 true (Some 42) (store_with fallback_caps));
    [reflexivity|reflexivity|lia].
Defined.

(* ================================================================== *)
(** * The generator's records: identifiers, scores, preferences *)
(* ================================================================== *)

(** One record appended to [rows] by [generate_random_students]: the
    identifier, the stored score and the preferences, [pref1] first. *)
Record StudentRecord := mkStudentRecord {
  rec_id : Z;
  rec_gpa : float;
  rec_prefs : list string
}.

(** Library behaviour of [random.sample(population, k)] for
    [0 <= k <= len(population)]: [k] entries taken at distinct positions
    of the population. *)
Class SampleModule {RM : RandomModule} := {
  sample_distinct : list string -> nat -> rng -> list string * rng;
  sample_distinct_length :
    forall l k g, (k <= List.length l)%nat ->
      List.length (fst (sample_distinct l k g)) = k;
  sample_distinct_perm :
    forall l k g, (k <= List.length l)%nat ->
      exists rest, Permutation (fst (sample_distinct l k g) ++ rest) l
}.

Section Generator.
Context {RM : RandomModule} {SM : SampleModule}.
Variable math_exp : float -> float.
Variable libm_pow2 : float -> float.

(** [random.sample(population, k=k)]: a [k] outside [0 .. len(population)]
    is a [ValueError]. *)
Definition random_sample (population : list string) (k : Z) : M (list string) :=
  if (k <? 0) || (Z.of_nat (List.length population) <? k) then raise ValueError
  else
    fun s =>
      let (l, g) := sample_distinct population (Z.to_nat k) (random_state s) in
      (inr l, mkStore (caps_heap s) (asg_heap s) g).

(** [random.randrange(n)] for [n >= 0]: an empty range is a [ValueError]. *)
Definition random_randrange (n : nat) : M Z :=
  if (n =? 0)%nat then raise ValueError
  else
    fun s =>
      let (k, g) := randbelow n (random_state s) in
      (inr (Z.of_nat k), mkStore (caps_heap s) (asg_heap s) g).

(** The scan of [weighted_pop_index]: the running sum of [p / s], the
    first index where it reaches [r], the last index when none does. *)
Fixpoint weighted_index_scan (r s cum : float) (idx : Z) (probs_list : list float)
  : exn + Z :=
  match probs_list with
  | [] => inr (idx - 1)
  | p :: rest =>
      match py_div p s with
      | inl e => inl e
      | inr q =>
          let cum' := (cum + q)%float in
          if (r <=? cum')%float then inr idx
          else weighted_index_scan r s cum' (idx + 1) rest
      end
  end.

Definition weighted_pop_index (probs_list : list float) : M Z :=
  r <- random_random ;;
  let s := py_sum probs_list in
  if (s <=? 0)%float then random_randrange (List.length probs_list)
  else lift (weighted_index_scan r s 0 0 probs_list).

(** The loop of the weighted selection, [rounds] rounds. *)
Fixpoint select_weighted (rounds : nat) (choices_copy : list string)
    (probs_copy : list float) (sel : list string) : M (list string) :=
  match rounds with
  | O => ret sel
  | S rounds' =>
      idx <- weighted_pop_index probs_copy ;;
      popped <- lift (py_pop choices_copy idx) ;;
      popped_p <- lift (py_pop probs_copy idx) ;;
      select_weighted rounds' (snd popped) (snd popped_p) (sel ++ [fst popped])
  end.

(** Lines 123-159: the preferences of one student, for the number of
    preferences already capped by the number of categories. *)
Definition draw_prefs (specs : list string) (n_prefs : Z)
    (pref_weights : option (dict string float)) : M (list string) :=
  match pref_weights with
  | None => random_sample specs n_prefs
  | Some w =>
      let choices := specs in
      let probs := map (fun s => dict_get String.eqb w s 0%float) choices in
      if (py_sum probs <=? 0)%float then random_sample specs n_prefs
      else
        sel <- select_weighted
                 (Z.to_nat (Z.min n_prefs (Z.of_nat (List.length choices))))
                 choices probs [] ;;
        if Z.of_nat (List.length sel) <? n_prefs then
          let remaining :=
            filter (fun c => negb (existsb (String.eqb c) sel)) specs in
          extra <- random_sample remaining (n_prefs - Z.of_nat (List.length sel)) ;;
          ret (sel ++ extra)
        else ret sel
  end.

(** Lines 31-112: the levels drawn for the students, before they are
    rounded for storage. *)
Definition draw_gpas (n_students : Z) (gpa_min gpa_max : float)
    (seed : option Z) (mean std : option float)
    (sampling_with_replacement : bool) : M (list float) :=
  match seed with Some n => random_seed n | None => ret tt end ;;
  let allowed := allowed_gpas gpa_min gpa_max in
  let mean' := match mean with
               | Some m => m
               | None => ((gpa_min + gpa_max) / 2)%float
               end in
  let std' := match std with
              | Some sd => sd
              | None => ((gpa_max - gpa_min) / 6)%float
              end in
  probs <- lift (level_probs math_exp libm_pow2 allowed mean' std') ;;
  allowed' <- match allowed with
              | [] =>
                  repeat_draw (Z.to_nat (Z.max 1 n_students))
                    (u <- random_uniform gpa_min gpa_max ;; ret (py_round u 3))
              | _ => ret allowed
              end ;;
  if sampling_with_replacement then
    random_choices allowed' probs n_students
  else
    let rounds := Z.to_nat (Z.min n_students (Z.of_nat (List.length allowed'))) in
    drawn <- draw_without_replacement rounds allowed' probs [] ;;
    if Z.of_nat (List.length drawn) <? n_students then
      extras <- random_choices allowed' probs
                  (n_students - Z.of_nat (List.length drawn)) ;;
      ret (drawn ++ extras)
    else ret drawn.

(** Lines 31-164 of [generate_random_students]: the records appended to
    [rows], in generation order.  The table is then built from them and
    sorted by score. *)
Definition generate_rows (n_students : Z) (specs : list string) (n_prefs : Z)
    (gpa_min gpa_max : float) (seed : option Z) (mean std : option float)
    (sampling_with_replacement : bool)
    (pref_weights : option (dict string float)) : M (list StudentRecord) :=
  let n_prefs' := Z.min n_prefs (Z.of_nat (List.length specs)) in
  gpas <- draw_gpas n_students gpa_min gpa_max seed mean std
            sampling_with_replacement ;;
  for_each (seq 0 (Z.to_nat n_students))
    (fun i =>
       gpa <- lift (match nth_error gpas i with
                    | Some g => inr (py_round g 3)
                    | None => inl IndexError
                    end) ;;
       prefs <- draw_prefs specs n_prefs' pref_weights ;;
       ret (mkStudentRecord (Z.of_nat i + 1) gpa prefs)).
End Generator.

(** A reference [random.sample]: [k] draws, each removing the entry it
    takes. *)
Fixpoint sample_by_removal (pool : list string) (k : nat) (g : Z)
  : list string * Z :=
  match k with
  | O => ([], g)
  | S k' =>
      let j := fst (lcg_randbelow (List.length pool) g) in
      let r := sample_by_removal (firstn j pool ++ skipn (S j) pool) k'
                 (snd (lcg_randbelow (List.length pool) g)) in
      (nth j pool "" :: fst r, snd r)
  end.

Lemma remove_nth_perm {A} (d : A) (l : list A) :
  forall j, (j < List.length l)%nat ->
    Permutation l (nth j l d :: firstn j l ++ skipn (S j) l) /\
    S (List.length (firstn j l ++ skipn (S j) l)) = List.length l.
Proof.
  induction l as [|x l IH]; intros j Hj; [simpl in Hj; lia|].
  destruct j as [|j].
  - cbn. split; [reflexivity|reflexivity].
  - cbn [List.length] in Hj. destruct (IH j ltac:(lia)) as [Hp Hl].
    change (nth (S j) (x :: l) d) with (nth j l d).
    change (firstn (S j) (x :: l)) with (x :: firstn j l).
    change (skipn (S (S j)) (x :: l)) with (skipn (S j) l).
    split.
    + cbn [app]. eapply perm_trans; [apply perm_skip, Hp|apply perm_swap].
    + cbn [app List.length]. now rewrite Hl.
Qed.

Lemma sample_by_removal_spec (k : nat) :
  forall pool g, (k <= List.length pool)%nat ->
    List.length (fst (sample_by_removal pool k g)) = k /\
    exists rest, Permutation (fst (sample_by_removal pool k g) ++ rest) pool.
Proof.
  induction k as [|k IH]; intros pool g Hk.
  - split; [reflexivity|]. exists pool. reflexivity.
  - cbn [sample_by_removal fst].
    assert (Hj : (fst (lcg_randbelow (List.length pool) g) < List.length pool)%nat)
      by (apply lcg_randbelow_lt; lia).
    destruct (remove_nth_perm "" pool Hj) as [Hp Hl].
    set (j := fst (lcg_randbelow (List.length pool) g)) in *.
    destruct (IH (firstn j pool ++ skipn (S j) pool)
                (snd (lcg_randbelow (List.length pool) g)) ltac:(lia))
      as [IHl [rest IHp]].
    split; [cbn [List.length]; now rewrite IHl|].
    exists rest. cbn [app].
    eapply perm_trans; [apply perm_skip, IHp|now apply Permutation_sym].
Qed.

Definition reference_sample : SampleModule (RM := reference_random) :=
  @Build_SampleModule reference_random sample_by_removal
    (fun l k g H => proj1 (@sample_by_removal_spec k l g H))
    (fun l k g H => proj2 (@sample_by_removal_spec k l g H)).

Lemma float_eqb_leb (x y : float) :
  PrimFloat.eqb x y = true -> PrimFloat.leb x y = true.
Proof.
  rewrite eqb_spec, leb_spec. unfold SFeqb, SFleb.
  now destruct (SFcompare (Prim2SF x) (Prim2SF y)) as [[]|].
Qed.

Section GeneratorFacts.
Context {RM : RandomModule} {SM : SampleModule}.
Variable math_exp : float -> float.
Variable libm_pow2 : float -> float.

Lemma for_each_inv {A B} (P : A -> B -> Prop) (body : A -> M B) (l : list A) :
  (forall x s b s', In x l -> body x s = (inr b, s') -> P x b) ->
  forall s bs s', for_each l body s = (inr bs, s') -> Forall2 P l bs.
Proof.
  induction l as [|x l IH]; intros Hb s bs s' H.
  - cbn in H. injection H as <- _. constructor.
  - cbn [for_each] in H. apply bind_inr in H. destruct H as (b & s1 & Hx & H).
    apply bind_inr in H. destruct H as (bs' & s2 & Hl & H).
    injection H as <- _. constructor.
    + eapply Hb; [now left|exact Hx].
    + eapply IH; [|exact Hl]. intros y t c t' Hy. apply Hb. now right.
Qed.

Lemma for_each_total {A B} (body : A -> M B) (l : list A) :
  (forall x, In x l -> forall s, exists b s', body x s = (inr b, s')) ->
  forall s, exists bs s', for_each l body s = (inr bs, s').
Proof.
  induction l as [|x l IH]; intros Hb s.
  - exists [], s. reflexivity.
  - destruct (Hb x (or_introl eq_refl) s) as (b & s1 & Hx).
    destruct (IH (fun y Hy => Hb y (or_intror Hy)) s1) as (bs & s2 & Hl).
    exists (b :: bs), s2. cbn [for_each].
    erewrite bind_run; [|exact Hx]. erewrite bind_run; [|exact Hl]. reflexivity.
Qed.

Lemma random_sample_inv (population : list string) (k : Z) (s s' : store)
    (sel : list string) :
  random_sample population k s = (inr sel, s') ->
  0 <= k /\ List.length sel = Z.to_nat k /\
  exists rest, Permutation (sel ++ rest) population.
Proof.
  unfold random_sample.
  destruct ((k <? 0) || (Z.of_nat (List.length population) <? k)) eqn:E;
    [discriminate|].
  apply orb_false_iff in E. destruct E as [E1 E2].
  apply Z.ltb_ge in E1. apply Z.ltb_ge in E2.
  assert (Hk : (Z.to_nat k <= List.length population)%nat) by lia.
  pose proof (@sample_distinct_length _ _ population (Z.to_nat k) (random_state s) Hk) as Hl.
  pose proof (@sample_distinct_perm _ _ population (Z.to_nat k) (random_state s) Hk) as Hp.
  destruct (sample_distinct population (Z.to_nat k) (random_state s)) as [l g].
  intros [= <- _]. auto.
Qed.

Lemma random_sample_total (population : list string) (k : Z) (s : store) :
  0 <= k <= Z.of_nat (List.length population) ->
  exists sel s', random_sample population k s = (inr sel, s').
Proof.
  intros Hk. unfold random_sample.
  assert (E1 : (k <? 0) = false) by (apply Z.ltb_ge; lia).
  assert (E2 : (Z.of_nat (List.length population) <? k) = false)
    by (apply Z.ltb_ge; lia).
  rewrite E1, E2. cbn [orb].
  destruct (sample_distinct population (Z.to_nat k) (random_state s)) as [l g].
  eauto.
Qed.

Lemma random_sample_negative (population : list string) (k : Z) (s : store) :
  k < 0 -> random_sample population k s = (inl ValueError, s).
Proof.
  intros Hk. unfold random_sample.
  assert (E1 : (k <? 0) = true) by (apply Z.ltb_lt; lia).
  now rewrite E1.
Qed.

Lemma weighted_index_scan_bounds (r s : float) (probs : list float) :
  PrimFloat.eqb s 0 = false ->
  forall cum idx, probs <> [] ->
    exists i, weighted_index_scan r s cum idx probs = inr i /\
              idx <= i < idx + Z.of_nat (List.length probs).
Proof.
  intros Hs. induction probs as [|p probs IH]; intros cum idx Hne; [contradiction|].
  cbn [weighted_index_scan List.length]. unfold py_div. rewrite Hs.
  destruct (r <=? cum + p / s)%float; [exists idx; split; [reflexivity|lia]|].
  destruct probs as [|q probs].
  - cbn [weighted_index_scan]. exists (idx + 1 - 1). split; [reflexivity|].
    cbn [List.length]. lia.
  - destruct (IH (cum + p / s)%float (idx + 1) ltac:(discriminate)) as (i & Hi & Hb).
    exists i. split; [exact Hi|]. cbn [List.length] in *. lia.
Qed.

Lemma weighted_pop_index_total (probs : list float) (s : store) :
  probs <> [] ->
  exists i s', weighted_pop_index probs s = (inr i, s') /\
               0 <= i < Z.of_nat (List.length probs).
Proof.
  intros Hne. unfold weighted_pop_index.
  destruct (random_random_run s) as (r & s1 & Hr).
  erewrite bind_run; [|exact Hr].
  destruct (py_sum probs <=? 0)%float eqn:E.
  - unfold random_randrange.
    assert (Hlen : (0 < List.length probs)%nat)
      by (destruct probs; [contradiction|simpl; lia]).
    assert (E0 : (List.length probs =? 0)%nat = false) by (apply Nat.eqb_neq; lia).
    rewrite E0.
    pose proof (randbelow_lt (random_state s1) Hlen) as Hlt.
    destruct (randbelow (List.length probs) (random_state s1)) as [k g].
    cbn [fst] in Hlt. do 2 eexists. split; [reflexivity|lia].
  - assert (Hs : PrimFloat.eqb (py_sum probs) 0 = false).
    { destruct (PrimFloat.eqb (py_sum probs) 0) eqn:E0; [|reflexivity].
      apply float_eqb_leb in E0. congruence. }
    destruct (weighted_index_scan_bounds r Hs 0%float 0 Hne) as (i & Hi & Hb).
    rewrite Hi. exists i, s1. split; [reflexivity|lia].
Qed.

Lemma select_weighted_total (rounds : nat) :
  forall choices probs sel s,
    List.length probs = List.length choices ->
    (rounds <= List.length choices)%nat ->
    exists sel' rest s',
      select_weighted rounds choices probs sel s = (inr sel', s') /\
      Permutation (sel' ++ rest) (sel ++ choices) /\
      List.length sel' = (List.length sel + rounds)%nat.
Proof.
  induction rounds as [|rounds IH]; intros choices probs sel s Hlen Hr;
    cbn [select_weighted].
  - exists sel, choices, s. repeat split; [apply Permutation_refl|lia].
  - assert (Hne : probs <> []) by (intros ->; simpl in Hlen; lia).
    destruct (weighted_pop_index_total s Hne) as (idx & s1 & Hw & Hb).
    destruct (py_pop_total choices (idx := idx) ltac:(lia)) as (x0 & rest0 & Hp).
    destruct (py_pop_total probs (idx := idx) ltac:(lia)) as (p0 & prest & Hpp).
    destruct (py_pop_perm _ _ Hp) as [Hperm Hl1].
    destruct (py_pop_perm _ _ Hpp) as [_ Hl2].
    destruct (IH rest0 prest (sel ++ [x0]) s1 ltac:(lia) ltac:(lia))
      as (sel' & rest & s' & Hrun & Hperm' & Hl').
    exists sel', rest, s'.
    erewrite bind_run; [|exact Hw].
    rewrite Hp. cbn [lift]. unfold ret at 1. unfold bind at 1.
    rewrite Hpp. cbn [lift]. unfold ret at 1. unfold bind at 1.
    cbn [fst snd]. split; [exact Hrun|]. split.
    + eapply perm_trans; [exact Hperm'|].
      rewrite <- app_assoc. apply Permutation_app_head.
      cbn [app]. now apply Permutation_sym.
    + rewrite Hl', length_app. cbn [List.length]. lia.
Qed.

(** The weighted branch of [draw_prefs] always returns, and the fill with
    [random.sample] is never reached. *)
Lemma draw_prefs_weighted (specs : list string) (n_prefs : Z)
    (w : dict string float) (s : store) :
  n_prefs <= Z.of_nat (List.length specs) ->
  (py_sum (map (fun c => dict_get String.eqb w c 0%float) specs) <=? 0)%float = false ->
  exists prefs rest s',
    draw_prefs specs n_prefs (Some w) s = (inr prefs, s') /\
    Permutation (prefs ++ rest) specs /\
    List.length prefs = Z.to_nat n_prefs.
Proof.
  intros Hn Hsum. unfold draw_prefs. rewrite Hsum.
  destruct (@select_weighted_total
              (Z.to_nat (Z.min n_prefs (Z.of_nat (List.length specs)))) specs
              (map (fun c => dict_get String.eqb w c 0%float) specs) [] s
              ltac:(now rewrite length_map) ltac:(lia))
    as (sel & rest & s' & Hrun & Hperm & Hl).
  exists sel, rest, s'. cbn [List.length Nat.add app] in *.
  erewrite bind_run; [|exact Hrun].
  assert (E : (Z.of_nat (List.length sel) <? n_prefs) = false)
    by (apply Z.ltb_ge; lia).
  rewrite E. repeat split; [exact Hperm|lia].
Qed.

Lemma draw_prefs_inv (specs : list string) (n_prefs : Z)
    (pw : option (dict string float)) (s s' : store) (prefs : list string) :
  n_prefs <= Z.of_nat (List.length specs) ->
  draw_prefs specs n_prefs pw s = (inr prefs, s') ->
  List.length prefs = Z.to_nat n_prefs /\
  exists rest, Permutation (prefs ++ rest) specs.
Proof.
  intros Hn H.
  assert (Hsample : forall t t' l, random_sample specs n_prefs t = (inr l, t') ->
            List.length l = Z.to_nat n_prefs /\
            exists rest, Permutation (l ++ rest) specs).
  { intros t t' l Hs. now apply random_sample_inv in Hs. }
  destruct pw as [w|]; [|exact (Hsample _ _ _ H)].
  destruct (py_sum (map (fun c => dict_get String.eqb w c 0%float) specs) <=? 0)%float
    eqn:E.
  - unfold draw_prefs in H. rewrite E in H. exact (Hsample _ _ _ H).
  - destruct (@draw_prefs_weighted specs n_prefs w s Hn E) as (p & rest & s1 & Hrun & Hp & Hl).
    rewrite Hrun in H. injection H as <- _. eauto.
Qed.

Lemma draw_prefs_total (specs : list string) (n_prefs : Z)
    (pw : option (dict string float)) (s : store) :
  0 <= n_prefs <= Z.of_nat (List.length specs) ->
  exists prefs s', draw_prefs specs n_prefs pw s = (inr prefs, s').
Proof.
  intros Hn.
  destruct pw as [w|]; [|now apply random_sample_total].
  destruct (py_sum (map (fun c => dict_get String.eqb w c 0%float) specs) <=? 0)%float
    eqn:E.
  - unfold draw_prefs. rewrite E. now apply random_sample_total.
  - destruct (@draw_prefs_weighted specs n_prefs w s (proj2 Hn) E) as (p & rest & s1 & Hrun & _).
    eauto.
Qed.

(** The scores are the rounded levels: [generate_gpas] is [draw_gpas]
    followed by the rounding for storage. *)
Lemma generate_gpas_draw (n_students : Z) (gpa_min gpa_max : float)
    (seed : option Z) (mean std : option float) (wr : bool) (s : store) :
  generate_gpas math_exp libm_pow2 n_students gpa_min gpa_max seed mean std wr s
  = (gpas <- draw_gpas math_exp libm_pow2 n_students gpa_min gpa_max seed mean std wr ;;
     lift (stored_gpas gpas (Z.to_nat n_students))) s.
Proof.
  unfold generate_gpas, draw_gpas, bind.
  destruct ((match seed with Some n => random_seed n | None => ret tt end) s)
    as [[e|[]] s0]; [reflexivity|].
  destruct (lift _ s0) as [[e|probs] s1]; [reflexivity|].
  destruct (allowed_gpas gpa_min gpa_max) as [|g0 rest]; [|reflexivity].
  destruct (repeat_draw _ _ s1) as [[e|allowed'] s2]; reflexivity.
Qed.
End GeneratorFacts.

Section GeneratorProperties.
Context {RM : RandomModule} {SM : SampleModule}.
Variable math_exp : float -> float.
Variable libm_pow2 : float -> float.

Lemma map_exn_forall2 {A B} (f : A -> exn + B) (l : list A) (ys : list B) :
  Forall2 (fun x y => f x = inr y) l ys -> map_exn f l = inr ys.
Proof.
  induction 1 as [|x y l ys Hx _ IH]; [reflexivity|].
  cbn [map_exn]. now rewrite Hx, IH.
Qed.

Lemma map_exn_each {A B} (f : A -> exn + B) (l : list A) (ys : list B) :
  map_exn f l = inr ys -> forall x, In x l -> exists y, f x = inr y.
Proof.
  revert ys. induction l as [|a l IH]; intros ys H x Hx; [destruct Hx|].
  cbn [map_exn] in H. destruct (f a) as [e|y] eqn:Ea; [discriminate|].
  destruct (map_exn f l) as [e|ys'] eqn:El; [discriminate|].
  destruct Hx as [<-|Hx]; [eauto|exact (IH ys' eq_refl x Hx)].
Qed.

Lemma forall2_map {A B C} (f : A -> C) (g : B -> C) (l : list A) (l' : list B) :
  Forall2 (fun x y => g y = f x) l l' -> map g l' = map f l.
Proof.
  induction 1 as [|x y l l' Hxy _ IH]; [reflexivity|].
  cbn [map]. now rewrite Hxy, IH.
Qed.

(** What one round of the loop over the students appends. *)
Lemma generate_row_inv (gpas : list float) (specs : list string) (n_prefs : Z)
    (pw : option (dict string float)) (i : nat) (s s' : store)
    (row : StudentRecord) :
  n_prefs <= Z.of_nat (List.length specs) ->
  (gpa <- lift (match nth_error gpas i with
                | Some g => inr (py_round g 3)
                | None => inl IndexError
                end) ;;
   prefs <- draw_prefs specs n_prefs pw ;;
   ret (mkStudentRecord (Z.of_nat i + 1) gpa prefs)) s = (inr row, s') ->
  rec_id row = Z.of_nat i + 1 /\
  (match nth_error gpas i with
   | Some g => inr (py_round g 3)
   | None => inl IndexError
   end = inr (rec_gpa row)) /\
  List.length (rec_prefs row) = Z.to_nat n_prefs /\
  exists rest, Permutation (rec_prefs row ++ rest) specs.
Proof.
  intros Hn H.
  apply bind_inr in H. destruct H as (gpa & s1 & Hg & H).
  apply lift_inr in Hg. destruct Hg as [Hg ->].
  apply bind_inr in H. destruct H as (prefs & s2 & Hp & H).
  injection H as <- _. cbn [rec_id rec_gpa rec_prefs].
  destruct (draw_prefs_inv _ _ _ Hn Hp) as [Hl Hperm].
  repeat split; assumption.
Qed.

Lemma generate_rows_inv (n_students : Z) (specs : list string) (n_prefs : Z)
    (gpa_min gpa_max : float) (seed : option Z) (mean std : option float)
    (wr : bool) (pw : option (dict string float)) (s s' : store)
    (rows : list StudentRecord) :
  generate_rows math_exp libm_pow2 n_students specs n_prefs gpa_min gpa_max seed
    mean std wr pw s = (inr rows, s') ->
  map rec_id rows = map (fun i => Z.of_nat i + 1) (seq 0 (Z.to_nat n_students)) /\
  (exists s1,
     generate_gpas math_exp libm_pow2 n_students gpa_min gpa_max seed mean std wr s
     = (inr (map rec_gpa rows), s1)) /\
  forall row, In row rows ->
    List.length (rec_prefs row)
    = Z.to_nat (Z.min n_prefs (Z.of_nat (List.length specs))) /\
    exists rest, Permutation (rec_prefs row ++ rest) specs.
Proof.
  unfold generate_rows. intros H.
  apply bind_inr in H. destruct H as (gpas & s1 & Hd & Hf).
  assert (Hn : Z.min n_prefs (Z.of_nat (List.length specs))
               <= Z.of_nat (List.length specs)) by lia.
  assert (HF : Forall2
                 (fun i row =>
                    rec_id row = Z.of_nat i + 1 /\
                    (match nth_error gpas i with
                     | Some g => inr (py_round g 3)
                     | None => inl IndexError
                     end = inr (rec_gpa row)) /\
                    List.length (rec_prefs row)
                    = Z.to_nat (Z.min n_prefs (Z.of_nat (List.length specs))) /\
                    exists rest, Permutation (rec_prefs row ++ rest) specs)
                 (seq 0 (Z.to_nat n_students)) rows).
  { eapply for_each_inv; [|exact Hf].
    intros i t row t' _ Hrow.
    eapply generate_row_inv; [exact Hn|exact Hrow]. }
  split; [|split].
  - apply forall2_map. eapply Forall2_impl; [|exact HF]. now intros i row [Hi _].
  - exists s1. rewrite generate_gpas_draw. erewrite bind_run; [|exact Hd].
    unfold stored_gpas.
    rewrite (@map_exn_forall2 _ _ _ (seq 0 (Z.to_nat n_students)) (map rec_gpa rows));
      [reflexivity|].
    clear -HF. induction HF as [|i row l rows' Hrow _ IH]; [constructor|].
    cbn [map]. constructor; [now destruct Hrow as (_ & Hg & _)|exact IH].
  - intros row Hrow.
    clear -HF Hrow. induction HF as [|i r l rows' Hr _ IH]; [destruct Hrow|].
    destruct Hrow as [<-|Hrow]; [|now apply IH].
    destruct Hr as (_ & _ & Hl & Hp). now split.
Qed.
(** X12.  The records [generate_random_students] builds.  Whenever the
    loop over the students finishes, the identifiers are 1, 2, ... in
    generation order, one per student; the stored scores are exactly the
    list the score sampler computes from the same state; and every
    student's preferences are [min(n_prefs, len(specs))] entries taken at
    distinct positions of [specs]: all of them categories of [specs], and
    without repetition when [specs] has none, with or without weights. *)
Theorem generated_rows_spec (n_students : Z) (specs : list string) (n_prefs : Z)
    (gpa_min gpa_max : float) (seed : option Z) (mean std : option float)
    (wr : bool) (pw : option (dict string float)) (s s' : store)
    (rows : list StudentRecord) :
  generate_rows math_exp libm_pow2 n_students specs n_prefs gpa_min gpa_max seed
    mean std wr pw s = (inr rows, s') ->
  List.length rows = Z.to_nat n_students /\
  map rec_id rows = map (fun i => Z.of_nat i + 1) (seq 0 (Z.to_nat n_students)) /\
  (exists s1,
     generate_gpas math_exp libm_pow2 n_students gpa_min gpa_max seed mean std wr s
     = (inr (map rec_gpa rows), s1)) /\
  forall row, In row rows ->
    List.length (rec_prefs row)
    = Z.to_nat (Z.min n_prefs (Z.of_nat (List.length specs))) /\
    (exists rest, Permutation (rec_prefs row ++ rest) specs) /\
    (forall p, In p (rec_prefs row) -> In p specs) /\
    (NoDup specs -> NoDup (rec_prefs row)).
Proof.
  intros H. destruct (generate_rows_inv _ _ _ _ _ _ _ _ _ _ _ H) as (Hids & Hg & Hp).
  split; [|split; [exact Hids|split; [exact Hg|]]].
  - rewrite <- (length_map rec_id), Hids, length_map. apply length_seq.
  - intros row Hrow. destruct (Hp row Hrow) as [Hl [rest Hperm]].
    split; [exact Hl|]. split; [now exists rest|]. split.
    + intros p Hin. apply (Permutation_in _ Hperm). apply in_or_app. now left.
    + intros Hnd. apply (Permutation_NoDup (Permutation_sym Hperm)) in Hnd.
      now apply NoDup_app_remove_r in Hnd.
Qed.

(** X13.  Drawing the preferences never fails.  When the scores can be
    drawn and the requested number of preferences is not negative (or
    weights with a positive sum are given), the loop over the students
    finishes: no weighted draw pops outside its list, divides by zero or
    samples more than there is.  The stored scores are those of the score
    sampler. *)
Theorem generated_rows_return (n_students : Z) (specs : list string) (n_prefs : Z)
    (gpa_min gpa_max : float) (seed : option Z) (mean std : option float)
    (wr : bool) (pw : option (dict string float)) (s s1 : store)
    (scores : list float) :
  generate_gpas math_exp libm_pow2 n_students gpa_min gpa_max seed mean std wr s
  = (inr scores, s1) ->
  (0 <= n_prefs \/
   exists w, pw = Some w /\
     (py_sum (map (fun c => dict_get String.eqb w c 0%float) specs) <=? 0)%float
     = false) ->
  exists rows s',
    generate_rows math_exp libm_pow2 n_students specs n_prefs gpa_min gpa_max seed
      mean std wr pw s = (inr rows, s') /\
    map rec_gpa rows = scores.
Proof.
  intros H Hprefs. pose proof H as H0.
  rewrite generate_gpas_draw in H.
  apply bind_inr in H. destruct H as (gpas & s0 & Hd & Hst).
  apply lift_inr in Hst. destruct Hst as [Hst _].
  pose proof (map_exn_each _ _ Hst) as Heach.
  assert (Hp : forall t, exists prefs t',
            draw_prefs specs (Z.min n_prefs (Z.of_nat (List.length specs))) pw t
            = (inr prefs, t')).
  { intros t. destruct Hprefs as [Hn|(w & -> & Hw)].
    - apply draw_prefs_total. lia.
    - destruct (@draw_prefs_weighted _ _ specs
                  (Z.min n_prefs (Z.of_nat (List.length specs))) w t ltac:(lia) Hw)
        as (prefs & _ & t' & Hrun & _). eauto. }
  assert (Hbody : forall i, In i (seq 0 (Z.to_nat n_students)) ->
            forall t, exists row t',
              (gpa <- lift (match nth_error gpas i with
                            | Some g => inr (py_round g 3)
                            | None => inl IndexError
                            end) ;;
               prefs <- draw_prefs specs
                          (Z.min n_prefs (Z.of_nat (List.length specs))) pw ;;
               ret (mkStudentRecord (Z.of_nat i + 1) gpa prefs)) t = (inr row, t')).
  { intros i Hi t. destruct (Heach i Hi) as [g Hg]. rewrite Hg. cbn [lift].
    unfold ret at 1. unfold bind at 1.
    destruct (Hp t) as (prefs & t' & Hrun).
    erewrite bind_run; [|exact Hrun]. do 2 eexists. reflexivity. }
  destruct (for_each_total _ _ Hbody s0) as (rows & s' & Hrows).
  assert (Hrun : generate_rows math_exp libm_pow2 n_students specs n_prefs gpa_min
                   gpa_max seed mean std wr pw s = (inr rows, s')).
  { unfold generate_rows. erewrite bind_run; [|exact Hd]. exact Hrows. }
  exists rows, s'. split; [exact Hrun|].
  destruct (generate_rows_inv _ _ _ _ _ _ _ _ _ _ _ Hrun) as (_ & [s2 Hg] & _).
  rewrite H0 in Hg. now injection Hg as ->.
Qed.

(** X14.  A negative number of preferences.  When there is at least one
    student and the preferences are sampled uniformly (no weights, or
    weights whose sum is zero or less), a negative [n_prefs] makes the
    generator raise [ValueError] at the first student, after the scores
    were drawn. *)
Theorem negative_prefs_rejected (n_students : Z) (specs : list string) (n_prefs : Z)
    (gpa_min gpa_max : float) (seed : option Z) (mean std : option float)
    (wr : bool) (pw : option (dict string float)) (s s1 : store)
    (scores : list float) :
  generate_gpas math_exp libm_pow2 n_students gpa_min gpa_max seed mean std wr s
  = (inr scores, s1) ->
  1 <= n_students ->
  n_prefs < 0 ->
  match pw with
  | None => True
  | Some w =>
      (py_sum (map (fun c => dict_get String.eqb w c 0%float) specs) <=? 0)%float
      = true
  end ->
  fst (generate_rows math_exp libm_pow2 n_students specs n_prefs gpa_min gpa_max
         seed mean std wr pw s) = inl ValueError.
Proof.
  intros H Hn Hneg Hpw.
  rewrite generate_gpas_draw in H.
  apply bind_inr in H. destruct H as (gpas & s0 & Hd & Hst).
  apply lift_inr in Hst. destruct Hst as [Hst _].
  unfold generate_rows. erewrite bind_run; [|exact Hd].
  destruct (Z.to_nat n_students) as [|n] eqn:En; [lia|].
  destruct (map_exn_each _ _ Hst 0%nat ltac:(now left)) as [g Hg].
  cbn [seq for_each]. rewrite Hg. cbn [lift].
  unfold bind at 1. unfold bind at 1. unfold ret at 1.
  assert (Hdp : draw_prefs specs (Z.min n_prefs (Z.of_nat (List.length specs))) pw s0
                = (inl ValueError, s0)).
  { unfold draw_prefs. destruct pw as [w|]; [rewrite Hpw|];
      apply random_sample_negative; lia. }
  unfold bind at 1. now rewrite Hdp.
Qed.
End GeneratorProperties.

(** ** The generator at concrete inputs *)

Definition test_specs : list string := ["Software"; "Mechanical"; "Civil"].

Definition test_weights : dict string float :=
  [("Software", 5%float); ("Mechanical", 1%float)].

(** The records of a reference run: ten students on the range
    [0.0 .. 9.0], zero standard deviation, two weighted preferences. *)
Definition sample_rows : exn + list StudentRecord :=
  Eval vm_compute in
    fst (generate_rows (RM := reference_random) (SM := reference_sample) no_exp square
      10 test_specs 2 0 9 (Some 123) None (Some 0%float) true (Some test_weights)
      (store_with [])).

Example sample_rows_eq :
  fst (generate_rows (RM := reference_random) (SM := reference_sample) no_exp square
      10 test_specs 2 0 9 (Some 123) None (Some 0%float) true (Some test_weights)
      (store_with []))
  = sample_rows.
Proof. vm_compute. reflexivity. Qed.

Example sample_scores_run :
  fst (generate_gpas (RM := reference_random) no_exp square 10 0 9 (Some 123) None
      (Some 0%float) true (store_with []))
  = sample_scores.
Proof. vm_compute. reflexivity. Qed.

Lemma test_specs_nodup : NoDup test_specs.
Proof.
  repeat (constructor; [cbn; intuition discriminate|]). constructor.
Qed.

Lemma generated_rows_spec_witness :
  exists rows s',
    generate_rows (RM := reference_random) (SM := reference_sample) no_exp square
      10 test_specs 2 0 9 (Some 123) None (Some 0%float) true (Some test_weights)
      (store_with [])
    = (inr rows, s') /\
    List.length rows = 10%nat /\
    map rec_id rows = [1; 2; 3; 4; 5; 6; 7; 8; 9; 10] /\
    forall row, In row rows ->
      List.length (rec_prefs row) = 2%nat /\ NoDup (rec_prefs row).
Proof.
  pose proof (surjective_pairing
                (generate_rows (RM := reference_random) (SM := reference_sample) no_exp square
      10 test_specs 2 0 9 (Some 123) None (Some 0%float) true (Some test_weights)
      (store_with []))) as E.
  rewrite sample_rows_eq in E. unfold sample_rows in E.
  eexists. eexists. split; [exact E|].
  destruct (generated_rows_spec (RM := reference_random) (SM := reference_sample)
              no_exp square 10 test_specs 2 0 9 (Some 123) None (Some 0%float) true
              (Some test_weights) (store_with []) E) as (Hl & Hids & _ & Hp).
  split; [exact Hl|]. split; [exact Hids|].
  intros row Hrow. destruct (Hp row Hrow) as (Hlen & _ & _ & Hnd).
  split; [exact Hlen|]. exact (Hnd test_specs_nodup).
Defined.

Lemma generated_rows_return_witness :
  exists scores s1,
    generate_gpas (RM := reference_random) no_exp square 10 0 9 (Some 123) None
      (Some 0%float) true (store_with [])
    = (inr scores, s1) /\
    (0 <= 2 \/
     exists w, @None (dict string float) = Some w /\
       (py_sum (map (fun c => dict_get String.eqb w c 0%float) test_specs) <=? 0)%float
       = false) /\
    exists rows s',
      generate_rows (RM := reference_random) (SM := reference_sample) no_exp square
      10 test_specs 2 0 9 (Some 123) None (Some 0%float) true None
      (store_with [])
      = (inr rows, s') /\
      map rec_gpa rows = scores.
Proof.
  pose proof (surjective_pairing
                (generate_gpas (RM := reference_random) no_exp square 10 0 9 (Some 123) None
      (Some 0%float) true (store_with []))) as E.
  rewrite sample_scores_run in E. unfold sample_scores in E.
  eexists. eexists. split; [exact E|]. split; [left; lia|].
  assert (H2 : 0 <= 2) by lia.
  exact (@generated_rows_return reference_random reference_sample
           no_exp square 10 test_specs 2 0 9 (Some 123) None (Some 0%float) true
           None (store_with []) _ _ E (or_introl H2)).
Defined.

Lemma negative_prefs_rejected_witness :
  exists scores s1,
    generate_gpas (RM := reference_random) no_exp square 10 0 9 (Some 123) None
      (Some 0%float) true (store_with [])
    = (inr scores, s1) /\
    1 <= 10 /\ -1 < 0 /\
    fst (generate_rows (RM := reference_random) (SM := reference_sample) no_exp square
      10 test_specs (-1) 0 9 (Some 123) None (Some 0%float) true None
      (store_with []))
    = inl ValueError.
Proof.
  pose proof (surjective_pairing
                (generate_gpas (RM := reference_random) no_exp square 10 0 9 (Some 123) None
      (Some 0%float) true (store_with []))) as E.
  rewrite sample_scores_run in E. unfold sample_scores in E.
  eexists. eexists. split; [exact E|]. split; [lia|]. split; [lia|].
  assert (H1 : 1 <= 10) by lia. assert (H2 : -1 < 0) by lia.
  exact (@negative_prefs_rejected reference_random reference_sample
           no_exp square 10 test_specs (-1) 0 9 (Some 123) None (Some 0%float) true
           None (store_with []) _ _ E H1 H2 I).
Defined.

(* ================================================================== *)
(** * Further properties of the score sampler *)
(* ================================================================== *)

(** The order of binary64 numbers is transitive. *)
Lemma SFleb_trans (x y z : spec_float) :
  SFleb x y = true -> SFleb y z = true -> SFleb x z = true.
Proof.
  unfold SFleb, SFcompare.
  destruct x as [sx|sx| |sx mx ex], y as [sy|sy| |sy my ey], z as [sz|sz| |sz mz ez];
    try discriminate; try reflexivity;
    try (destruct sx; try discriminate; try reflexivity);
    try (destruct sy; try discriminate; try reflexivity);
    try (destruct sz; try discriminate; try reflexivity).
  - change (PosDef.Pos.compare_cont Eq mx my) with (Pos.compare mx my).
    change (PosDef.Pos.compare_cont Eq my mz) with (Pos.compare my mz).
    change (PosDef.Pos.compare_cont Eq mx mz) with (Pos.compare mx mz).
    destruct (Z.compare_spec ex ey), (Z.compare_spec ey ez), (Z.compare_spec ex ez);
      subst; try lia; try discriminate; try reflexivity.
    destruct (Pos.compare_spec mx my), (Pos.compare_spec my mz),
      (Pos.compare_spec mx mz); subst; try lia; try discriminate; try reflexivity.
  - change (PosDef.Pos.compare_cont Eq mx my) with (Pos.compare mx my).
    change (PosDef.Pos.compare_cont Eq my mz) with (Pos.compare my mz).
    change (PosDef.Pos.compare_cont Eq mx mz) with (Pos.compare mx mz).
    destruct (Z.compare_spec ex ey), (Z.compare_spec ey ez), (Z.compare_spec ex ez);
      subst; try lia; try discriminate; try reflexivity.
    destruct (Pos.compare_spec mx my), (Pos.compare_spec my mz),
      (Pos.compare_spec mx mz); subst; try lia; try discriminate; try reflexivity.
Qed.

Lemma float_leb_trans (x y z : float) :
  (x <=? y)%float = true -> (y <=? z)%float = true -> (x <=? z)%float = true.
Proof. rewrite !leb_spec. apply SFleb_trans. Qed.

(** No level lies within a range whose bounds are not in order. *)
Lemma inverted_range_empty (gpa_min gpa_max : float) :
  (gpa_min <=? gpa_max)%float = false -> allowed_gpas gpa_min gpa_max = [].
Proof.
  intros H. destruct (allowed_gpas gpa_min gpa_max) as [|g l] eqn:E; [reflexivity|].
  assert (Hg : In g (allowed_gpas gpa_min gpa_max)) by (rewrite E; now left).
  apply allowed_gpas_in in Hg. destruct Hg as (_ & H1 & H2).
  rewrite (float_leb_trans H1 H2) in H. discriminate.
Qed.

Lemma stored_gpas_all (l : list float) :
  stored_gpas l (List.length l) = inr (map (fun g => py_round g 3) l).
Proof.
  unfold stored_gpas.
  enough (H : forall l' pre,
            map_exn (fun i => match nth_error (pre ++ l') i with
                              | Some g => inr (py_round g 3)
                              | None => inl IndexError
                              end) (seq (List.length pre) (List.length l'))
            = inr (map (fun g => py_round g 3) l')) by exact (H l []).
  induction l' as [|x l' IH]; intros pre; [reflexivity|].
  cbn [List.length seq map_exn map].
  rewrite nth_error_app2, Nat.sub_diag by lia. cbn [nth_error].
  specialize (IH (pre ++ [x])). rewrite <- app_assoc, length_app in IH.
  cbn [app List.length] in IH. rewrite Nat.add_1_r in IH. now rewrite IH.
Qed.

Section SamplerExtras.
Context {RM : RandomModule}.
Variable math_exp : float -> float.
Variable libm_pow2 : float -> float.

Lemma draw_without_weights_fails (rounds : nat) (choices gpas : list float)
    (s : store) :
  fst (draw_without_replacement (S rounds) choices [] gpas s) = inl IndexError.
Proof.
  cbn [draw_without_replacement].
  destruct (weighted_pop_run [] s) as (r & s1 & Hw).
  erewrite bind_run; [|exact Hw]. cbn [weighted_scan].
  destruct (py_pop choices (0 - 1)) as [e|popped] eqn:Ep.
  - assert (e = IndexError) as ->.
    { unfold py_pop in Ep.
      destruct ((_ <? 0) || _); [congruence|].
      destruct (nth_error choices _); congruence. }
    reflexivity.
  - cbn [lift]. unfold ret at 1. unfold bind at 1.
    rewrite pop_empty_raises. reflexivity.
Qed.

(** X15.  A range whose bounds are not in order ([gpa_min <= gpa_max]
    false, as the interface allows) leaves the grid empty, and the
    fallback to the continuous range never gets through: drawing with
    replacement raises [ValueError] whatever the number of students, and
    drawing without replacement raises [IndexError] as soon as there is
    one student. *)
Theorem inverted_range_raises (n_students : Z) (gpa_min gpa_max : float)
    (seed : option Z) (mean std : option float) (s : store) :
  (gpa_min <=? gpa_max)%float = false ->
  allowed_gpas gpa_min gpa_max = [] /\
  fst (generate_gpas math_exp libm_pow2 n_students gpa_min gpa_max seed mean std
         true s) = inl ValueError /\
  (1 <= n_students ->
   fst (generate_gpas math_exp libm_pow2 n_students gpa_min gpa_max seed mean std
          false s) = inl IndexError).
Proof.
  intros H. pose proof (inverted_range_empty H) as Ha.
  split; [exact Ha|]. split; [now apply empty_grid_raises|].
  intros Hn. unfold generate_gpas. rewrite Ha.
  set (s0 := snd ((match seed with Some n => random_seed n | None => ret tt end) s)).
  assert (Hseed : (match seed with Some n => random_seed n | None => ret tt end) s
                  = (inr tt, s0)).
  { unfold s0. now destruct seed. }
  erewrite bind_run; [|exact Hseed].
  rewrite level_probs_nil. cbn [lift]. unfold ret at 1. unfold bind at 1.
  destruct (repeat_draw_total
              (u <- random_uniform gpa_min gpa_max ;; ret (py_round u 3))
              (fun s1 => ltac:(destruct (random_uniform_run gpa_min gpa_max s1)
                                 as (u & s2 & Hu);
                               exists (py_round u 3), s2;
                               erewrite bind_run; [reflexivity|exact Hu]))
              (Z.to_nat (Z.max 1 n_students)) s0) as (pool & s1 & Hpool & Hlen).
  erewrite bind_run; [|exact Hpool].
  replace (Z.to_nat (Z.min n_students (Z.of_nat (List.length pool))))
    with (S (Z.to_nat n_students - 1)) by lia.
  pose proof (draw_without_weights_fails (Z.to_nat n_students - 1) pool [] s1) as Hd.
  unfold bind at 1. unfold bind at 1.
  destruct (draw_without_replacement (S (Z.to_nat n_students - 1)) pool [] [] s1)
    as [[e|drawn] s2]; cbn [fst] in Hd; [now rewrite Hd|discriminate Hd].
Qed.

(** X16.  Without replacement no level is used twice.  When the grid is
    not empty and there are at most as many students as levels, the draw
    without replacement returns whatever the weights are (it never falls
    back on [random.choices]), and the stored scores are the rounded
    values of levels taken at distinct positions of the grid: together
    with the levels left over they make up the grid. *)
Theorem levels_drawn_once (n_students : Z) (gpa_min gpa_max : float)
    (seed : option Z) (mean std : option float) (s : store) (probs : list float) :
  allowed_gpas gpa_min gpa_max <> [] ->
  level_probs math_exp libm_pow2 (allowed_gpas gpa_min gpa_max)
    (match mean with Some m => m | None => ((gpa_min + gpa_max) / 2)%float end)
    (match std with Some sd => sd | None => ((gpa_max - gpa_min) / 6)%float end)
  = inr probs ->
  n_students <= Z.of_nat (List.length (allowed_gpas gpa_min gpa_max)) ->
  exists drawn rest s',
    generate_gpas math_exp libm_pow2 n_students gpa_min gpa_max seed mean std
      false s = (inr (map (fun g => py_round g 3) drawn), s') /\
    Permutation (drawn ++ rest) (allowed_gpas gpa_min gpa_max) /\
    List.length drawn = Z.to_nat n_students.
Proof.
  intros Hne Hprobs Hn.
  pose proof (level_probs_length _ _ _ _ _ Hprobs) as Hlen.
  unfold generate_gpas.
  set (s0 := snd ((match seed with Some n => random_seed n | None => ret tt end) s)).
  assert (Hseed : (match seed with Some n => random_seed n | None => ret tt end) s
                  = (inr tt, s0)).
  { unfold s0. now destruct seed. }
  erewrite bind_run; [|exact Hseed].
  rewrite Hprobs. cbn [lift]. unfold ret at 1. unfold bind at 1.
  destruct (allowed_gpas gpa_min gpa_max) as [|g0 rest0] eqn:Ea; [contradiction|].
  unfold ret at 1. unfold bind at 1.
  replace (Z.to_nat (Z.min n_students (Z.of_nat (List.length (g0 :: rest0)))))
    with (Z.to_nat n_students) by lia.
  destruct (@draw_without_replacement_total _ (Z.to_nat n_students) (g0 :: rest0)
              probs [] s0 Hlen ltac:(lia))
    as (drawn & rest & s1 & Hd & Hperm & _).
  pose proof (draw_without_replacement_inv _ _ _ _ _ Hd) as [Hdl _].
  cbn [List.length Nat.add] in Hdl.
  exists drawn, rest, s1.
  assert (Hg : (drawn0 <- draw_without_replacement (Z.to_nat n_students)
                            (g0 :: rest0) probs [] ;;
                if Z.of_nat (List.length drawn0) <? n_students
                then
                  extras <- random_choices (g0 :: rest0) probs
                              (n_students - Z.of_nat (List.length drawn0)) ;;
                  ret (drawn0 ++ extras)
                else ret drawn0) s0 = (inr drawn, s1)).
  { erewrite bind_run; [|exact Hd].
    assert (E : (Z.of_nat (List.length drawn) <? n_students) = false)
      by (apply Z.ltb_ge; lia).
    now rewrite E. }
  erewrite bind_run; [|exact Hg].
  rewrite <- Hdl, stored_gpas_all.
  split; [reflexivity|]. split; [exact Hperm|reflexivity].
Qed.
End SamplerExtras.

Lemma inverted_range_raises_witness :
  (9 <=? 4)%float = false /\
  allowed_gpas 9 4 = [] /\
  fst (generate_gpas (RM := reference_random) no_exp square 10 9 4 (Some 123)
         None None true (store_with [])) = inl ValueError /\
  (1 <= 10 ->
   fst (generate_gpas (RM := reference_random) no_exp square 10 9 4 (Some 123)
          None None false (store_with [])) = inl IndexError).
Proof.
  assert (H : (9 <=? 4)%float = false) by reflexivity.
  split; [exact H|].
  exact (@inverted_range_raises reference_random no_exp square 10 9 4 (Some 123)
           None None (store_with []) H).
Defined.

Lemma levels_drawn_once_witness :
  allowed_gpas 0 9 <> [] /\
  level_probs no_exp square (allowed_gpas 0 9) ((0 + 9) / 2)%float 0%float
  = inr (repeat (1 / 64)%float 64) /\
  10 <= Z.of_nat (List.length (allowed_gpas 0 9)) /\
  exists drawn rest s',
    generate_gpas (RM := reference_random) no_exp square 10 0 9 (Some 123) None
      (Some 0%float) false (store_with [])
    = (inr (map (fun g => py_round g 3) drawn), s') /\
    Permutation (drawn ++ rest) (allowed_gpas 0 9) /\
    List.length drawn = 10%nat.
Proof.
  assert (H1 : allowed_gpas 0 9 <> []) by (vm_compute; discriminate).
  assert (H2 : level_probs no_exp square (allowed_gpas 0 9) ((0 + 9) / 2)%float 0%float
               = inr (repeat (1 / 64)%float 64)) by (vm_compute; reflexivity).
  assert (H3 : 10 <= Z.of_nat (List.length (allowed_gpas 0 9)))
    by (vm_compute; discriminate).
  split; [exact H1|]. split; [exact H2|]. split; [exact H3|].
  exact (@levels_drawn_once reference_random no_exp square 10 0 9 (Some 123) None
           (Some 0%float) (store_with []) (repeat (1 / 64)%float 64) H1 H2 H3).
Defined.

(* ================================================================== *)
(** * The cutoff table the interface builds from a finished run *)
(* ================================================================== *)

(** [df["id"].map(final_assignments)] at one record: the category recorded
    for the record's identifier; nothing for an identifier that is not a
    key and for an unassigned student. *)
Definition assigned_spec (final_assignments : dict Z (option string)) (r : Row)
  : option string :=
  match dict_lookup Z.eqb final_assignments (row_id r) with
  | Some c => c
  | None => None
  end.

(** [df["assigned_spec"] == spec] at one record. *)
Definition spec_mask (final_assignments : dict Z (option string)) (spec : string)
    (r : Row) : bool :=
  match assigned_spec final_assignments r with
  | Some c => String.eqb c spec
  | None => false
  end.

(** [.min()] and [.max()] of a column of scores that is not empty. *)
Definition series_min (x : Q) (l : list Q) : Q :=
  fold_left (fun m y => if Qle_bool m y then m else y) l x.

Definition series_max (x : Q) (l : list Q) : Q :=
  fold_left (fun m y => if Qle_bool y m then m else y) l x.

Record CutoffRow := mkCutoffRow {
  cut_spec : string;
  cut_lowest : Q;
  cut_highest : Q;
  cut_count : Z
}.

(** Lines 360-375 of the interface: the list [cutoff_rows], one row per
    category of [spec_list] that has students, with the lowest and highest
    score among them and their number.  These are the rows as built;
    [cutoff_df] below is the table made of them, whose scores are rounded
    before it is shown. *)
Definition cutoff_rows (spec_list : list string) (df : DataFrame)
    (final_assignments : dict Z (option string)) : list CutoffRow :=
  flat_map
    (fun spec =>
       let selected := filter (spec_mask final_assignments spec) (rows df) in
       match map row_gpa selected with
       | [] => []
       | g :: gs =>
           [mkCutoffRow spec (series_min g gs) (series_max g gs)
              (Z.of_nat (List.length selected))]
       end)
    spec_list.

(** Library behaviour of [Series.round(2)] on a column of scores: numpy
    multiplies by 100, rounds to the nearest integer and divides by 100,
    all in binary64.  Each of the three operations keeps the order of
    its arguments, and that is the one property taken here. *)
Class SeriesRound := {
  round2 : Q -> Q;
  round2_monotone : forall x y, (x <= y)%Q -> (round2 x <= round2 y)%Q
}.

(** Lines 376-383 of the interface: the table shown, with both score
    columns rounded to 2 decimals; [None] when no row was built, in which
    case the interface writes a message instead. *)
Definition cutoff_df {SR : SeriesRound} (cutoff : list CutoffRow)
  : option (list CutoffRow) :=
  match cutoff with
  | [] => None
  | _ :: _ =>
      Some (map (fun c => mkCutoffRow (cut_spec c) (round2 (cut_lowest c))
                            (round2 (cut_highest c)) (cut_count c))
              cutoff)
  end.

(** A reference rounding: the exact value rounded to 2 decimals, ties to
    even. *)
Definition round_to_2 (x : Q) : Q :=
  Qmake (round_half_even (Qnum x * 100) (Zpos (Qden x))) 100.

Lemma round_half_even_mono (a b c d : Z) :
  0 < b -> 0 < d -> a * d <= c * b ->
  round_half_even a b <= round_half_even c d.
Proof.
  intros Hb Hd H. unfold round_half_even. cbv zeta.
  pose proof (Z.div_mod a b ltac:(lia)) as Ea.
  pose proof (Z.div_mod c d ltac:(lia)) as Ec.
  pose proof (Z.mod_pos_bound a b Hb) as Ra.
  pose proof (Z.mod_pos_bound c d Hd) as Rc.
  set (q1 := a / b) in *. set (r1 := a mod b) in *.
  set (q2 := c / d) in *. set (r2 := c mod d) in *.
  assert (Hq : q1 <= q2).
  { assert (q1 < q2 + 1); [|lia].
    apply (Z.mul_lt_mono_pos_l (b * d)); [nia|]. nia. }
  destruct (Z.eq_dec q1 q2) as [E|E].
  - rewrite <- E in *.
    assert (Hr : r1 * d <= r2 * b) by nia.
    destruct (Z.compare_spec (2 * r1) b), (Z.compare_spec (2 * r2) d);
      destruct (Z.even q1); try lia; nia.
  - destruct (Z.compare_spec (2 * r1) b), (Z.compare_spec (2 * r2) d);
      destruct (Z.even q1), (Z.even q2); lia.
Qed.

Lemma round_to_2_monotone (x y : Q) :
  (x <= y)%Q -> (round_to_2 x <= round_to_2 y)%Q.
Proof.
  unfold Qle, round_to_2. cbn [Qnum Qden]. intros H.
  apply Z.mul_le_mono_nonneg_r; [lia|].
  apply round_half_even_mono; lia.
Qed.

#[export] Instance reference_round : SeriesRound := {|
  round2 := round_to_2;
  round2_monotone := round_to_2_monotone
|}.

Lemma series_min_spec (l : list Q) :
  forall m,
    In (series_min m l) (m :: l) /\
    forall y, In y (m :: l) -> (series_min m l <= y)%Q.
Proof.
  unfold series_min. induction l as [|x l IH]; intros m; cbn [fold_left].
  - split; [now left|]. intros y [<-|[]]. apply Qle_refl.
  - destruct (IH (if Qle_bool m x then m else x)) as [Hin Hle].
    assert (Hm : ((if Qle_bool m x then m else x) <= m)%Q /\
                 ((if Qle_bool m x then m else x) <= x)%Q).
    { destruct (Qle_bool m x) eqn:E.
      - split; [apply Qle_refl|now apply Qle_bool_iff].
      - split; [|apply Qle_refl]. apply Qlt_le_weak, Qnot_le_lt.
        intros H. apply Qle_bool_iff in H. congruence. }
    split.
    + destruct Hin as [Hin|Hin]; [|right; now right].
      rewrite <- Hin. destruct (Qle_bool m x); [now left|right; now left].
    + intros y [<-|[<-|Hy]].
      * eapply Qle_trans; [apply Hle; now left|apply Hm].
      * eapply Qle_trans; [apply Hle; now left|apply Hm].
      * apply Hle. now right.
Qed.

Lemma series_max_spec (l : list Q) :
  forall m,
    In (series_max m l) (m :: l) /\
    forall y, In y (m :: l) -> (y <= series_max m l)%Q.
Proof.
  unfold series_max. induction l as [|x l IH]; intros m; cbn [fold_left].
  - split; [now left|]. intros y [<-|[]]. apply Qle_refl.
  - destruct (IH (if Qle_bool x m then m else x)) as [Hin Hle].
    assert (Hm : (m <= (if Qle_bool x m then m else x))%Q /\
                 (x <= (if Qle_bool x m then m else x))%Q).
    { destruct (Qle_bool x m) eqn:E.
      - split; [apply Qle_refl|now apply Qle_bool_iff].
      - split; [|apply Qle_refl]. apply Qlt_le_weak, Qnot_le_lt.
        intros H. apply Qle_bool_iff in H. congruence. }
    split.
    + destruct Hin as [Hin|Hin]; [|right; now right].
      rewrite <- Hin. destruct (Qle_bool x m); [now left|right; now left].
    + intros y [<-|[<-|Hy]].
      * eapply Qle_trans; [apply Hm|apply Hle; now left].
      * eapply Qle_trans; [apply Hm|apply Hle; now left].
      * apply Hle. now right.
Qed.

Lemma lookup_entries (vs : list SnapshotView) (v : SnapshotView) :
  NoDup (map v_student_id vs) ->
  In v vs ->
  dict_lookup Z.eqb (entries vs) (v_student_id v) = Some (v_chosen v).
Proof.
  induction vs as [|a vs IH]; intros Hnd Hin; [destruct Hin|].
  cbn [entries map dict_lookup]. inversion Hnd as [|? ? Hnin Hnd']; subst.
  destruct (Z.eqb_spec (v_student_id a) (v_student_id v)) as [E|E].
  - destruct Hin as [->|Hin]; [reflexivity|].
    exfalso. apply Hnin. rewrite E. now apply in_map.
  - destruct Hin as [->|Hin]; [contradiction|]. now apply IH.
Qed.

Lemma filter_perm {A} (f : A -> bool) (l l' : list A) :
  Permutation l l' -> Permutation (filter f l) (filter f l').
Proof.
  induction 1 as [|x l l' _ IH|x y l|l l' l'' _ IH1 _ IH2]; cbn [filter].
  - constructor.
  - destruct (f x); [now constructor|exact IH].
  - destruct (f x), (f y); try reflexivity. apply perm_swap.
  - eapply perm_trans; eassumption.
Qed.

Lemma sorted_map {A B} (f : A -> B) (R : B -> B -> Prop) (l : list A) :
  StronglySorted R (map f l) -> StronglySorted (fun a b => R (f a) (f b)) l.
Proof.
  induction l as [|x l IH]; intros H; [constructor|].
  cbn [map] in H. inversion H as [|? ? Hs Hx]; subst.
  constructor; [now apply IH|].
  rewrite Forall_forall in *. intros y Hy. apply Hx. now apply in_map.
Qed.

Lemma map_sorted {A B} (f : A -> B) (R : B -> B -> Prop) (l : list A) :
  StronglySorted (fun a b => R (f a) (f b)) l -> StronglySorted R (map f l).
Proof.
  induction 1 as [|x l _ IH Hx]; cbn [map]; constructor; [exact IH|].
  rewrite Forall_forall in *. intros y Hy. apply in_map_iff in Hy.
  destruct Hy as (a & <- & Ha). now apply Hx.
Qed.

Lemma sorted_nth {A} (R : A -> A -> Prop) (l : list A) :
  StronglySorted R l ->
  forall i j a b,
    (i < j)%nat -> nth_error l i = Some a -> nth_error l j = Some b -> R a b.
Proof.
  induction 1 as [|x l _ IH Hx]; intros i j a b Hij Hi Hj.
  - destruct i; discriminate.
  - destruct j as [|j]; [lia|]. cbn [nth_error] in Hj.
    destruct i as [|i].
    + cbn in Hi. injection Hi as <-. rewrite Forall_forall in Hx.
      apply Hx. eapply nth_error_In. exact Hj.
    + cbn [nth_error] in Hi. eapply IH; [|exact Hi|exact Hj]. lia.
Qed.

(** Records and snapshots that go by pairs: the records selected for a
    category are the students assigned to it. *)
Lemma selected_rows_views (fa : dict Z (option string)) (spec : string) :
  forall (S : list Row) (vs : list SnapshotView),
    map (fun v => (v_student_id v, v_gpa v)) vs
    = map (fun r => (row_id r, row_gpa r)) S ->
    (forall v, In v vs ->
       dict_lookup Z.eqb fa (v_student_id v) = Some (v_chosen v)) ->
    List.length (filter (spec_mask fa spec) S) = count_assigned (entries vs) spec /\
    forall g, In g (map row_gpa (filter (spec_mask fa spec) S)) <->
              exists v, In v vs /\ v_chosen v = Some spec /\ v_gpa v = g.
Proof.
  induction S as [|r S IH]; intros [|v vs] Hmap Hfa; try discriminate.
  - split; [reflexivity|]. intros g. split; [intros []|now intros (v & [] & _)].
  - cbn [map] in Hmap. injection Hmap as Hid Hgpa Hmap.
    destruct (IH vs Hmap (fun u Hu => Hfa u (or_intror Hu))) as [IHl IHg].
    assert (Hmask : spec_mask fa spec r
                    = match v_chosen v with
                      | Some c => String.eqb c spec
                      | None => false
                      end).
    { unfold spec_mask, assigned_spec. rewrite <- Hid.
      now rewrite (Hfa v (or_introl eq_refl)). }
    cbn [filter]. rewrite Hmask. unfold entries. cbn [map].
    fold (entries vs). rewrite count_assigned_cons.
    unfold count_assigned at 1. cbn [filter snd].
    destruct (v_chosen v) as [c|] eqn:Ec.
    + destruct (String.eqb_spec c spec) as [->|Hne].
      * cbn [List.length map]. split; [now rewrite IHl|].
        intros g. split.
        -- intros [<-|Hg]; [exists v; repeat split; auto; now left|].
           apply IHg in Hg. destruct Hg as (u & Hu & Hc). exists u.
           split; [now right|exact Hc].
        -- intros (u & [<-|Hu] & Hc & Hg); [left; congruence|].
           right. apply IHg. now exists u.
      * cbn [List.length]. split; [now rewrite IHl|].
        intros g. rewrite IHg. split.
        -- intros (u & Hu & Hc). exists u. split; [now right|exact Hc].
        -- intros (u & [<-|Hu] & Hc & Hg); [congruence|now exists u].
    + cbn [List.length]. split; [now rewrite IHl|].
      intros g. rewrite IHg. split.
      * intros (u & Hu & Hc). exists u. split; [now right|exact Hc].
      * intros (u & [<-|Hu] & Hc & Hg); [congruence|now exists u].
Qed.

Section CutoffProperties.
Context {RM : RandomModule} {FS : FrameSort}.

Lemma final_assignments_entries (df : DataFrame) (cd : ref) (mp : Z) (fb : bool)
    (seed : option Z) (s : store) (fin : SnapshotView) :
  NoDup (map row_id (rows df)) ->
  final_view (trace df cd mp fb seed s) = Some fin ->
  v_assignments fin = entries (trace df cd mp fb seed s).
Proof.
  intros Hnd Hf.
  rewrite (trace_assignments df cd mp fb seed s _ Hnd Hf).
  now rewrite (final_view_all _ Hf).
Qed.

Lemma trace_pairs (df : DataFrame) (cd : ref) (mp : Z) (fb : bool)
    (seed : option Z) (s : store) :
  map (fun v => (v_student_id v, v_gpa v)) (trace df cd mp fb seed s)
  = map (fun r => (row_id r, row_gpa r)) (sort_values_desc (rows df)).
Proof.
  pose proof (trace_students df cd mp fb seed s) as H.
  apply (f_equal (map fst)) in H. unfold students_of in H.
  rewrite !map_map in H. exact H.
Qed.

Lemma trace_sorted (df : DataFrame) (cd : ref) (mp : Z) (fb : bool)
    (seed : option Z) (s : store) :
  StronglySorted (fun a b => (v_gpa b <= v_gpa a)%Q) (trace df cd mp fb seed s).
Proof.
  apply (@sorted_map _ _ v_gpa (fun x y => (y <= x)%Q)).
  pose proof (trace_pairs df cd mp fb seed s) as H.
  apply (f_equal (map snd)) in H. rewrite !map_map in H. cbn [snd] in H.
  assert (H' : map v_gpa (trace df cd mp fb seed s)
               = map row_gpa (sort_values_desc (rows df))) by exact H.
  rewrite H'. apply (@map_sorted _ _ row_gpa (fun x y => (y <= x)%Q)).
  apply sort_values_sorted.
Qed.

Lemma trace_ids_nodup (df : DataFrame) (cd : ref) (mp : Z) (fb : bool)
    (seed : option Z) (s : store) :
  NoDup (map row_id (rows df)) ->
  NoDup (map v_student_id (trace df cd mp fb seed s)).
Proof. intros H. rewrite trace_ids. now apply sorted_ids_nodup. Qed.

(** The records the interface selects for a category are the students the
    run assigned to it. *)
Lemma selected_rows_trace (df : DataFrame) (cd : ref) (mp : Z) (fb : bool)
    (seed : option Z) (s : store) (fin : SnapshotView) (spec : string) :
  NoDup (map row_id (rows df)) ->
  final_view (trace df cd mp fb seed s) = Some fin ->
  Z.of_nat (List.length (filter (spec_mask (v_assignments fin) spec) (rows df)))
  = dict_get String.eqb (nth cd (caps_heap s) []) spec 0
    - dict_get String.eqb (v_remaining fin) spec 0 /\
  forall g,
    In g (map row_gpa (filter (spec_mask (v_assignments fin) spec) (rows df))) <->
    exists v, In v (trace df cd mp fb seed s) /\
              v_chosen v = Some spec /\ v_gpa v = g.
Proof.
  intros Hnd Hf.
  pose proof (final_assignments_entries df cd mp fb seed s Hnd Hf) as Hall.
  destruct (@selected_rows_views (v_assignments fin) spec
              (sort_values_desc (rows df)) (trace df cd mp fb seed s)
              (trace_pairs df cd mp fb seed s)) as [Hlen Hin].
  { intros v Hv. rewrite Hall. apply lookup_entries; [|exact Hv].
    now apply trace_ids_nodup. }
  pose proof (@filter_perm _ (spec_mask (v_assignments fin) spec) _ _
                (sort_values_perm (rows df))) as Hperm.
  split.
  - rewrite (Permutation_length Hperm), Hlen.
    pose proof Hf as Hf'. unfold final_view, trace in Hf'.
    rewrite (run_conservation fb _ _ _ _ _ Hf' spec).
    fold (trace df cd mp fb seed s).
    now rewrite (final_view_all (trace df cd mp fb seed s) (v := fin)).
  - intros g. rewrite <- Hin. split; intros Hg.
    + eapply Permutation_in; [apply Permutation_map, Hperm|exact Hg].
    + eapply Permutation_in; [apply Permutation_sym, Permutation_map, Hperm|exact Hg].
Qed.

Lemma cutoff_row_in (spec_list : list string) (df : DataFrame)
    (fa : dict Z (option string)) (c : CutoffRow) :
  In c (cutoff_rows spec_list df fa) <->
  exists g gs,
    In (cut_spec c) spec_list /\
    map row_gpa (filter (spec_mask fa (cut_spec c)) (rows df)) = g :: gs /\
    c = mkCutoffRow (cut_spec c) (series_min g gs) (series_max g gs)
          (Z.of_nat (List.length (filter (spec_mask fa (cut_spec c)) (rows df)))).
Proof.
  unfold cutoff_rows. rewrite in_flat_map. split.
  - intros (spec & Hspec & Hc).
    destruct (map row_gpa (filter (spec_mask fa spec) (rows df))) as [|g gs] eqn:E;
      [destruct Hc|].
    destruct Hc as [<-|[]]. cbn [cut_spec]. exists g, gs. auto.
  - intros (g & gs & Hspec & E & Hc). exists (cut_spec c). split; [exact Hspec|].
    rewrite E. left. now symmetry.
Qed.

(** The rows built from a run, its table and its capacity dictionary. *)
Lemma cutoff_rows_run (df : DataFrame) (cd : ref) (mp : Z) (fb : bool)
    (seed : option Z) (s : store) :
  has_column df "id" = true ->
  has_column df "gpa" = true ->
  NoDup (map row_id (rows df)) ->
  exists snaps s',
    allocation_steps df cd mp fb seed s = (inr snaps, s') /\
    forall fin,
      final_view (map (view s') snaps) = Some fin ->
      (forall c,
         In c (cutoff_rows (dict_keys (nth cd (caps_heap s) [])) df
                 (v_assignments fin)) ->
         In (cut_spec c) (dict_keys (nth cd (caps_heap s) [])) /\
         1 <= cut_count c /\
         cut_count c
         = dict_get String.eqb (nth cd (caps_heap s) []) (cut_spec c) 0
           - dict_get String.eqb (v_remaining fin) (cut_spec c) 0 /\
         (exists a, In a (map (view s') snaps) /\
                    v_chosen a = Some (cut_spec c) /\ v_gpa a = cut_lowest c) /\
         (exists b, In b (map (view s') snaps) /\
                    v_chosen b = Some (cut_spec c) /\ v_gpa b = cut_highest c) /\
         (forall u, In u (map (view s') snaps) ->
            v_chosen u = Some (cut_spec c) ->
            (cut_lowest c <= v_gpa u)%Q /\ (v_gpa u <= cut_highest c)%Q)) /\
      (forall u spec,
         In u (map (view s') snaps) -> v_chosen u = Some spec ->
         exists c,
           In c (cutoff_rows (dict_keys (nth cd (caps_heap s) [])) df
                   (v_assignments fin)) /\
           cut_spec c = spec).
Proof.
  intros Hid Hg Hnd.
  destruct (run_views df cd mp fb seed s Hid Hg) as (snaps & s' & Hrun & Hv).
  exists snaps, s'. split; [exact Hrun|]. rewrite Hv.
  intros fin Hf. split.
  - intros c Hc. apply cutoff_row_in in Hc.
    destruct Hc as (g & gs & Hspec & E & Hrow).
    destruct (selected_rows_trace df cd mp fb seed s (cut_spec c) Hnd Hf)
      as [Hcount Hin].
    assert (Hcnt : cut_count c
                   = Z.of_nat (List.length
                                 (filter (spec_mask (v_assignments fin) (cut_spec c))
                                    (rows df)))) by (rewrite Hrow at 1; reflexivity).
    assert (Hlo : cut_lowest c = series_min g gs) by (rewrite Hrow; reflexivity).
    assert (Hhi : cut_highest c = series_max g gs) by (rewrite Hrow; reflexivity).
    destruct (series_min_spec gs g) as [Hmin_in Hmin_le].
    destruct (series_max_spec gs g) as [Hmax_in Hmax_le].
    rewrite <- E in Hmin_in, Hmax_in, Hmin_le, Hmax_le.
    split; [exact Hspec|]. split.
    { rewrite Hcnt, <- (length_map row_gpa), E. cbn [List.length]. lia. }
    split; [now rewrite Hcnt|]. split.
    { apply Hin in Hmin_in. destruct Hmin_in as (a & Ha & Hca & Hga).
      exists a. rewrite Hlo. auto. }
    split.
    { apply Hin in Hmax_in. destruct Hmax_in as (b & Hb & Hcb & Hgb).
      exists b. rewrite Hhi. auto. }
    intros u Hu Hcu. rewrite Hlo, Hhi.
    assert (Hgu : In (v_gpa u)
                    (map row_gpa (filter (spec_mask (v_assignments fin) (cut_spec c))
                                    (rows df)))) by (apply Hin; eauto).
    split; [now apply Hmin_le|now apply Hmax_le].
  - intros u spec Hu Hcu.
    destruct (selected_rows_trace df cd mp fb seed s spec Hnd Hf) as [_ Hin].
    assert (Hgu : In (v_gpa u)
                    (map row_gpa (filter (spec_mask (v_assignments fin) spec)
                                    (rows df)))) by (apply Hin; eauto).
    destruct (map row_gpa (filter (spec_mask (v_assignments fin) spec) (rows df)))
      as [|g gs] eqn:E; [destruct Hgu|].
    exists (mkCutoffRow spec (series_min g gs) (series_max g gs)
              (Z.of_nat (List.length (filter (spec_mask (v_assignments fin) spec)
                                        (rows df))))).
    split; [|reflexivity].
    apply cutoff_row_in. cbn [cut_spec]. exists g, gs.
    split; [|split; [exact E|reflexivity]].
    apply In_nth_error in Hu. destruct Hu as [k Ek].
    destruct (trace_step _ _ _ _ _ _ _ Ek) as (gk & Hs).
    assert (Hck : fst (fst (step fb (capacity_before (nth cd (caps_heap s) [])
                                      (trace df cd mp fb seed s) k) gk (v_prefs u)))
                  = Some spec) by (now rewrite Hs).
    destruct (step_some _ _ _ _ Hck) as [Hkey _].
    now rewrite capacity_before_keys in Hkey.
Qed.

(** The lowest score of a row as built is an admission threshold. *)
Lemma cutoff_rows_threshold (df : DataFrame) (cd : ref) (mp : Z) (fb : bool)
    (seed : option Z) (s : store) :
  has_column df "id" = true ->
  has_column df "gpa" = true ->
  NoDup (map row_id (rows df)) ->
  dict_wf (nth cd (caps_heap s) []) ->
  exists snaps s',
    allocation_steps df cd mp fb seed s = (inr snaps, s') /\
    forall fin c u,
      final_view (map (view s') snaps) = Some fin ->
      In c (cutoff_rows (dict_keys (nth cd (caps_heap s) [])) df
              (v_assignments fin)) ->
      In u (map (view s') snaps) ->
      (cut_lowest c < v_gpa u)%Q ->
      In (cut_spec c) (v_prefs u) ->
      exists front c' back,
        v_prefs u = front ++ c' :: back /\
        v_chosen u = Some c' /\
        ~ In (cut_spec c) front.
Proof.
  intros Hid Hg Hnd Hwf.
  destruct (run_views df cd mp fb seed s Hid Hg) as (snaps & s' & Hrun & Hv).
  exists snaps, s'. split; [exact Hrun|]. rewrite Hv.
  intros fin c u Hf Hc Hu Hlt Hpref.
  apply cutoff_row_in in Hc. destruct Hc as (g & gs & _ & E & Hrow).
  destruct (selected_rows_trace df cd mp fb seed s (cut_spec c) Hnd Hf) as [_ Hin].
  assert (Hlo : cut_lowest c = series_min g gs) by (rewrite Hrow; reflexivity).
  destruct (series_min_spec gs g) as [Hmin_in _].
  rewrite <- E in Hmin_in. apply Hin in Hmin_in.
  destruct Hmin_in as (a & Ha & Hca & Hga).
  rewrite Hlo, <- Hga in Hlt.
  apply In_nth_error in Hu. destruct Hu as [i Ei].
  apply In_nth_error in Ha. destruct Ha as [j Ej].
  pose proof (trace_sorted df cd mp fb seed s) as Hsorted.
  assert (Hij : (i < j)%nat).
  { destruct (Nat.lt_trichotomy i j) as [H|[H|H]]; [exact H| |].
    - subst j. rewrite Ei in Ej. injection Ej as ->.
      exfalso. exact (Qlt_irrefl _ Hlt).
    - pose proof (@sorted_nth _ _ _ Hsorted _ _ _ _ H Ej Ei) as Hle. cbn beta in Hle.
      exfalso. exact (Qlt_irrefl _ (Qlt_le_trans _ _ _ Hlt Hle)). }
  exact (trace_no_envy df cd mp fb seed s Hwf Hij Ei Ej Hpref Hca).
Qed.
End CutoffProperties.

Section CutoffTable.
Context {RM : RandomModule} {FS : FrameSort} {SR : SeriesRound}.

Lemma round2_lt (x y : Q) : (round2 x < round2 y)%Q -> (x < y)%Q.
Proof.
  intros H. apply Qnot_le_lt. intros Hle.
  apply round2_monotone in Hle. exact (Qlt_not_le _ _ H Hle).
Qed.

Lemma cutoff_df_some (cutoff shown : list CutoffRow) :
  cutoff_df cutoff = Some shown ->
  shown = map (fun c => mkCutoffRow (cut_spec c) (round2 (cut_lowest c))
                          (round2 (cut_highest c)) (cut_count c)) cutoff.
Proof.
  unfold cutoff_df. destruct cutoff as [|c1 rest]; [discriminate|congruence].
Qed.

Lemma cutoff_df_rows (cutoff shown : list CutoffRow) (c : CutoffRow) :
  cutoff_df cutoff = Some shown ->
  In c shown ->
  exists c0,
    In c0 cutoff /\ cut_spec c = cut_spec c0 /\ cut_count c = cut_count c0 /\
    cut_lowest c = round2 (cut_lowest c0) /\
    cut_highest c = round2 (cut_highest c0).
Proof.
  intros E Hin. rewrite (cutoff_df_some _ E) in Hin.
  apply in_map_iff in Hin. destruct Hin as (c0 & <- & Hc0).
  exists c0. cbn [cut_spec cut_count cut_lowest cut_highest]. auto.
Qed.

(** X17.  The cutoff table is a summary of the run.  The interface keeps
    the snapshots of the last run in the session and builds the table
    from the student table and the capacities it has now; the statement
    is for the case where these are the ones the run was given.  For such
    a run on a table with pairwise distinct labels and pairwise distinct
    identifiers (of magnitude at most 2^53 when pandas hands the rows
    over as float64 numbers): every row built at lines 360-375 is for a
    category of the dictionary that at least one student was assigned;
    its count is the number of seats the run took from the category
    (initial capacity minus remaining capacity in the final snapshot);
    its lowest and highest scores are scores of students assigned to the
    category and bound the score of every student assigned to it; and
    every category that was assigned to a student has a row.  The table
    shown has the same categories and counts, in the same order; lines
    379-380 round its two score columns to 2 decimals, so what it shows
    as lowest and highest are the rounded scores of students assigned to
    the category, and they bound the rounded score of every student
    assigned to it.  No table is shown exactly when no student was
    assigned. *)
Theorem cutoff_rows_sound (df : DataFrame) (float_rows : bool) (cd : ref)
    (mp : Z) (fb : bool) (seed : option Z) (s : store) :
  has_column df "id" = true ->
  has_column df "gpa" = true ->
  labels_distinct df ->
  (float_rows = true -> ids_exact df) ->
  NoDup (map row_id (rows df)) ->
  exists snaps s',
    allocation_steps_labels (iterrows_view float_rows df) cd mp fb seed s
    = (inr snaps, s') /\
    forall fin,
      final_view (map (view s') snaps) = Some fin ->
      let built := cutoff_rows (dict_keys (nth cd (caps_heap s) [])) df
                     (v_assignments fin) in
      (forall c,
         In c built ->
         In (cut_spec c) (dict_keys (nth cd (caps_heap s) [])) /\
         1 <= cut_count c /\
         cut_count c
         = dict_get String.eqb (nth cd (caps_heap s) []) (cut_spec c) 0
           - dict_get String.eqb (v_remaining fin) (cut_spec c) 0 /\
         (exists a, In a (map (view s') snaps) /\
                    v_chosen a = Some (cut_spec c) /\ v_gpa a = cut_lowest c) /\
         (exists b, In b (map (view s') snaps) /\
                    v_chosen b = Some (cut_spec c) /\ v_gpa b = cut_highest c) /\
         (forall u, In u (map (view s') snaps) ->
            v_chosen u = Some (cut_spec c) ->
            (cut_lowest c <= v_gpa u)%Q /\ (v_gpa u <= cut_highest c)%Q)) /\
      (forall u spec,
         In u (map (view s') snaps) -> v_chosen u = Some spec ->
         exists c, In c built /\ cut_spec c = spec) /\
      match cutoff_df built with
      | None => forall u, In u (map (view s') snaps) -> v_chosen u = None
      | Some shown =>
          shown <> [] /\
          map cut_spec shown = map cut_spec built /\
          map cut_count shown = map cut_count built /\
          forall c,
            In c shown ->
            (exists a, In a (map (view s') snaps) /\
                       v_chosen a = Some (cut_spec c) /\
                       round2 (v_gpa a) = cut_lowest c) /\
            (exists b, In b (map (view s') snaps) /\
                       v_chosen b = Some (cut_spec c) /\
                       round2 (v_gpa b) = cut_highest c) /\
            (forall u, In u (map (view s') snaps) ->
               v_chosen u = Some (cut_spec c) ->
               (cut_lowest c <= round2 (v_gpa u))%Q /\
               (round2 (v_gpa u) <= cut_highest c)%Q)
      end.
Proof.
  intros Hid Hg Hl Hex Hnd.
  rewrite (@iterrows_view_exact float_rows df Hex).
  destruct (cutoff_rows_run df cd mp fb seed s Hid Hg Hnd)
    as (snaps & s' & Hrun & H).
  exists snaps, s'.
  rewrite (@allocation_steps_labels_distinct _ _ df cd mp fb seed s Hl).
  split; [exact Hrun|]. intros fin Hf built.
  destruct (H fin Hf) as [Hrows Hall]. fold built in Hrows, Hall.
  split; [exact Hrows|]. split; [exact Hall|].
  destruct (cutoff_df built) as [shown|] eqn:E.
  - assert (Hshown : forall c, In c shown ->
              exists c0, In c0 built /\ cut_spec c = cut_spec c0 /\
                cut_count c = cut_count c0 /\
                cut_lowest c = round2 (cut_lowest c0) /\
                cut_highest c = round2 (cut_highest c0))
      by (intros c; apply (@cutoff_df_rows _ _ c E)).
    split.
    { unfold cutoff_df in E. destruct built; [discriminate|].
      injection E as <-. discriminate. }
    rewrite (cutoff_df_some _ E), !map_map. cbn [cut_spec cut_count].
    split; [reflexivity|]. split; [reflexivity|].
    rewrite <- (cutoff_df_some _ E).
    intros c Hc. destruct (Hshown c Hc) as (c0 & Hc0 & Es & _ & Elo & Ehi).
    destruct (Hrows c0 Hc0) as (_ & _ & _ & (a & Ha & Hca & Hga)
                                & (b & Hb & Hcb & Hgb) & Hbound).
    rewrite Es, Elo, Ehi. split; [|split].
    + exists a. rewrite Hga. auto.
    + exists b. rewrite Hgb. auto.
    + intros u Hu Hcu. destruct (Hbound u Hu Hcu) as [H1 H2].
      split; now apply round2_monotone.
  - intros u Hu. destruct (v_chosen u) as [spec|] eqn:Ec; [|reflexivity].
    destruct (Hall u spec Hu Ec) as (c & Hc & _).
    unfold cutoff_df in E. destruct built; [destruct Hc|discriminate].
Qed.

(** X18.  The lowest score shown for a category is an admission
    threshold, once scores are compared at the two decimals the table
    shows.  For a run as in X17 on a capacity dictionary without repeated
    key: a student whose score, rounded as the table rounds, is strictly
    above the lowest score the table shows for a category, and who lists
    that category among the effective preferences, was assigned one of
    the listed preferences and the category does not come before it in
    the list.  (Comparing the student's unrounded score would not do: a
    score of 8.141 is above a lowest score shown as 8.14 that stands for
    8.143.)  The same holds of the rows as built, with the scores as they
    are. *)
Theorem cutoff_is_threshold (df : DataFrame) (float_rows : bool) (cd : ref)
    (mp : Z) (fb : bool) (seed : option Z) (s : store) :
  has_column df "id" = true ->
  has_column df "gpa" = true ->
  labels_distinct df ->
  (float_rows = true -> ids_exact df) ->
  NoDup (map row_id (rows df)) ->
  dict_wf (nth cd (caps_heap s) []) ->
  exists snaps s',
    allocation_steps_labels (iterrows_view float_rows df) cd mp fb seed s
    = (inr snaps, s') /\
    forall fin u,
      final_view (map (view s') snaps) = Some fin ->
      In u (map (view s') snaps) ->
      let built := cutoff_rows (dict_keys (nth cd (caps_heap s) [])) df
                     (v_assignments fin) in
      (forall shown c,
         cutoff_df built = Some shown ->
         In c shown ->
         (cut_lowest c < round2 (v_gpa u))%Q ->
         In (cut_spec c) (v_prefs u) ->
         exists front c' back,
           v_prefs u = front ++ c' :: back /\
           v_chosen u = Some c' /\
           ~ In (cut_spec c) front) /\
      (forall c,
         In c built ->
         (cut_lowest c < v_gpa u)%Q ->
         In (cut_spec c) (v_prefs u) ->
         exists front c' back,
           v_prefs u = front ++ c' :: back /\
           v_chosen u = Some c' /\
           ~ In (cut_spec c) front).
Proof.
  intros Hid Hg Hl Hex Hnd Hwf.
  rewrite (@iterrows_view_exact float_rows df Hex).
  destruct (cutoff_rows_threshold df cd mp fb seed s Hid Hg Hnd Hwf)
    as (snaps & s' & Hrun & H).
  exists snaps, s'.
  rewrite (@allocation_steps_labels_distinct _ _ df cd mp fb seed s Hl).
  split; [exact Hrun|]. intros fin u Hf Hu built. split.
  - intros shown c E Hc Hlt Hpref.
    destruct (@cutoff_df_rows _ _ c E Hc) as (c0 & Hc0 & Es & _ & Elo & _).
    rewrite Es in *. rewrite Elo in Hlt. apply round2_lt in Hlt.
    exact (H fin c0 u Hf Hc0 Hu Hlt Hpref).
  - intros c Hc Hlt Hpref. exact (H fin c u Hf Hc Hu Hlt Hpref).
Qed.
End CutoffTable.

Lemma cutoff_rows_sound_witness :
  has_column fallback_df "id" = true /\
  has_column fallback_df "gpa" = true /\
  labels_distinct fallback_df /\
  (false = true -> ids_exact fallback_df) /\
  NoDup (map row_id (rows fallback_df)) /\
  exists snaps s',
    allocation_steps_labels (RM := reference_random) (FS := reference_sort)
      (iterrows_view false fallback_df) 0%nat 2 true (Some 42)
      (store_with fallback_caps) = (inr snaps, s') /\
    forall fin,
      final_view (map (view s') snaps) = Some fin ->
      forall c,
        In c (cutoff_rows (dict_keys fallback_caps) fallback_df (v_assignments fin)) ->
        1 <= cut_count c /\
        cut_count c
        = dict_get String.eqb fallback_caps (cut_spec c) 0
          - dict_get String.eqb (v_remaining fin) (cut_spec c) 0.
Proof.
  split; [reflexivity|]. split; [reflexivity|].
  split; [exact test_labels_distinct|].
  split; [exact (fun _ => test_ids_exact)|]. split; [exact test_ids_distinct|].
  destruct (@cutoff_rows_sound reference_random reference_sort reference_round
              fallback_df false 0%nat 2 true (Some 42) (store_with fallback_caps)
              eq_refl eq_refl test_labels_distinct (fun _ => test_ids_exact)
              test_ids_distinct)
    as (snaps & s' & Hrun & H).
  exists snaps, s'. split; [exact Hrun|].
  intros fin Hf c Hc. destruct (H fin Hf) as [Hrows _].
  destruct (Hrows c Hc) as (_ & H1 & H2 & _). split; [exact H1|exact H2].
Defined.

Lemma cutoff_is_threshold_witness :
  has_column fallback_df "id" = true /\
  has_column fallback_df "gpa" = true /\
  labels_distinct fallback_df /\
  (false = true -> ids_exact fallback_df) /\
  NoDup (map row_id (rows fallback_df)) /\
  dict_wf fallback_caps /\
  exists snaps s',
    allocation_steps_labels (RM := reference_random) (FS := reference_sort)
      (iterrows_view false fallback_df) 0%nat 2 true (Some 42)
      (store_with fallback_caps) = (inr snaps, s') /\
    forall fin u shown c,
      final_view (map (view s') snaps) = Some fin ->
      In u (map (view s') snaps) ->
      cutoff_df (SR := reference_round)
        (cutoff_rows (dict_keys fallback_caps) fallback_df (v_assignments fin))
      = Some shown ->
      In c shown ->
      (cut_lowest c < round_to_2 (v_gpa u))%Q ->
      In (cut_spec c) (v_prefs u) ->
      exists front c' back,
        v_prefs u = front ++ c' :: back /\
        v_chosen u = Some c' /\
        ~ In (cut_spec c) front.
Proof.
  assert (Hwf : dict_wf fallback_caps) by solve_wf.
  split; [reflexivity|]. split; [reflexivity|].
  split; [exact test_labels_distinct|].
  split; [exact (fun _ => test_ids_exact)|]. split; [exact test_ids_distinct|].
  split; [exact Hwf|].
  destruct (@cutoff_is_threshold reference_random reference_sort reference_round
              fallback_df false 0%nat 2 true (Some 42) (store_with fallback_caps)
              eq_refl eq_refl test_labels_distinct (fun _ => test_ids_exact)
              test_ids_distinct Hwf)
    as (snaps & s' & Hrun & H).
  exists snaps, s'. split; [exact Hrun|].
  intros fin u shown c Hf Hu E Hc Hlt Hpref.
  destruct (H fin u Hf Hu) as [Hshown _].
  exact (Hshown shown c E Hc Hlt Hpref).
Defined.

(** Why the student's score is rounded too.  Two students with the scores
    8.143 and 8.141 and the preferences Software, Mechanical, one seat in
    each category: the table shows 8.14 as the lowest score of Software,
    and the second student, whose score 8.141 is above 8.14 and who lists
    Software first, has Mechanical. *)
Definition rounding_df : DataFrame :=
  mkDataFrame test_columns
    [mkRow 1 (8143 # 1000) test_prefs; mkRow 2 (8141 # 1000) test_prefs].

Example cutoff_rounding_example :
  match run_reference rounding_df priority_caps 2 false None with
  | inr views =>
      match final_view views with
      | Some fin =>
          (map (fun v => (v_gpa v, v_chosen v)) views,
           option_map (map (fun c => (cut_spec c, cut_lowest c)))
             (cutoff_df (SR := reference_round)
                (cutoff_rows (dict_keys priority_caps) rounding_df
                   (v_assignments fin))))
      | None => ([], None)
      end
  | inl _ => ([], None)
  end
  = ([(8143 # 1000, Some "Software"); (8141 # 1000, Some "Mechanical")],
     Some [("Software", 814 # 100); ("Mechanical", 814 # 100)]).
Proof. vm_compute. reflexivity. Qed.

(** The cutoff table of the second test: one student in each of the three
    categories. *)
Example cutoff_rows_example :
  match fallback_trace with
  | inr views =>
      match final_view views with
      | Some fin =>
          map (fun c => (cut_spec c, cut_count c))
            (cutoff_rows (dict_keys fallback_caps) fallback_df (v_assignments fin))
      | None => []
      end
  | inl _ => []
  end
  = [("Software", 1); ("Mechanical", 1); ("Engineering Science", 1)].
Proof. vm_compute. reflexivity. Qed.

Section FallbackExtras.
Context {RM : RandomModule} {FS : FrameSort}.

(** X19.  With the fallback enabled no seat is wasted.  When the capacity
    dictionary has no repeated key and no negative count, a student is
    left without a category only once every seat is taken: if any
    snapshot shows an unassigned student, every category of the final
    snapshot has zero seats left. *)
Theorem fallback_wastes_no_seat (df : DataFrame) (cd : ref) (mp : Z)
    (seed : option Z) (s : store) :
  has_column df "id" = true ->
  has_column df "gpa" = true ->
  dict_wf (nth cd (caps_heap s) []) ->
  all_nonneg (nth cd (caps_heap s) []) ->
  exists snaps s',
    allocation_steps df cd mp true seed s = (inr snaps, s') /\
    forall fin u,
      final_view (map (view s') snaps) = Some fin ->
      In u (map (view s') snaps) ->
      v_chosen u = None ->
      forall c n, In (c, n) (v_remaining fin) -> n = 0.
Proof.
  intros Hid Hg Hwf Hnn.
  destruct (run_views df cd mp true seed s Hid Hg) as (snaps & s' & Hrun & Hv).
  exists snaps, s'. split; [exact Hrun|]. rewrite Hv.
  intros fin u Hf Hu Hcu c n Hin.
  apply In_nth_error in Hu. destruct Hu as [k Ek].
  unfold final_view in Hf.
  set (last := (List.length (trace df cd mp true seed s) - 1)%nat) in *.
  assert (Hk : (k < List.length (trace df cd mp true seed s))%nat)
    by (apply nth_error_Some; congruence).
  assert (Hinv : dict_wf (capacity_before (nth cd (caps_heap s) [])
                            (trace df cd mp true seed s) (S last)) /\
                 all_nonneg (capacity_before (nth cd (caps_heap s) [])
                               (trace df cd mp true seed s) (S last))).
  { apply capacity_before_ind with (P := fun d => dict_wf d /\ all_nonneg d);
      [now split|].
    intros caps g ps [H1 H2]. split;
      [now apply step_keeps_wf|now apply step_keeps_nonneg]. }
  rewrite (capacity_after _ _ _ _ _ _ _ Hf) in Hinv. destruct Hinv as [Hwfin Hnfin].
  pose proof (Hnfin c n Hin) as Hge.
  destruct (trace_step _ _ _ _ _ _ _ Ek) as (gk & Hs).
  assert (Hck : fst (fst (step true (capacity_before (nth cd (caps_heap s) [])
                                      (trace df cd mp true seed s) k) gk (v_prefs u)))
                = None) by (now rewrite Hs).
  destruct (step_none_spec _ _ _ _ Hck) as [_ Hfull].
  specialize (Hfull eq_refl (capacity_before_wf df cd mp true seed s k Hwf)).
  destruct (capacity_before_le df cd mp true seed s c k (S last - k)) as [Hle|Hlt];
    [|unfold last in Hlt; lia].
  replace (k + (S last - k))%nat with (S last) in Hle by (unfold last; lia).
  rewrite (capacity_after _ _ _ _ _ _ _ Hf) in Hle.
  assert (Hfin : dict_get String.eqb (v_remaining fin) c 0 = n).
  { unfold dict_get. now rewrite (@dict_wf_lookup _ _ _ Hwfin Hin). }
  assert (Hbefore : dict_get String.eqb
                      (capacity_before (nth cd (caps_heap s) [])
                         (trace df cd mp true seed s) k) c 0 <= 0).
  { unfold dict_get.
    destruct (dict_lookup String.eqb
                (capacity_before (nth cd (caps_heap s) [])
                   (trace df cd mp true seed s) k) c) as [m|] eqn:E; [|lia].
    apply dict_lookup_in_pair in E. exact (Hfull _ _ E). }
  lia.
Qed.
End FallbackExtras.

Lemma fallback_wastes_no_seat_witness :
  has_column fallback_df "id" = true /\
  has_column fallback_df "gpa" = true /\
  dict_wf priority_caps /\
  all_nonneg priority_caps /\
  exists snaps s',
    allocation_steps (RM := reference_random) (FS := reference_sort)
      fallback_df 0%nat 2 true (Some 42) (store_with priority_caps) = (inr snaps, s') /\
    forall fin u,
      final_view (map (view s') snaps) = Some fin ->
      In u (map (view s') snaps) ->
      v_chosen u = None ->
      forall c n, In (c, n) (v_remaining fin) -> n = 0.
Proof.
  assert (Hwf : dict_wf priority_caps) by solve_wf.
  assert (Hnn : all_nonneg priority_caps) by solve_nonneg.
  split; [reflexivity|]. split; [reflexivity|]. split; [exact Hwf|].
  split; [exact Hnn|].
  exact (@fallback_wastes_no_seat reference_random reference_sort
           fallback_df 0%nat 2 (Some 42) (store_with priority_caps)
           eq_refl eq_refl Hwf Hnn).
Defined.

(* ================================================================== *)
(** * The interface: capacities and the step pointer *)
(* ================================================================== *)

Definition default_specs : list string :=
  ["Biomedical"; "Chemical and Materials"; "Civil and Environmental";
   "Computer Systems"; "Electrical and Electronic"; "Engineering Science";
   "Mechanical"; "Mechatronics"; "Software"; "Structural"].

(** Lines 55-69 of the interface: the capacity dictionary, one entry per
    default category, [seats spec] being what the number input of the
    category returns. *)
Definition spec_capacity (seats : string -> Z) : dict string Z :=
  fold_left (fun d spec => dict_set String.eqb d spec (seats spec)) default_specs [].

Definition spec_list (seats : string -> Z) : list string :=
  dict_keys (spec_capacity seats).

(** What the widgets of the step panel return in one run of the script:
    the value of the slider and, for each button, whether it was
    clicked. *)
Record StepWidgets := mkStepWidgets {
  slider_val : Z;
  previous_step : bool;
  next_step : bool;
  skip_to_final : bool;
  back_to_start : bool
}.

(** Lines 276-312 of the interface: the step pointer after one run of the
    script, from the pointer kept in the session ([None] when the key is
    not there yet). *)
Definition current_step_val (total_steps : Z) (stored : option Z) (w : StepWidgets)
  : Z :=
  let cur0 := match stored with Some c => c | None => 1 end in
  let cur1 := if negb (slider_val w =? cur0) then slider_val w else cur0 in
  let cur2 := if previous_step w
              then (if 1 <? cur1 then cur1 - 1 else cur1) else cur1 in
  let cur3 := if next_step w
              then (if cur2 <? total_steps then cur2 + 1 else cur2) else cur2 in
  let cur4 := if skip_to_final w then total_steps else cur3 in
  if back_to_start w then 1 else cur4.

(** [l[i]] for a Python integer index: a negative index counts from the
    end; out of range is [IndexError]. *)
Definition py_index {A : Type} (l : list A) (i : Z) : exn + A :=
  let n := Z.of_nat (List.length l) in
  let j := if i <? 0 then i + n else i in
  if (j <? 0) || (n <=? j) then inl IndexError
  else
    match nth_error l (Z.to_nat j) with
    | Some x => inr x
    | None => inl IndexError
    end.

(** Line 318: the snapshot shown. *)
Definition shown_snapshot {A : Type} (snapshots : list A) (stored : option Z)
    (w : StepWidgets) : exn + A :=
  py_index snapshots
    (current_step_val (Z.of_nat (List.length snapshots)) stored w - 1).

(** X20.  The capacity dictionary of the interface.  Whatever the number
    inputs return, the dictionary has the ten default categories as its
    keys, in their order and each once, and holds for each the value of
    its input; when no input returns a negative number (their lower bound
    is 0) no count is negative.  The dictionary passed to the engine thus
    has no repeated key and no negative count. *)
Theorem interface_capacities (seats : string -> Z) :
  spec_list seats = default_specs /\
  dict_wf (spec_capacity seats) /\
  (forall spec, In spec default_specs ->
     dict_lookup String.eqb (spec_capacity seats) spec = Some (seats spec)) /\
  ((forall spec, In spec default_specs -> 0 <= seats spec) ->
   all_nonneg (spec_capacity seats)).
Proof.
  assert (Hkeys : spec_list seats = default_specs) by reflexivity.
  split; [exact Hkeys|]. split; [|split].
  - unfold dict_wf. change (NoDup (spec_list seats)). rewrite Hkeys.
    repeat (constructor; [cbn; intuition discriminate|]). constructor.
  - intros spec Hin. cbn in Hin.
    repeat (destruct Hin as [<-|Hin]; [reflexivity|]). destruct Hin.
  - intros Hpos c n Hin.
    change (spec_capacity seats)
      with (map (fun spec => (spec, seats spec)) default_specs) in Hin.
    apply in_map_iff in Hin. destruct Hin as (spec & [= <- <-] & Hspec).
    now apply Hpos.
Qed.

(** X21.  The step pointer never leaves the snapshots.  When the run has
    at least one snapshot and the slider returns a value within its
    bounds [1 .. total_steps], then after any combination of clicks the
    pointer is within [1 .. total_steps] and the snapshot shown is the one
    at that position: the index is never out of range and never wraps
    around to the end of the list.  The pointer kept in the session has
    no influence: the buttons move from the slider's value. *)
Theorem step_pointer_in_range {A : Type} (snapshots : list A) (stored : option Z)
    (w : StepWidgets) :
  1 <= slider_val w <= Z.of_nat (List.length snapshots) ->
  1 <= current_step_val (Z.of_nat (List.length snapshots)) stored w
    <= Z.of_nat (List.length snapshots) /\
  (exists snap,
     shown_snapshot snapshots stored w = inr snap /\
     nth_error snapshots
       (Z.to_nat (current_step_val (Z.of_nat (List.length snapshots)) stored w) - 1)
     = Some snap) /\
  current_step_val (Z.of_nat (List.length snapshots)) stored w
  = current_step_val (Z.of_nat (List.length snapshots)) (Some (slider_val w)) w.
Proof.
  intros Hs.
  set (total := Z.of_nat (List.length snapshots)) in *.
  assert (Hcur1 : forall st,
            (if negb (slider_val w =? match st with Some c => c | None => 1 end)
             then slider_val w
             else match st with Some c => c | None => 1 end) = slider_val w).
  { intros st. destruct (Z.eqb_spec (slider_val w)
                           match st with Some c => c | None => 1 end) as [E|E];
      [now rewrite <- E|reflexivity]. }
  assert (Heq : forall st, current_step_val total st w
                           = current_step_val total (Some (slider_val w)) w).
  { intros st. unfold current_step_val. cbv zeta.
    rewrite (Hcur1 st), (Hcur1 (Some (slider_val w))). reflexivity. }
  assert (Hrange : 1 <= current_step_val total stored w <= total).
  { unfold current_step_val. cbv zeta. rewrite (Hcur1 stored).
    destruct (back_to_start w); [lia|].
    destruct (skip_to_final w); [lia|].
    destruct (previous_step w), (next_step w);
      repeat match goal with
             | |- context [if ?a <? ?b then _ else _] =>
                 destruct (Z.ltb_spec a b)
             end; lia. }
  split; [exact Hrange|]. split; [|apply Heq].
  unfold shown_snapshot, py_index. fold total.
  set (cur := current_step_val total stored w) in *.
  assert (E1 : (cur - 1 <? 0) = false) by (apply Z.ltb_ge; lia).
  assert (E2 : (total <=? cur - 1) = false) by (apply Z.leb_gt; lia).
  rewrite E1, E1, E2. cbn [orb].
  replace (Z.to_nat (cur - 1)) with (Z.to_nat cur - 1)%nat by lia.
  destruct (nth_error snapshots (Z.to_nat cur - 1)) as [snap|] eqn:E; [eauto|].
  apply nth_error_None in E. unfold total in Hrange. lia.
Qed.

Lemma step_pointer_in_range_witness :
  1 <= 2 <= Z.of_nat (List.length [10; 20; 30]) /\
  1 <= current_step_val 3 (Some 1) (mkStepWidgets 2 false true false false) <= 3 /\
  shown_snapshot [10; 20; 30] (Some 1) (mkStepWidgets 2 false true false false)
  = inr 30.
Proof.
  assert (H : 1 <= slider_val (mkStepWidgets 2 false true false false)
              <= Z.of_nat (List.length [10; 20; 30])) by (cbn; lia).
  destruct (step_pointer_in_range [10; 20; 30] (Some 1)
              (mkStepWidgets 2 false true false false) H) as (Hr & _ & _).
  split; [exact H|]. split; [exact Hr|reflexivity].
Defined.

(* ================================================================== *)
(** * Repeated identifiers *)
(* ================================================================== *)

Lemma dict_set_length {K V} (eqb : K -> K -> bool) (d : dict K V) (k : K) (v : V) :
  (List.length (dict_set eqb d k v) <= S (List.length d))%nat.
Proof.
  induction d as [|[k' v'] d IH]; cbn [dict_set List.length]; [lia|].
  destruct (eqb k' k); cbn [List.length]; lia.
Qed.

Section RepeatedIds.
Context {RM : RandomModule} {FS : FrameSort}.

(** The assignment dictionary a step starts from: distinct keys, at most
    one per student processed so far, every such student among them. *)
Lemma assignments_before_inv (df : DataFrame) (cd : ref) (mp : Z) (fb : bool)
    (seed : option Z) (s : store) (k : nat) :
  (k <= List.length (trace df cd mp fb seed s))%nat ->
  dict_wf (assignments_before [] (trace df cd mp fb seed s) k) /\
  (List.length (assignments_before [] (trace df cd mp fb seed s) k) <= k)%nat /\
  forall i u,
    (i < k)%nat ->
    nth_error (trace df cd mp fb seed s) i = Some u ->
    In (v_student_id u)
      (dict_keys (assignments_before [] (trace df cd mp fb seed s) k)).
Proof.
  induction k as [|k IH]; intros Hk.
  - cbn [assignments_before]. split; [constructor|]. split; [cbn; lia|].
    intros i u Hi. lia.
  - destruct IH as (Hwf & Hlen & Hin); [lia|].
    destruct (nth_error (trace df cd mp fb seed s) k) as [v|] eqn:E;
      [|apply nth_error_None in E; lia].
    pose proof E as E'. unfold trace in E'.
    destruct (run_pure_nth _ _ _ _ _ _ E') as (_ & _ & Hasg & _).
    fold (trace df cd mp fb seed s) in Hasg.
    cbn [assignments_before]. rewrite E, Hasg.
    split; [now apply dict_set_wf; [apply z_eqb_spec|]|]. split.
    + eapply Nat.le_trans; [apply dict_set_length|lia].
    + intros i u Hi Hu.
      destruct (Nat.eq_dec i k) as [->|Hne].
      * rewrite E in Hu. injection Hu as <-.
        eapply dict_lookup_some_in; [apply z_eqb_spec|].
        apply dict_set_lookup_same. apply z_eqb_spec.
      * apply dict_set_keys_incl. apply (Hin i u); [lia|exact Hu].
Qed.

(** X22.  What happens when identifiers repeat.  No distinctness is
    assumed here.  The assignment dictionary of every snapshot records
    the snapshot's own student with the category chosen at that step, has
    every student processed so far among its keys, and has no more entries
    than students processed: a student whose identifier was already used
    replaces the earlier student's entry instead of adding one. *)
Theorem repeated_ids_overwrite (df : DataFrame) (cd : ref) (mp : Z) (fb : bool)
    (seed : option Z) (s : store) :
  has_column df "id" = true ->
  has_column df "gpa" = true ->
  exists snaps s',
    allocation_steps df cd mp fb seed s = (inr snaps, s') /\
    forall k v,
      nth_error (map (view s') snaps) k = Some v ->
      dict_lookup Z.eqb (v_assignments v) (v_student_id v) = Some (v_chosen v) /\
      dict_wf (v_assignments v) /\
      (List.length (v_assignments v) <= S k)%nat /\
      (forall i u, (i <= k)%nat -> nth_error (map (view s') snaps) i = Some u ->
         In (v_student_id u) (dict_keys (v_assignments v))) /\
      (forall i u, (i < k)%nat -> nth_error (map (view s') snaps) i = Some u ->
         v_student_id u = v_student_id v ->
         (List.length (v_assignments v) <= k)%nat).
Proof.
  intros Hid Hg.
  destruct (run_views df cd mp fb seed s Hid Hg) as (snaps & s' & Hrun & Hv).
  exists snaps, s'. split; [exact Hrun|]. rewrite Hv.
  intros k v E.
  assert (Hk : (k < List.length (trace df cd mp fb seed s))%nat)
    by (apply nth_error_Some; congruence).
  destruct (assignments_before_inv df cd mp fb seed s (k := S k) ltac:(lia))
    as (Hwf & Hlen & Hin).
  cbn [assignments_before] in Hwf, Hlen, Hin. rewrite E in Hwf, Hlen, Hin.
  pose proof E as E'. unfold trace in E'.
  destruct (run_pure_nth _ _ _ _ _ _ E') as (_ & _ & Hasg & _).
  fold (trace df cd mp fb seed s) in Hasg.
  split; [|split; [exact Hwf|split; [exact Hlen|split]]].
  - rewrite Hasg. apply dict_set_lookup_same. apply z_eqb_spec.
  - intros i u Hi Hu. apply (Hin i u); [lia|exact Hu].
  - intros i u Hi Hu Hsame.
    destruct (assignments_before_inv df cd mp fb seed s (k := k) ltac:(lia))
      as (_ & Hlenk & Hink).
    rewrite Hasg, <- Hsame.
    specialize (Hink i u Hi Hu).
    replace (List.length
               (dict_set Z.eqb (assignments_before [] (trace df cd mp fb seed s) k)
                  (v_student_id u) (v_chosen v)))
      with (List.length (assignments_before [] (trace df cd mp fb seed s) k));
      [exact Hlenk|].
    rewrite <- !(length_map fst).
    change (List.length (dict_keys (assignments_before [] (trace df cd mp fb seed s) k))
            = List.length (dict_keys
                             (dict_set Z.eqb
                                (assignments_before [] (trace df cd mp fb seed s) k)
                                (v_student_id u) (v_chosen v)))).
    now rewrite (dict_set_keys_present Z.eqb z_eqb_spec _ _ _ Hink).
Qed.
End RepeatedIds.

Lemma repeated_ids_overwrite_witness :
  has_column twin_df "id" = true /\
  has_column twin_df "gpa" = true /\
  exists snaps s',
    allocation_steps (RM := reference_random) (FS := reference_sort)
      twin_df 0%nat 2 false None (store_with priority_caps) = (inr snaps, s') /\
    forall v,
      nth_error (map (view s') snaps) 1 = Some v ->
      dict_lookup Z.eqb (v_assignments v) (v_student_id v) = Some (v_chosen v) /\
      (List.length (v_assignments v) <= 2)%nat.
Proof.
  split; [reflexivity|]. split; [reflexivity|].
  destruct (@repeated_ids_overwrite reference_random reference_sort
              twin_df 0%nat 2 false None (store_with priority_caps) eq_refl eq_refl)
    as (snaps & s' & Hrun & H).
  exists snaps, s'. split; [exact Hrun|].
  intros v Hv. destruct (H 1%nat v Hv) as (H1 & _ & H2 & _). now split.
Defined.

Example repeated_ids_example :
  match run_reference twin_df priority_caps 2 false None with
  | inr views => map (fun v => (v_chosen v, v_assignments v, v_remaining v)) views
  | inl _ => []
  end
  = [(Some "Software", [(7, Some "Software")],
      [("Software", 0); ("Mechanical", 1)]);
     (Some "Mechanical", [(7, Some "Mechanical")],
      [("Software", 0); ("Mechanical", 0)])].
Proof. vm_compute. reflexivity. Qed.
